(** * PyPdnsRedis: the query/mutation engine and the PowerDNS pipe chatter

    A shallow embedding of [scripts/pdns_redis.py] (QueryOp, DeleteOp, AddOp,
    PdnsChatter) over the in-memory backend [PyPdnsRedis/mock.py] (MockRedis),
    followed by the properties of the specification that were checked
    against it.

    Conventions.
    - A Python 2 [str] is a Rocq [string] (a sequence of 8-bit characters).
    - [None]-able arguments are [option string]; Python truthiness of such a
      value is [truthy].
    - The backend is a finite map from keys to hashes, a hash a finite map
      from field names to values ([gmap]).  Python 2 leaves the iteration
      order of a [dict] unspecified; the model iterates in [map_to_list]
      order and no statement below depends on that order.
    - A call that can raise returns a [result]; stateful code threads the
      backend (or the chatter) explicitly and returns the state reached,
      also when it raises. *)

From Stdlib Require Import ZArith Ascii String List Decimal DecimalString DecimalPos DecimalZ.
From stdpp Require Import base option list strings gmap fin_maps.

Local Open Scope string_scope.
Local Open Scope Z_scope.

(* ===================================================================== *)
(** ** Python string primitives used by the program *)
(* ===================================================================== *)

Module PyStr.

(** [c.isspace()] in the C locale: space, \t, \n, \v, \f, \r. *)
Definition is_space (c : ascii) : bool :=
  let n := nat_of_ascii c in
  (Nat.eqb n 32 || (Nat.leb 9 n && Nat.leb n 13))%bool.

Definition upper_char (c : ascii) : ascii :=
  let n := nat_of_ascii c in
  if (Nat.leb 97 n && Nat.leb n 122)%bool then ascii_of_nat (n - 32)%nat else c.

Definition lower_char (c : ascii) : ascii :=
  let n := nat_of_ascii c in
  if (Nat.leb 65 n && Nat.leb n 90)%bool then ascii_of_nat (n + 32)%nat else c.

Fixpoint map_chars (f : ascii -> ascii) (s : string) : string :=
  match s with
  | EmptyString => EmptyString
  | String c r => String (f c) (map_chars f r)
  end.

(** [s.upper()] and [s.lower()]. *)
Definition upper : string -> string := map_chars upper_char.
Definition lower : string -> string := map_chars lower_char.

(** [s.lstrip()], [s.rstrip()], [s.strip()]. *)
Fixpoint lstrip (s : string) : string :=
  match s with
  | EmptyString => EmptyString
  | String c r => if is_space c then lstrip r else s
  end.

Fixpoint rstrip (s : string) : string :=
  match s with
  | EmptyString => EmptyString
  | String c r =>
      match rstrip r with
      | EmptyString => if is_space c then EmptyString else String c EmptyString
      | r' => String c r'
      end
  end.

Definition strip (s : string) : string := rstrip (lstrip s).

(** [s.startswith(p)]. *)
Definition startswith (s p : string) : bool := String.prefix p s.

(** The first occurrence of the separator character: the text before it
    and the text after it. *)
Fixpoint find_sep (c : ascii) (s : string) : option (string * string) :=
  match s with
  | EmptyString => None
  | String a r =>
      if Ascii.eqb a c then Some (EmptyString, r)
      else match find_sep c r with
           | Some (x, y) => Some (String a x, y)
           | None => None
           end
  end.

(** [c in s] for a one-character [c]. *)
Definition contains (c : ascii) (s : string) : bool :=
  match find_sep c s with Some _ => true | None => false end.

(** [s.split(c, maxsplit)] for a one-character separator. *)
Fixpoint split (c : ascii) (s : string) (maxsplit : nat) : list string :=
  match maxsplit with
  | O => [s]
  | S n =>
      match find_sep c s with
      | None => [s]
      | Some (x, y) => x :: split c y n
      end
  end.

(** [s.split(c)]: no bound on the number of splits (a string has fewer
    separators than characters). *)
Definition split_all (c : ascii) (s : string) : list string :=
  split c s (String.length s).

(** [sep.join(l)]. *)
Fixpoint join (sep : string) (l : list string) : string :=
  match l with
  | [] => EmptyString
  | [x] => x
  | x :: r => x +:+ sep +:+ join sep r
  end.

(** [s[-1]] as a one-character string and [s[:-1]], for a non-empty [s]. *)
Fixpoint last_char (s : string) : string :=
  match s with
  | EmptyString => EmptyString
  | String c EmptyString => String c EmptyString
  | String _ r => last_char r
  end.

Fixpoint but_last (s : string) : string :=
  match s with
  | EmptyString => EmptyString
  | String _ EmptyString => EmptyString
  | String c r => String c (but_last r)
  end.

(** [str(n)] for an integer: decimal digits, a leading minus sign for a
    negative number. *)
Definition str (z : Z) : string := NilEmpty.string_of_int (Z.to_int z).

(** The digits of an integer literal: at least one, all decimal. *)
Definition digits (s : string) : option Z :=
  match s with
  | EmptyString => None
  | _ => Z.of_uint <$> NilEmpty.uint_of_string s
  end.

(** [int(s)] in base 10: surrounding whitespace is ignored, the literal may
    carry one sign directly before its digits.  [None] stands for the
    [ValueError] Python raises. *)
Definition int (s : string) : option Z :=
  match strip s with
  | String "+" r => digits r
  | String "-" r => Z.opp <$> digits r
  | r => digits r
  end.

Definition DQUOTE : ascii := ascii_of_nat 34.

Definition hex_digit (n : nat) : ascii :=
  if Nat.ltb n 10 then ascii_of_nat (48 + n) else ascii_of_nat (87 + n).

(** One character of [repr(s)] inside the chosen quote. *)
Definition repr_char (quote c : ascii) : string :=
  let n := nat_of_ascii c in
  if (Ascii.eqb c quote || Ascii.eqb c "\")%bool then String "\" (String c EmptyString)
  else if Nat.eqb n 9 then "\t"
  else if Nat.eqb n 10 then "\n"
  else if Nat.eqb n 13 then "\r"
  else if (Nat.ltb n 32 || Nat.leb 127 n)%bool then
    String "\" (String "x" (String (hex_digit (n / 16)) (String (hex_digit (n mod 16)) EmptyString)))
  else String c EmptyString.

Fixpoint repr_body (quote : ascii) (s : string) : string :=
  match s with
  | EmptyString => EmptyString
  | String c r => repr_char quote c +:+ repr_body quote r
  end.

(** [repr(s)] of a Python 2 [str]: single quotes, unless the text holds a
    single quote and no double quote. *)
Definition repr (s : string) : string :=
  let quote : ascii :=
    if (contains "'" s && negb (contains DQUOTE s))%bool then DQUOTE else "'"%char in
  String quote (repr_body quote s) +:+ String quote EmptyString.

(** [repr(l)] of a list of [str] (what ["%s" % l] renders). *)
Definition repr_list (l : list string) : string :=
  "[" +:+ join ", " (map repr l) +:+ "]".

End PyStr.

Definition TAB : ascii := ascii_of_nat 9.
Definition TABS : string := String TAB EmptyString.
Definition NL : ascii := ascii_of_nat 10.


(* ===================================================================== *)
(** ** Exceptions and the state-and-exception monad *)
(* ===================================================================== *)

(** The exceptions the program raises or lets through, each with the text
    [str(err)] renders.  [SystemExit] is not an [Exception] subclass. *)
Inductive Exn : Type :=
  | ArgumentError (msg : string)
  | ValueError (msg : string)
  | NameError (msg : string)
  | IOError (msg : string)
  | SystemExit (code : Z).

Definition exn_str (e : Exn) : string :=
  match e with
  | ArgumentError m | ValueError m | NameError m | IOError m => m
  | SystemExit c => PyStr.str c
  end.

(** What [except Exception] catches. *)
Definition is_Exception (e : Exn) : bool :=
  match e with SystemExit _ => false | _ => true end.

Inductive result (A : Type) : Type :=
  | Ok (a : A)
  | Raised (e : Exn).
Arguments Ok {A} a.
Arguments Raised {A} e.

(** A computation over a state [St]: its outcome and the state reached. *)
Definition M (St A : Type) : Type := St -> result A * St.

Definition ret {St A} (a : A) : M St A := fun s => (Ok a, s).
Definition raise {St A} (e : Exn) : M St A := fun s => (Raised e, s).
Definition bind {St A B} (m : M St A) (k : A -> M St B) : M St B :=
  fun s => match m s with
           | (Ok a, s') => k a s'
           | (Raised e, s') => (Raised e, s')
           end.
Definition get {St} : M St St := fun s => (Ok s, s).
Definition modify {St} (f : St -> St) : M St unit := fun s => (Ok tt, f s).
Definition lift_result {St A} (r : result A) : M St A := fun s => (r, s).

Declare Scope py_scope.
Delimit Scope py_scope with py.
Notation "x <- m ;; k" := (bind m (fun x => k))
  (at level 100, m at next level, right associativity) : py_scope.
Notation "m ;;; k" := (bind m (fun _ => k))
  (at level 100, right associativity) : py_scope.
Local Open Scope py_scope.

(** [try: m  except ValueError: h]. *)
Definition try_except_ValueError {St A} (m : M St A) (h : M St A) : M St A :=
  fun s => match m s with
           | (Raised (ValueError _), s') => h s'
           | r => r
           end.

(** [try: m  except Exception, err: h err]. *)
Definition try_except_Exception {St A} (m : M St A) (h : Exn -> M St A) : M St A :=
  fun s => match m s with
           | (Raised e, s') => if is_Exception e then h e s' else (Raised e, s')
           | r => r
           end.

(** Python truthiness of a [str]-or-[None] value. *)
Definition truthy (o : option string) : bool :=
  match o with
  | Some (String _ _) => true
  | _ => false
  end.

(* ===================================================================== *)
(** ** mock.py: MockRedis *)
(* ===================================================================== *)

(** [self.data]: the program only ever creates hashes under a key (through
    [hset] and [hincrby]), so a key maps to a hash, and every value of a
    hash has gone through [encode], so it is a [str]. *)
Abbreviation Hash := (gmap string string).
Abbreviation Store := (gmap string (gmap string string)).

Module MockRedis.

Definition delete (key : string) : M Store bool := fun s =>
  match s !! key with
  | Some _ => (Ok true, base.delete key s)
  | None => (Ok false, s)
  end.

Definition hget (key hkey : string) : M Store (option string) := fun s =>
  match s !! key with
  | Some h => (Ok (h !! hkey), s)
  | None => (Ok None, s)
  end.

(** [int(self.data[key][hkey])] raises before anything is assigned when the
    stored text is no integer; a missing key or field starts from 0. *)
Definition hincrby (key hkey : string) (val : Z) : M Store Z := fun s =>
  let h := default ∅ (s !! key) in
  match h !! hkey with
  | None => (Ok (0 + val), <[key := <[hkey := PyStr.str (0 + val)]> h]> s)
  | Some v =>
      match PyStr.int v with
      | Some n => (Ok (n + val), <[key := <[hkey := PyStr.str (n + val)]> h]> s)
      | None =>
          (Raised (ValueError ("invalid literal for int() with base 10: " +:+ PyStr.repr v)), s)
      end
  end.

Definition hgetall (key : string) : M Store Hash := fun s =>
  (Ok (default ∅ (s !! key)), s).

Definition hdel (key hkey : string) : M Store bool := fun s =>
  match s !! key with
  | Some h =>
      match h !! hkey with
      | Some _ => (Ok true, <[key := base.delete hkey h]> s)
      | None => (Ok true, s)
      end
  | None => (Ok true, s)
  end.

Definition hset (key hkey val : string) : M Store bool := fun s =>
  (Ok true, <[key := <[hkey := val]> (default ∅ (s !! key))]> s).

End MockRedis.

(* ===================================================================== *)
(** ** pdns_redis.py: QueryOp, DeleteOp, AddOp *)
(* ===================================================================== *)

Definition VALID_RECORDS : list string :=
  ["A"; "AAAA"; "NS"; "MX"; "CNAME"; "SOA"; "TXT"].

Definition TTL_SUFFIXES : list (string * Z) :=
  [("M", 60); ("H", 60 * 60); ("D", 60 * 60 * 24); ("W", 60 * 60 * 24 * 7)].

(** [TTL_SUFFIXES[k]], [None] when [k not in TTL_SUFFIXES]. *)
Fixpoint dict_get (k : string) (d : list (string * Z)) : option Z :=
  match d with
  | [] => None
  | (k', v) :: r => if String.eqb k k' then Some v else dict_get k r
  end.

Definition MAGIC_SELF_IP : string := "self".
Definition REDIS_PREFIX : string := "pdns.".

(** The reserved query-counter field, ['TXT\tQC']. *)
Definition QC_FIELD : string := "TXT" +:+ TABS +:+ "QC".

(** The attributes [QueryOp.__init__] sets.  The backend handle
    ([redis_pdns], selected by [BE()] for queries and [WBE()] for writes) is
    the state the operations below run on. *)
Record QueryOp : Type := mkQueryOp {
  domain : string;
  record : option string;
  data : option string
}.

(** One element of a query result: (domain, record type, ttl, data). *)
Definition Rec : Type := string * string * string * string.

Definition rec_domain (r : Rec) : string := r.1.1.1.
Definition rec_type (r : Rec) : string := r.1.1.2.
Definition rec_ttl (r : Rec) : string := r.1.2.
Definition rec_data (r : Rec) : string := r.2.

(** The text of a value known to be a [str]. *)
Definition text (o : option string) : string := default EmptyString o.

(** [a or b]. *)
Definition py_or (a : option string) (b : string) : string :=
  if truthy a then text a else b.

Definition QueryOp_init (dom rtype dat : option string) : result QueryOp :=
  if negb (truthy dom) then Raised (ArgumentError "Domain is a required parameter.")
  else Ok {| domain := PyStr.lower (text dom);
             record := if truthy rtype then Some (PyStr.upper (text rtype)) else None;
             data := dat |}.

(** [a, b = l]: unpacking a list into two names. *)
Definition unpack2 (l : list string) : result (string * string) :=
  match l with
  | [a; b] => Ok (a, b)
  | [] => Raised (ValueError "need more than 0 values to unpack")
  | [_] => Raised (ValueError "need more than 1 value to unpack")
  | _ => Raised (ValueError "too many values to unpack")
  end.

Definition DSplit (dom : string) (count : nat) : list string :=
  PyStr.split "." dom count.

(** The test of the [for entry in ddata] loop that [Query] takes: on the
    record type when [self.record] is set, else on the data when
    [self.data] is set, else none. *)
Definition Query_keep (self : QueryOp) (rtype rdata : string) : bool :=
  if truthy (record self) then String.eqb rtype (text (record self))
  else if truthy (data self) then String.eqb rdata (text (data self))
  else true.

(** The loop itself, over the entries of the hash. *)
Fixpoint Query_scan (self : QueryOp) (entries : list (string * string))
    : result (list Rec) :=
  match entries with
  | [] => Ok []
  | (entry, ttl) :: rest =>
      match unpack2 (PyStr.split TAB entry 1) with
      | Raised e => Raised e
      | Ok (rtype, rdata) =>
          match Query_scan self rest with
          | Raised e => Raised e
          | Ok rv =>
              Ok (if Query_keep self rtype rdata
                  then (domain self, rtype, ttl, rdata) :: rv else rv)
          end
      end
  end.

(** The body of [Query], with the method it calls on a miss when
    [wildcards] is set as a parameter. *)
Definition Query_with (WildQuery : string -> M Store (list Rec))
    (self : QueryOp) (dom : option string) (wildcards : bool) : M Store (list Rec) :=
  let pdns_key := REDIS_PREFIX +:+ py_or dom (domain self) in
  if (truthy (record self) && truthy (data self))%bool then
    let key := PyStr.join TABS [text (record self); text (data self)] in
    ttl <- MockRedis.hget pdns_key key ;;
    match ttl with
    | Some ttl =>
        MockRedis.hincrby pdns_key QC_FIELD 1 ;;;
        ret [(domain self, text (record self), ttl, text (data self))]
    | None =>
        if wildcards then WildQuery (py_or dom (domain self)) else ret []
    end
  else
    ddata <- MockRedis.hgetall pdns_key ;;
    rv <- lift_result (Query_scan self (map_to_list ddata)) ;;
    match rv with
    | _ :: _ => MockRedis.hincrby pdns_key QC_FIELD 1 ;;; ret rv
    | [] => if wildcards then WildQuery (py_or dom (domain self)) else ret []
    end.

(** [Query(domain=dom)], i.e. with [wildcards=False]: [WildQuery] is not
    reached. *)
Definition Query_nowild (self : QueryOp) (dom : option string) : M Store (list Rec) :=
  Query_with (fun _ => ret []) self dom false.

Definition WildQuery (self : QueryOp) (dom : string) : M Store (list Rec) :=
  try_except_ValueError
    (p <- lift_result (unpack2 (DSplit dom 1)) ;;
     p <- (if String.eqb p.1 "*" then lift_result (unpack2 (DSplit p.2 1)) else ret p) ;;
     Query_nowild self (Some ("*." +:+ p.2)))
    (ret []).

Definition Query (self : QueryOp) (dom : option string) (wildcards : bool)
    : M Store (list Rec) :=
  Query_with (WildQuery self) self dom wildcards.

(** [deleted += self.BE().hdel(...)] for each record of the query result. *)
Fixpoint DeleteOp_loop (self : QueryOp) (records : list Rec) (deleted : Z) : M Store Z :=
  match records with
  | [] => ret deleted
  | r :: rest =>
      b <- MockRedis.hdel (REDIS_PREFIX +:+ domain self)
             (PyStr.join TABS [rec_type r; rec_data r]) ;;
      DeleteOp_loop self rest (deleted + Z.b2z b)
  end.

Definition DeleteOp_Run (self : QueryOp) : M Store string :=
  if (negb (truthy (record self)) && negb (truthy (data self)))%bool then
    MockRedis.delete (REDIS_PREFIX +:+ domain self) ;;;
    ret ("Deleted all records for " +:+ domain self +:+ ".")
  else
    deleted <- (if (truthy (record self) && truthy (data self))%bool then
                  b <- MockRedis.hdel (REDIS_PREFIX +:+ domain self)
                         (PyStr.join TABS [text (record self); text (data self)]) ;;
                  ret (0 + Z.b2z b)
                else
                  records <- Query self None false ;;
                  DeleteOp_loop self records 0) ;;
    ret ("Deleted " +:+ PyStr.str deleted +:+ " records from " +:+ domain self +:+ ".").

Record AddOp : Type := mkAddOp {
  add_query : QueryOp;
  ttl : string
}.

(** [int(s)], raising as Python does. *)
Definition int_or_raise (s : string) : result Z :=
  match PyStr.int s with
  | Some n => Ok n
  | None => Raised (ValueError ("invalid literal for int() with base 10: " +:+ PyStr.repr s))
  end.

(** The TTL decoding at the end of [AddOp.__init__]: the number of seconds
    whose [str] becomes [self.ttl]. *)
Definition AddOp_seconds (spec : string) : result Z :=
  match (if truthy (Some spec)
         then dict_get (PyStr.upper (PyStr.last_char spec)) TTL_SUFFIXES
         else None) with
  | Some mult =>
      match int_or_raise (PyStr.but_last spec) with
      | Ok n => Ok (n * mult)
      | Raised e => Raised e
      end
  | None => int_or_raise spec
  end.

Definition AddOp_init (dom rtype dat : option string) (spec : string) : result AddOp :=
  match QueryOp_init dom rtype dat with
  | Raised e => Raised e
  | Ok q =>
      if negb (bool_decide (record q ∈ Some <$> VALID_RECORDS)) then
        Raised (ArgumentError ("Invalid record type: " +:+ default "None" (record q)))
      else if negb (truthy (data q)) then
        Raised (ArgumentError "Cannot add empty records.")
      else
        match AddOp_seconds spec with
        | Raised e => Raised e
        | Ok n => Ok {| add_query := q; ttl := PyStr.str n |}
        end
  end.

Definition AddOp_Run (self : AddOp) : M Store string :=
  let q := add_query self in
  MockRedis.hset (REDIS_PREFIX +:+ domain q)
    (PyStr.join TABS [text (record q); text (data q)]) (ttl self) ;;;
  ret ("Added " +:+ text (record q) +:+ " record to " +:+ domain q +:+ ".").

(* ===================================================================== *)
(** ** pdns_redis.py: PdnsChatter *)
(* ===================================================================== *)

Definition BANNER : string := "pdns-redis.py, by Bjarni R. Einarsson".
Definition MAGIC_TEST_VALIDITY : Z := 60.

(** What the chatter asks of the outside world: the clock ([time.time()],
    in seconds), the text behind a URL ([None] when [urlopen] raises), the
    address [getaddrinfo(gethostname())] yields and the one
    [SlowGetOwnIp]'s socket reports ([None] when the call raises). *)
Record Env : Type := mkEnv {
  clock : Z;
  urlopen : string -> option string;
  host_addr : option string;
  sock_addr : option string
}.

(** One entry of [self.magic_tests]: the keys ['time'] and ['ok'] of the
    dict, each possibly missing. *)
Record MagicResult : Type := mkMagicResult {
  mt_time : option Z;
  mt_ok : option bool
}.

(** The attributes of a [PdnsChatter]; [redis] is the backend [BE()]
    returns and [outfile] the lines written so far (each [reply] writes its
    text and a newline). *)
Record Chatter : Type := mkChatter {
  redis : Store;
  local_ip : option string;
  magic_tests : gmap string MagicResult;
  wildcards : bool;
  log_buffer : list string;
  outfile : list string
}.

Definition set_redis (s : Store) (c : Chatter) : Chatter :=
  mkChatter s (local_ip c) (magic_tests c) (wildcards c) (log_buffer c) (outfile c).
Definition set_local_ip (v : option string) (c : Chatter) : Chatter :=
  mkChatter (redis c) v (magic_tests c) (wildcards c) (log_buffer c) (outfile c).
Definition set_magic_tests (m : gmap string MagicResult) (c : Chatter) : Chatter :=
  mkChatter (redis c) (local_ip c) m (wildcards c) (log_buffer c) (outfile c).
Definition set_log_buffer (l : list string) (c : Chatter) : Chatter :=
  mkChatter (redis c) (local_ip c) (magic_tests c) (wildcards c) l (outfile c).
Definition set_outfile (l : list string) (c : Chatter) : Chatter :=
  mkChatter (redis c) (local_ip c) (magic_tests c) (wildcards c) (log_buffer c) l.

(** Running a backend operation on the chatter's backend. *)
Definition on_redis {A} (m : M Store A) : M Chatter A := fun c =>
  match m (redis c) with
  | (r, s') => (r, set_redis s' c)
  end.

Definition reply (line : string) : M Chatter unit :=
  modify (fun c => set_outfile (outfile c ++ [line]) c).

(** ['DATA\t%s\tIN\t%s\t%s\t-1\t%s' % (d1, d2, d3, d4)]. *)
Definition DATA_line (d1 d2 d3 d4 : string) : string :=
  "DATA" +:+ TABS +:+ d1 +:+ TABS +:+ "IN" +:+ TABS +:+ d2 +:+ TABS +:+ d3
    +:+ TABS +:+ "-1" +:+ TABS +:+ d4.

Definition LOG_line (message : string) : string := "LOG" +:+ TABS +:+ message.

Definition SendMxOrSrv (d1 d2 d3 d4 : string) : M Chatter unit :=
  reply (DATA_line d1 d2 d3 d4).

Definition MagicTest (env : Env) (want url : string) : M Chatter unit :=
  let now := clock env in
  c <- get ;;
  let result := default (mkMagicResult None None) (magic_tests c !! url) in
  let result :=
    if default 0 (mt_time result) <? now - MAGIC_TEST_VALIDITY then
      mkMagicResult (Some now)
        (Some (match urlopen env url with
               | Some tdata => PyStr.startswith tdata want
               | None => false
               end))
    else result in
  modify (set_magic_tests (<[url := result]> (magic_tests c))) ;;;
  if negb (default false (mt_ok result)) then
    raise (ValueError ("Failed self-test " +:+ want +:+ " != " +:+ url))
  else ret tt.

(** [magic, test_want, test_url = l]. *)
Definition unpack3 (l : list string) : result (string * string * string) :=
  match l with
  | [a; b; c] => Ok (a, b, c)
  | [] => Raised (ValueError "need more than 0 values to unpack")
  | [_] => Raised (ValueError "need more than 1 value to unpack")
  | [_; _] => Raised (ValueError "need more than 2 values to unpack")
  | _ => Raised (ValueError "too many values to unpack")
  end.

(** Evaluating the name [want] inside [SendRecord]: it is bound neither
    there (the unpacked name is [test_want]) nor at module level. *)
Definition load_name_want : result string :=
  Raised (NameError "global name 'want' is not defined").

Definition SendRecord (env : Env) (r : Rec) : M Chatter unit :=
  if PyStr.startswith (rec_data r) MAGIC_SELF_IP then
    (if PyStr.contains ":" (rec_data r) then
       p <- lift_result (unpack3 (PyStr.split ":" (rec_data r) 2)) ;;
       let test_url := p.2 in
       want <- lift_result load_name_want ;;
       MagicTest env want test_url
     else ret tt) ;;;
    c <- get ;;
    if negb (truthy (local_ip c)) then raise (ValueError "Local IP address is unknown")
    else reply (DATA_line (rec_domain r) (rec_type r) (rec_ttl r) (text (local_ip c)))
  else
    reply (DATA_line (rec_domain r) (rec_type r) (rec_ttl r) (rec_data r)).

Definition FlushLogBuffer : M Chatter unit :=
  modify (fun c =>
    set_outfile (outfile c ++ map LOG_line (log_buffer c)) (set_log_buffer [] c)).

Definition SendLog (message : string) : M Chatter unit :=
  modify (fun c => set_log_buffer (log_buffer c ++ [message]) c).

Definition EndReply : M Chatter unit :=
  FlushLogBuffer ;;; reply "END".

Definition SetLocalIp (value : string) : M Chatter unit :=
  if negb (String.eqb value "0.0.0.0"
           || PyStr.startswith value "127."
           || PyStr.startswith value "192.168."
           || PyStr.startswith value "10.")%bool
  then modify (set_local_ip (Some value))
  else ret tt.

(** [try: ... self.SetLocalIp(addr) ... except: pass], [addr] being [None]
    when the socket call raised. *)
Definition SetLocalIp_try (addr : option string) : M Chatter unit :=
  match addr with
  | Some a => SetLocalIp a
  | None => ret tt
  end.

Definition SlowGetOwnIp (env : Env) : M Chatter unit :=
  SetLocalIp_try (sock_addr env).

(** [SRV_SPLIT.split(s, 1)] for [SRV_SPLIT = re.compile('[\\s,]+')]: the
    text before the first run of whitespace or commas and the text after
    that run, or the text alone when there is no such run. *)
Definition is_srv_sep (c : ascii) : bool := (PyStr.is_space c || Ascii.eqb c ",")%bool.

Fixpoint drop_srv_sep (s : string) : string :=
  match s with
  | EmptyString => EmptyString
  | String c r => if is_srv_sep c then drop_srv_sep r else s
  end.

Fixpoint SRV_SPLIT_split1 (s : string) : list string :=
  match s with
  | EmptyString => [EmptyString]
  | String c r =>
      if is_srv_sep c then [EmptyString; drop_srv_sep r]
      else match SRV_SPLIT_split1 r with
           | x :: l => String c x :: l
           | [] => []
           end
  end.

(** The body of [for record in records] in [Lookup]. *)
Definition Lookup_record (env : Env) (r : Rec) : M Chatter unit :=
  if bool_decide (rec_type r ∈ ["MX"; "SRV"]) then
    let data := PyStr.join TABS (SRV_SPLIT_split1 (rec_data r)) in
    SendMxOrSrv (rec_domain r) (rec_type r) (rec_ttl r) data
  else if (negb (String.eqb (rec_type r) "TXT") || negb (String.eqb (rec_data r) "QC"))%bool then
    SendRecord env r
  else ret tt.

Fixpoint Lookup_records (env : Env) (records : list Rec) : M Chatter unit :=
  match records with
  | [] => ret tt
  | r :: rest => Lookup_record env r ;;; Lookup_records env rest
  end.

(** The local-address discovery at the head of [Lookup]. *)
Definition Lookup_local_ip (env : Env) (local_ip_ : string) : M Chatter unit :=
  c <- get ;;
  if negb (truthy (local_ip c)) then
    SetLocalIp local_ip_ ;;;
    c <- get ;;
    if negb (truthy (local_ip c)) then SetLocalIp_try (host_addr env) else ret tt
  else ret tt.

Definition Lookup (env : Env) (query : list string) : M Chatter unit :=
  match query with
  | [pdns_qtype; dom; qclass; rtype; _id; remote_ip; local_ip_] =>
      Lookup_local_ip env local_ip_ ;;;
      if String.eqb pdns_qtype "Q" then
        records <-
          (if negb (truthy (Some dom)) then ret []
           else if String.eqb rtype "ANY" then
             q <- lift_result (QueryOp_init (Some dom) None None) ;;
             c <- get ;;
             on_redis (Query q None (wildcards c))
           else
             q <- lift_result (QueryOp_init (Some dom) (Some rtype) None) ;;
             c <- get ;;
             on_redis (Query q None (wildcards c))) ;;
        Lookup_records env records ;;;
        EndReply
      else
        SendLog ("PowerDNS requested " +:+ pdns_qtype +:+ ", we only do Q.") ;;;
        FlushLogBuffer ;;;
        reply "FAIL"
  | _ =>
      raise (ValueError
               (if (length query <? 7)%nat
                then "need more than " +:+ PyStr.str (Z.of_nat (length query)) +:+ " values to unpack"
                else "too many values to unpack"))
  end.

(** [self.readline()] on the lines the input still holds: [readline()] of
    the file gives the empty text at its end, which raises. *)
Definition readline (infile : list string) : result string * list string :=
  match infile with
  | [] => (Raised (IOError "EOF"), [])
  | line :: rest =>
      if (String.length line =? 0)%nat then (Raised (IOError "EOF"), rest)
      else (Ok (PyStr.strip line), rest)
  end.

(** The body of [while 1] after its [readline]. *)
Definition Run_request (env : Env) (line : string) : M Chatter unit :=
  try_except_Exception
    (let query := PyStr.split_all TAB line in
     if (length query =? 7)%nat then Lookup env query
     else
       FlushLogBuffer ;;;
       reply (LOG_line ("PowerDNS sent bad request: " +:+ PyStr.repr_list query)) ;;;
       reply "FAIL")
    (fun err =>
       FlushLogBuffer ;;;
       reply (LOG_line ("Internal Error: " +:+ exn_str err)) ;;;
       reply "FAIL").

(** [while 1: ...]: the loop is left only by an exception, which is what
    it returns, with the chatter as it then is. *)
Fixpoint Run_loop (env : Env) (infile : list string) (c : Chatter) : Exn * Chatter :=
  match infile with
  | [] => (IOError "EOF", c)
  | line :: rest =>
      match readline infile with
      | (Raised e, _) => (e, c)
      | (Ok line', _) =>
          match Run_request env line' c with
          | (Ok _, c') => Run_loop env rest c'
          | (Raised e, c') => (e, c')
          end
      end
  end.

Definition Run (env : Env) (infile : list string) (c : Chatter) : Exn * Chatter :=
  match readline infile with
  | (Raised e, _) => (e, c)
  | (Ok line1, infile) =>
      if negb (String.eqb line1 ("HELO" +:+ TABS +:+ "2")) then
        match reply "FAIL" c with
        | (_, c) =>
            match readline infile with
            | (Raised e, _) => (e, c)
            | (Ok _, _) => (SystemExit 1, c)
            end
        end
      else
        match (reply ("OK" +:+ TABS +:+ BANNER) ;;;
               c <- get ;;
               if negb (truthy (local_ip c)) then SlowGetOwnIp env else ret tt) c with
        | (Raised e, c) => (e, c)
        | (Ok _, c) => Run_loop env infile c
        end
  end.

(** A chatter as [__init__] leaves it, on a given backend. *)
Definition PdnsChatter_init (s : Store) (wild : bool) : Chatter :=
  mkChatter s None ∅ wild [] [].

(* ===================================================================== *)
(** ** Well-formed stores and the vocabulary of the statements *)
(* ===================================================================== *)

(** The storage layout: every field of a hash is [<TYPE>\t<DATA>] and every
    value is the decimal text of an integer (a TTL, or the query count). *)
Definition field_ok (entry value : string) : Prop :=
  PyStr.contains TAB entry = true ∧ is_Some (PyStr.int value).

#[global] Instance field_ok_dec (entry value : string) : Decision (field_ok entry value).
Proof. unfold field_ok. apply _. Defined.

Definition hash_wf (h : Hash) : Prop := map_Forall field_ok h.

#[global] Instance hash_wf_dec (h : Hash) : Decision (hash_wf h).
Proof. unfold hash_wf. apply _. Defined.

Definition store_wf (s : Store) : Prop := map_Forall (fun _ h => hash_wf h) s.

#[global] Instance store_wf_dec (s : Store) : Decision (store_wf s).
Proof. unfold store_wf. apply _. Defined.

(** The hash [hgetall] sees under a key. *)
Definition hash_at (key : string) (s : Store) : Hash := default ∅ (s !! key).

(** The query count a hash holds: 0 while the reserved field is missing. *)
Definition counter_of (h : Hash) : option Z :=
  match h !! QC_FIELD with
  | None => Some 0
  | Some v => PyStr.int v
  end.

(** [s'] is [s] with the query counter under [key] incremented by one, and
    nothing else changed. *)
Definition counted_once (key : string) (s s' : Store) : Prop :=
  ∃ n : Z, counter_of (hash_at key s) = Some n
           ∧ s' = <[key := <[QC_FIELD := PyStr.str (n + 1)]> (hash_at key s)]> s
           ∧ counter_of (hash_at key s') = Some (n + 1).

(** The type and data a field name decodes to. *)
Definition decode_field (entry : string) : option (string * string) :=
  PyStr.find_sep TAB entry.

(** A field is selected by the filters of a query: every filter that is set
    agrees with the decoded field. *)
Definition selects (q : QueryOp) (rtype rdata : string) : bool :=
  ((if truthy (record q) then String.eqb rtype (text (record q)) else true)
   && (if truthy (data q) then String.eqb rdata (text (data q)) else true))%bool.

(** What the main loop does with a request it cannot serve: flush the
    buffered log lines, one more log line, a failure line. *)
Definition failure_reply (message : string) (c : Chatter) : Chatter :=
  set_outfile (outfile c ++ map LOG_line (log_buffer c) ++ [LOG_line message; "FAIL"])
    (set_log_buffer [] c).

(** What [Query] finds in the hash under its key, before it counts the
    query or falls back: the direct lookup when both filters are set, the
    scan of all fields otherwise. *)
Definition Query_found (q : QueryOp) (h : Hash) : result (list Rec) :=
  if (truthy (record q) && truthy (data q))%bool then
    match h !! PyStr.join TABS [text (record q); text (data q)] with
    | Some ttl => Ok [(domain q, text (record q), ttl, text (data q))]
    | None => Ok []
    end
  else Query_scan q (map_to_list h).

(** Every character of a text is a decimal digit. *)
Fixpoint all_digits (s : string) : bool :=
  match s with
  | EmptyString => true
  | String c r =>
      (Nat.leb 48 (nat_of_ascii c) && Nat.leb (nat_of_ascii c) 57 && all_digits r)%bool
  end.

Definition mk_store (l : list (string * list (string * string))) : Store :=
  list_to_map (map (fun p => (p.1, list_to_map p.2)) l).

(** The suffix table in the words of the specification: the trailing
    characters M, H, D, W in either case and their multipliers. *)
Definition suffix_table : list (ascii * Z) :=
  [("M", 60); ("m", 60); ("H", 3600); ("h", 3600);
   ("D", 86400); ("d", 86400); ("W", 604800); ("w", 604800)]%char.

Fixpoint suffix_lookup (c : ascii) (tbl : list (ascii * Z)) : option Z :=
  match tbl with
  | [] => None
  | (c', m) :: r => if Ascii.eqb c c' then Some m else suffix_lookup c r
  end.

(** The multiplier of a TTL specification: that of its trailing character,
    if it has one and the table lists it. *)
Definition ttl_multiplier (spec : string) : option Z :=
  match PyStr.last_char spec with
  | String c _ => suffix_lookup c suffix_table
  | EmptyString => None
  end.

(** The numeric portion of a TTL specification: what is left of it without
    its suffix. *)
Definition numeric_portion (spec : string) : string :=
  match ttl_multiplier spec with
  | Some _ => PyStr.but_last spec
  | None => spec
  end.

(** The field name [DeleteOp] passes to [hdel] for a record. *)
Definition rec_field (r : Rec) : string := PyStr.join TABS [rec_type r; rec_data r].

(** A field of a hash that the filters of a query select. *)
Definition field_selected (q : QueryOp) (h : Hash) (entry : string) : Prop :=
  ∃ v rt rd, h !! entry = Some v ∧ decode_field entry = Some (rt, rd)
             ∧ selects q rt rd = true.

(** A computation that raises nothing but what [except Exception]
    catches. *)
Definition only_Exception {St A : Type} (m : M St A) : Prop :=
  ∀ c e c', m c = (Raised e, c') → is_Exception e = true.

(** The reserved record the protocol never emits. *)
Definition is_counter_record (r : Rec) : bool :=
  (String.eqb (rec_type r) "TXT" && String.eqb (rec_data r) "QC")%bool.

(** *** Stores of the examples *)

(** Nothing under foo.bar.com, one record under the wildcard of bar.com. *)
Definition wild_store : Store :=
  mk_store [("pdns.*.bar.com", [("A" +:+ TABS +:+ "10.1.2.3", "300")])].

(** A domain with one address record and a query count of 3. *)
Definition counted_store : Store :=
  mk_store [("pdns.a.com", [("A" +:+ TABS +:+ "10.1.2.3", "300"); (QC_FIELD, "3")])].

(** A domain with a TXT record and a query count of 3. *)
Definition txt_store : Store :=
  mk_store [("pdns.a.com", [("TXT" +:+ TABS +:+ "hello", "60"); (QC_FIELD, "3")])].

(** A record whose data carries the self marker with an embedded
    self-test ([self:<expected-prefix>:<url>]), a world in which the probe
    would answer with the expected text, and a chatter that knows its local
    address. *)
Definition self_store : Store :=
  mk_store [("pdns.self.example.com",
             [("A" +:+ TABS +:+ "self:OK:http://probe.example/", "300")])].

Definition probe_env : Env := mkEnv 1000 (λ _, Some "OK") None None.

Definition self_chatter : Chatter :=
  set_local_ip (Some "5.6.7.8") (PdnsChatter_init self_store false).

(** A request line as PowerDNS writes it. *)
Definition request (fields : list string) : string :=
  PyStr.join TABS fields +:+ String NL EmptyString.

(** Records only under the wildcard of c.d. *)
Definition deep_store : Store :=
  mk_store [("pdns.*.c.d", [("A" +:+ TABS +:+ "10.1.2.3", "300")])].

(** *** Vocabulary of the further properties *)

(** The stores the administrative operations reach from the empty store. *)
Inductive reachable : Store → Prop :=
  | reach_empty : reachable ∅
  | reach_add (s : Store) (dom rtype dat : option string) (spec : string) (a : AddOp) :
      reachable s → AddOp_init dom rtype dat spec = Ok a → reachable (AddOp_Run a s).2
  | reach_query (s : Store) (q : QueryOp) (dom : option string) (w : bool) :
      reachable s → reachable (Query q dom w s).2
  | reach_delete (s : Store) (q : QueryOp) :
      reachable s → reachable (DeleteOp_Run q s).2.

(** [k] successive calls of the same query, each with the same
    [wildcards] flag. *)
Fixpoint repeat_query (q : QueryOp) (w : bool) (k : nat) (s : Store) : Store :=
  match k with
  | O => s
  | S k' => repeat_query q w k' (Query q None w s).2
  end.

(** The key [WildQuery] looks under for a domain: the wildcard of what
    follows the first label, after one more label when the first is the
    marker itself; none when there is no label left to drop. *)
Definition wildcard_key (dom : string) : option string :=
  match PyStr.find_sep "." dom with
  | None => None
  | Some (sub, dom') =>
      match (if String.eqb sub "*" then PyStr.find_sep "." dom' else Some (sub, dom')) with
      | None => None
      | Some (_, dom'') => Some (REDIS_PREFIX +:+ "*." +:+ dom'')
      end
  end.

(** The key of a query's domain and the field its two filters name. *)
Definition key_of (q : QueryOp) : string := REDIS_PREFIX +:+ domain q.
Definition field_of (q : QueryOp) : string :=
  PyStr.join TABS [text (record q); text (data q)].

(** The key a query is served under: its own key when the hash there holds
    fields its filters select; else, with the [wildcards] flag set, the
    wildcard key of its domain when the hash there holds such fields. *)
Definition served_under (q : QueryOp) (w : bool) (key : string) (s : Store) : Prop :=
  (key = key_of q ∧ ∃ r rv, Query_found q (hash_at (key_of q) s) = Ok (r :: rv))
  ∨ (w = true ∧ wildcard_key (domain q) = Some key
     ∧ Query_found q (hash_at (key_of q) s) = Ok []
     ∧ ∃ r rv, Query_found q (hash_at key s) = Ok (r :: rv)).

(** A relation between the chatter before and after that a computation
    respects on every run, whatever the outcome. *)
Definition respects {A : Type} (R : Chatter → Chatter → Prop) (m : M Chatter A) : Prop :=
  ∀ c r c', m c = (r, c') → R c c'.

(** The output only grows. *)
Definition output_extends (c c' : Chatter) : Prop :=
  ∃ more : list string, outfile c' = (outfile c ++ more)%list.

(** The addresses [SetLocalIp] adopts. *)
Definition adoptable (value : string) : bool :=
  negb (String.eqb value "0.0.0.0"
        || PyStr.startswith value "127."
        || PyStr.startswith value "192.168."
        || PyStr.startswith value "10.")%bool.

(** A known local address stays; an address that appears is adoptable. *)
Definition local_ip_settles (c c' : Chatter) : Prop :=
  (truthy (local_ip c) = true → local_ip c' = local_ip c)
  ∧ (local_ip c' = local_ip c
     ∨ ∃ v, local_ip c' = Some v ∧ adoptable v = true).

(** Two stores that differ at most in their query counters. *)
Definition same_records (s s' : Store) : Prop :=
  ∀ key entry : string, entry ≠ QC_FIELD →
    hash_at key s' !! entry = hash_at key s !! entry.

(** The chatter has not touched its self-test cache, its wildcard flag or
    any record of its backend. *)
Definition serves_read_only (c c' : Chatter) : Prop :=
  magic_tests c' = magic_tests c
  ∧ wildcards c' = wildcards c
  ∧ same_records (redis c) (redis c').

(** The query [Lookup] makes for a domain and a requested type. *)
Definition request_query (dm rtype : string) : result QueryOp :=
  if String.eqb rtype "ANY" then QueryOp_init (Some dm) None None
  else QueryOp_init (Some dm) (Some rtype) None.

(** A record whose data asks for a self-test: the self marker and a colon,
    on a record that is neither MX nor SRV. *)
Definition has_self_test (r : Rec) : bool :=
  (negb (bool_decide (rec_type r ∈ ["MX"; "SRV"]))
   && PyStr.startswith (rec_data r) MAGIC_SELF_IP
   && PyStr.contains ":" (rec_data r))%bool.

(** The DATA line of a record, for a chatter whose local address is [ip]:
    priority and target apart for MX and SRV, the local address in place of
    data that begins with the self marker, the data as it is otherwise. *)
Definition reply_line (ip : string) (r : Rec) : string :=
  if bool_decide (rec_type r ∈ ["MX"; "SRV"]) then
    DATA_line (rec_domain r) (rec_type r) (rec_ttl r)
      (PyStr.join TABS (SRV_SPLIT_split1 (rec_data r)))
  else if PyStr.startswith (rec_data r) MAGIC_SELF_IP then
    DATA_line (rec_domain r) (rec_type r) (rec_ttl r) ip
  else DATA_line (rec_domain r) (rec_type r) (rec_ttl r) (rec_data r).

(** Every character of a text passes a test. *)
Fixpoint all_chars (P : ascii → bool) (s : string) : bool :=
  match s with
  | EmptyString => true
  | String c r => (P c && all_chars P r)%bool
  end.

(** A line of a reply before its terminator: a DATA line or a LOG line. *)
Definition body_line (line : string) : bool :=
  (PyStr.startswith line ("DATA" +:+ TABS) || PyStr.startswith line ("LOG" +:+ TABS))%bool.

(** The chatter has written body lines, and nothing else about its output
    or its log buffer has changed. *)
Definition wrote_body (c c' : Chatter) : Prop :=
  log_buffer c' = log_buffer c
  ∧ ∃ body : list string,
      outfile c' = (outfile c ++ body)%list ∧ Forall (λ l, body_line l = true) body.

(** Neither the output nor the log buffer has changed. *)
Definition wrote_nothing (c c' : Chatter) : Prop :=
  outfile c' = outfile c ∧ log_buffer c' = log_buffer c.

(** A text that does not begin with a separator of [SRV_SPLIT]. *)
Definition no_leading_sep (s : string) : bool :=
  match s with
  | EmptyString => true
  | String c _ => negb (is_srv_sep c)
  end.

(* ===================================================================== *)
(** ** mock.py: the scalar, set and list operations of MockRedis *)
(* ===================================================================== *)

(** The operations of [MockRedis] the program itself does not call, on all
    of [self.data]: a key holds a value, a dict or a list.  Values that
    callers pass are [str] or [int]; each operation returns its result, or
    the class of the exception it raises, and the data it leaves. *)
Module MockData.

Inductive PyVal : Type :=
  | VStr (s : string)
  | VInt (z : Z).

#[global] Instance PyVal_eq_dec : EqDecision PyVal.
Proof. solve_decision. Defined.

(** What a key holds: a value ([set], [setnx], [incr], [incrby]), a dict
    ([hset], [hincrby], [sadd]) or a list ([lpush]). *)
Inductive Entry : Type :=
  | EVal (v : PyVal)
  | EDict (d : gmap string PyVal)
  | EList (l : list PyVal).

Abbreviation Data := (gmap string Entry).

Inductive PyError : Type :=
  | PyTypeError
  | PyValueError
  | PyKeyError
  | PyIndexError
  | PyAttributeError.

Inductive outcome (A : Type) : Type :=
  | Returned (a : A)
  | Failed (e : PyError).
Arguments Returned {A} a.
Arguments Failed {A} e.

(** [self.encode(val)]. *)
Definition encode (val : PyVal) : string :=
  match val with
  | VStr s => s
  | VInt z => PyStr.str z
  end.

(** [int(val)]. *)
Definition int_of_val (val : PyVal) : outcome Z :=
  match val with
  | VStr s => match PyStr.int s with
              | Some n => Returned n
              | None => Failed PyValueError
              end
  | VInt z => Returned z
  end.

(** [int(self.data[key])]: a dict or a list is no number. *)
Definition int_of_entry (e : Entry) : outcome Z :=
  match e with
  | EVal v => int_of_val v
  | EDict _ | EList _ => Failed PyTypeError
  end.

Definition get (key : string) (d : Data) : option Entry := d !! key.

Definition set (key : string) (val : PyVal) (d : Data) : bool * Data :=
  (true, <[key := EVal (VStr (encode val))]> d).

Definition setnx (key : string) (val : PyVal) (d : Data) : option PyVal * Data :=
  match d !! key with
  | Some _ => (None, d)
  | None => (Some val, <[key := EVal (VStr (encode val))]> d)
  end.

(** [if key not in self.data: self.data[key] = 0]. *)
Definition init_zero (key : string) (d : Data) : Data :=
  match d !! key with
  | Some _ => d
  | None => <[key := EVal (VInt 0)]> d
  end.

(** [self.data[key]] after [init_zero]. *)
Definition entry_or_zero (key : string) (d : Data) : Entry :=
  default (EVal (VInt 0)) (d !! key).

(** [self.data[key] = self.encode(n); return int(self.data[key])]. *)
Definition store_count (key : string) (n : Z) (d : Data) : outcome Z * Data :=
  (int_of_val (VStr (encode (VInt n))), <[key := EVal (VStr (encode (VInt n)))]> d).

Definition incr (key : string) (d : Data) : outcome Z * Data :=
  let d1 := init_zero key d in
  match int_of_entry (entry_or_zero key d) with
  | Failed e => (Failed e, d1)
  | Returned n => store_count key (n + 1) d1
  end.

Definition incrby (key : string) (val : PyVal) (d : Data) : outcome Z * Data :=
  let d1 := init_zero key d in
  match int_of_entry (entry_or_zero key d) with
  | Failed e => (Failed e, d1)
  | Returned n =>
      match int_of_val val with
      | Failed e => (Failed e, d1)
      | Returned m => store_count key (n + m) d1
      end
  end.

Definition delete (key : string) (d : Data) : bool * Data :=
  match d !! key with
  | Some _ => (true, base.delete key d)
  | None => (false, d)
  end.

(** [self.data[key][member] = 1]: item assignment needs a dict. *)
Definition sadd (key member : string) (d : Data) : outcome bool * Data :=
  let d1 := match d !! key with
            | Some _ => d
            | None => <[key := EDict ∅]> d
            end in
  match default (EDict ∅) (d !! key) with
  | EDict m => (Returned true, <[key := EDict (<[member := VInt 1]> m)]> d1)
  | EVal _ | EList _ => (Failed PyTypeError, d1)
  end.

(** [needle in hay] for two [str]. *)
Fixpoint is_substring (needle hay : string) : bool :=
  (String.prefix needle hay
   || match hay with
      | EmptyString => false
      | String _ r => is_substring needle r
      end)%bool.

(** [member in self.data[key]] holds for a key of a dict, an element of a
    list, a substring of a [str]; on an [int] it raises.  The [del] that
    follows works on a dict only. *)
Definition srem (key member : string) (d : Data) : outcome bool * Data :=
  match d !! key with
  | None => (Returned false, d)
  | Some (EDict m) =>
      match m !! member with
      | Some _ => (Returned true, <[key := EDict (base.delete member m)]> d)
      | None => (Returned false, d)
      end
  | Some (EList l) =>
      if bool_decide (VStr member ∈ l) then (Failed PyTypeError, d)
      else (Returned false, d)
  | Some (EVal (VStr s)) =>
      if is_substring member s then (Failed PyTypeError, d) else (Returned false, d)
  | Some (EVal (VInt _)) => (Failed PyTypeError, d)
  end.

(** [self.data[key].append(value)]: only a list has [append]. *)
Definition lpush (key : string) (value : PyVal) (d : Data) : outcome bool * Data :=
  let d1 := match d !! key with
            | Some _ => d
            | None => <[key := EList []]> d
            end in
  match default (EList []) (d !! key) with
  | EList l => (Returned true, <[key := EList (l ++ [value])%list]> d1)
  | EVal _ | EDict _ => (Failed PyAttributeError, d1)
  end.

(** [len(self.data[key])]. *)
Definition llen (key : string) (d : Data) : outcome Z :=
  match d !! key with
  | None => Returned 0
  | Some (EList l) => Returned (Z.of_nat (length l))
  | Some (EDict m) => Returned (Z.of_nat (size m))
  | Some (EVal (VStr s)) => Returned (Z.of_nat (String.length s))
  | Some (EVal (VInt _)) => Failed PyTypeError
  end.

(** [self.data[key].pop(0)]: the first element of a list; a dict has [pop]
    too, and no key 0. *)
Definition lpop (key : string) (d : Data) : outcome PyVal * Data :=
  match d !! key with
  | None => (Failed PyKeyError, d)
  | Some (EList []) => (Failed PyIndexError, d)
  | Some (EList (x :: l)) => (Returned x, <[key := EList l]> d)
  | Some (EDict _) => (Failed PyKeyError, d)
  | Some (EVal _) => (Failed PyAttributeError, d)
  end.

(** [lpush] of each value of a list in turn, and [n] times [lpop] with the
    values popped. *)
Fixpoint lpush_all (key : string) (values : list PyVal) (d : Data) : Data :=
  match values with
  | [] => d
  | x :: rest => lpush_all key rest (lpush key x d).2
  end.

Fixpoint lpop_n (key : string) (n : nat) (d : Data) : list (outcome PyVal) * Data :=
  match n with
  | O => ([], d)
  | S n' =>
      let r := lpop key d in
      let rest := lpop_n key n' r.2 in
      (r.1 :: rest.1, rest.2)
  end.

(** [n] times [incr]. *)
Fixpoint incr_n (key : string) (n : nat) (d : Data) : Data :=
  match n with
  | O => d
  | S n' => incr_n key n' (incr key d).2
  end.

End MockData.

(* ===================================================================== *)
(** ** pdns_redis.py: PdnsRedis.GetPass *)
(* ===================================================================== *)

(** [GetPass], on the lines [f.readlines()] gives for the password file:
    the first line that begins with [requirepass] or [pass] decides. *)
Fixpoint GetPass (lines : list string) : result (option string) :=
  match lines with
  | [] => Ok None
  | line :: rest =>
      if (PyStr.startswith line "requirepass" || PyStr.startswith line "pass")%bool then
        match unpack2 (PyStr.split " " (PyStr.strip line) 1) with
        | Ok (rp, password) => Ok (Some password)
        | Raised e => Raised e
        end
      else GetPass rest
  end.

(** A line of the password file that [GetPass] passes over. *)
Definition no_pass_line (line : string) : bool :=
  negb (PyStr.startswith line "requirepass" || PyStr.startswith line "pass")%bool.

(** The end of a line. *)
Definition NLS : string := String NL EmptyString.

(** The line that closes a reply. *)
Definition is_terminator (line : string) : bool :=
  (String.eqb line "END" || String.eqb line "FAIL")%bool.

(** *** Replies, lines and the output stream *)

(** The texts written for one request: DATA and LOG texts, then END or
    FAIL. *)
Definition one_reply (texts : list string) : Prop :=
  ∃ (body : list string) (t : string),
    texts = (body ++ [t])%list
    ∧ Forall (λ l, body_line l = true) body
    ∧ (t = "END" ∨ t = "FAIL").

(** A text that holds no newline. *)
Definition one_line (s : string) : bool :=
  all_chars (λ ch, negb (Ascii.eqb ch NL)) s.

(** What the calls of [reply] have put on the output file: each text, then
    a newline. *)
Fixpoint stream (texts : list string) : string :=
  match texts with
  | [] => EmptyString
  | t :: rest => t +:+ NLS +:+ stream rest
  end.

(** The lines of a text as its reader sees them: the pieces that the
    newlines end (and what follows the last newline, if anything does). *)
Fixpoint stream_lines (s : string) : list string :=
  match s with
  | EmptyString => []
  | String ch r =>
      if Ascii.eqb ch NL then EmptyString :: stream_lines r
      else match stream_lines r with
           | [] => [String ch EmptyString]
           | l :: ls => String ch l :: ls
           end
  end.

(** No field name and no value of the backend holds a newline. *)
Definition field_one_line (entry value : string) : Prop :=
  one_line entry = true ∧ one_line value = true.

#[global] Instance field_one_line_dec (entry value : string) :
  Decision (field_one_line entry value).
Proof. unfold field_one_line. apply _. Defined.

Definition store_one_line (s : Store) : Prop :=
  map_Forall (λ _ h, map_Forall field_one_line h) s.

#[global] Instance store_one_line_dec (s : Store) : Decision (store_one_line s).
Proof. unfold store_one_line. apply _. Defined.

(** The addresses the outside world reports hold no newline. *)
Definition env_one_line (env : Env) : Prop :=
  one_line (text (host_addr env)) = true ∧ one_line (text (sock_addr env)) = true.

#[global] Instance env_one_line_dec (env : Env) : Decision (env_one_line env).
Proof. unfold env_one_line. apply _. Defined.

(** Nothing the chatter may come to write holds a newline: not its
    backend, not its local address, not its buffered log messages. *)
Definition chatter_one_line (c : Chatter) : Prop :=
  store_one_line (redis c)
  ∧ one_line (text (local_ip c)) = true
  ∧ Forall (λ m, one_line m = true) (log_buffer c).

#[global] Instance chatter_one_line_dec (c : Chatter) : Decision (chatter_one_line c).
Proof. unfold chatter_one_line. apply _. Defined.

(** A record none of whose four parts holds a newline. *)
Definition rec_one_line (r : Rec) : Prop :=
  one_line (rec_domain r) = true ∧ one_line (rec_type r) = true
  ∧ one_line (rec_ttl r) = true ∧ one_line (rec_data r) = true.

(** A computation that, started without newlines, writes texts without
    newlines, leaves the chatter without newlines, and returns a value that
    satisfies [Q] or raises an exception whose text holds no newline. *)
Definition keeps_lines {A : Type} (m : M Chatter A) (Q : A → Prop) : Prop :=
  ∀ c r c', chatter_one_line c → m c = (r, c') →
    chatter_one_line c'
    ∧ (∃ more : list string,
         outfile c' = (outfile c ++ more)%list ∧ Forall (λ l, one_line l = true) more)
    ∧ match r with
      | Ok a => Q a
      | Raised e => one_line (exn_str e) = true
      end.

(** A record whose data holds a newline followed by END. *)
Definition forged_store : Store :=
  mk_store [("pdns.a.com", [("A" +:+ TABS +:+ "x" +:+ NLS +:+ "END", "300")])].

(* ===================================================================== *)
(** ** Lemmas on the string primitives *)
(* ===================================================================== *)

Section strings.

Lemma append_String (c : ascii) (x y : string) :
  String c x +:+ y = String c (x +:+ y).
Proof. reflexivity. Qed.

Lemma find_sep_spec (c : ascii) (s x y : string) :
  PyStr.find_sep c s = Some (x, y) →
  s = x +:+ String c y ∧ PyStr.contains c x = false.
Proof.
  revert x. induction s as [|a r IH]; intros x; simpl; [done|].
  destruct (Ascii.eqb_spec a c) as [->|Hne].
  - intros [= <- <-]. done.
  - destruct (PyStr.find_sep c r) as [[x' y']|] eqn:E; [|done].
    intros [= <- <-]. destruct (IH x' eq_refl) as [-> Hx]. split; [done|].
    unfold PyStr.contains in *. simpl.
    destruct (Ascii.eqb_spec a c); [done|].
    by destruct (PyStr.find_sep c x').
Qed.

Lemma find_sep_app (c : ascii) (x y : string) :
  PyStr.contains c x = false →
  PyStr.find_sep c (x +:+ String c y) = Some (x, y).
Proof.
  unfold PyStr.contains. induction x as [|a r IH]; simpl.
  - by rewrite Ascii.eqb_refl.
  - destruct (Ascii.eqb a c); [done|].
    destruct (PyStr.find_sep c r) as [[]|]; [done|].
    intros _. by rewrite IH.
Qed.

Lemma find_sep_contains (c : ascii) (s : string) :
  PyStr.contains c s = true ↔ is_Some (PyStr.find_sep c s).
Proof.
  unfold PyStr.contains. destruct (PyStr.find_sep c s); split; intros H; try done.
Qed.

Lemma contains_app_sep (c : ascii) (x y : string) :
  PyStr.contains c (x +:+ String c y) = true.
Proof.
  unfold PyStr.contains. induction x as [|a r IH]; simpl.
  - by rewrite Ascii.eqb_refl.
  - destruct (Ascii.eqb a c); [done|].
    by destruct (PyStr.find_sep c (r +:+ String c y)) as [[]|].
Qed.

Lemma join_pair (x y : string) : PyStr.join TABS [x; y] = x +:+ String TAB y.
Proof. reflexivity. Qed.

Lemma split1_Some (c : ascii) (s x y : string) :
  PyStr.find_sep c s = Some (x, y) → PyStr.split c s 1 = [x; y].
Proof. simpl. by intros ->. Qed.

Lemma split1_None (c : ascii) (s : string) :
  PyStr.find_sep c s = None → PyStr.split c s 1 = [s].
Proof. simpl. by intros ->. Qed.

(** Decoding a field name, as the loops of [Query] do. *)
Lemma unpack2_split1 (c : ascii) (s : string) :
  unpack2 (PyStr.split c s 1) =
  match PyStr.find_sep c s with
  | Some p => Ok p
  | None => Raised (ValueError "need more than 1 value to unpack")
  end.
Proof. simpl. by destruct (PyStr.find_sep c s) as [[]|]. Qed.

(** A decoded field name is the [join] of its two parts: [hdel] in
    [DeleteOp] addresses the very field [Query] read. *)
Lemma decode_field_join (entry rtype rdata : string) :
  decode_field entry = Some (rtype, rdata) →
  PyStr.join TABS [rtype; rdata] = entry.
Proof. intros H. apply find_sep_spec in H as [-> _]. by rewrite join_pair. Qed.

Lemma digit_not_space (c : ascii) :
  (Nat.leb 48 (nat_of_ascii c) && Nat.leb (nat_of_ascii c) 57)%bool = true →
  PyStr.is_space c = false ∧ c ≠ "+"%char ∧ c ≠ "-"%char.
Proof.
  intros H. apply andb_prop in H as [H1%Nat.leb_le H2%Nat.leb_le].
  unfold PyStr.is_space. split; [|split; intros ->; vm_compute in H1; lia].
  apply orb_false_intro.
  - apply Nat.eqb_neq. lia.
  - apply andb_false_intro2. apply Nat.leb_gt. lia.
Qed.

Lemma string_of_uint_digits (d : uint) :
  all_digits (NilEmpty.string_of_uint d) = true.
Proof. induction d; simpl; auto. Qed.

Lemma rstrip_digits (s : string) : all_digits s = true → PyStr.rstrip s = s.
Proof.
  induction s as [|c r IH]; [done|]. simpl.
  intros [Hc Hr]%andb_prop. rewrite (IH Hr).
  apply digit_not_space in Hc as [-> _]. by destruct r.
Qed.

Lemma strip_digits (s : string) : all_digits s = true → PyStr.strip s = s.
Proof.
  intros H. unfold PyStr.strip.
  destruct s as [|c r]; [done|]. simpl in *.
  pose proof H as [Hc _]%andb_prop. apply digit_not_space in Hc as [-> _].
  by apply (rstrip_digits (String c r)).
Qed.

(** A sign and digits carry no whitespace either. *)
Lemma strip_minus_digits (s : string) :
  all_digits s = true → PyStr.strip (String "-" s) = String "-" s.
Proof.
  intros H. unfold PyStr.strip. change (PyStr.lstrip (String "-" s)) with (String "-" s).
  simpl. rewrite (rstrip_digits s H). by destruct s.
Qed.

Lemma digits_string_of_uint (d : uint) :
  d ≠ Nil → PyStr.digits (NilEmpty.string_of_uint d) = Some (Z.of_uint d).
Proof.
  intros Hd. unfold PyStr.digits.
  destruct (NilEmpty.string_of_uint d) eqn:E.
  - by destruct d.
  - by rewrite <- E, NilEmpty.usu.
Qed.

Lemma int_digits (s : string) :
  all_digits s = true → PyStr.int s = PyStr.digits s.
Proof.
  intros H. unfold PyStr.int. rewrite (strip_digits s H).
  destruct s as [|c r]; [done|].
  simpl in H. pose proof H as [Hc _]%andb_prop.
  apply digit_not_space in Hc as (_ & Hp & Hm).
  destruct c as [[] [] [] [] [] [] [] []]; try done.
Qed.

(** [int(str(z)) = z]: what [hincrby] and a query read back is the number
    that was written. *)
Lemma int_str (z : Z) : PyStr.int (PyStr.str z) = Some z.
Proof.
  unfold PyStr.str. destruct z as [|p|p]; [done| |]; simpl.
  - rewrite int_digits by apply string_of_uint_digits.
    rewrite digits_string_of_uint by apply Unsigned.to_uint_nonnil.
    f_equal. unfold Z.of_uint. by rewrite Unsigned.of_to.
  - unfold PyStr.int.
    rewrite strip_minus_digits by apply string_of_uint_digits.
    rewrite digits_string_of_uint by apply Unsigned.to_uint_nonnil.
    simpl. f_equal. unfold Z.of_uint. by rewrite Unsigned.of_to.
Qed.

End strings.

(* ===================================================================== *)
(** ** Lemmas on the backend and on [Query] *)
(* ===================================================================== *)

Section engine.

Implicit Types (s : Store) (h : Hash) (q : QueryOp) (key : string).

Lemma hash_at_insert key h s : hash_at key (<[key := h]> s) = h.
Proof. unfold hash_at. by rewrite lookup_insert_eq. Qed.

Lemma hash_at_Some key h s : s !! key = Some h → hash_at key s = h.
Proof. unfold hash_at. by intros ->. Qed.

Lemma hget_eq key hkey s :
  MockRedis.hget key hkey s = (Ok (hash_at key s !! hkey), s).
Proof.
  unfold MockRedis.hget, hash_at. destruct (s !! key); simpl; [done|].
  by rewrite lookup_empty.
Qed.

Lemma counter_of_insert h (n : Z) :
  counter_of (<[QC_FIELD := PyStr.str n]> h) = Some n.
Proof. unfold counter_of. rewrite lookup_insert_eq. apply int_str. Qed.

(** [hincrby] on the reserved field: the count goes up by one, or the call
    raises and leaves the store alone. *)
Lemma hincrby_counter key s :
  match counter_of (hash_at key s) with
  | Some n =>
      MockRedis.hincrby key QC_FIELD 1 s =
      (Ok (n + 1), <[key := <[QC_FIELD := PyStr.str (n + 1)]> (hash_at key s)]> s)
  | None => ∃ m, MockRedis.hincrby key QC_FIELD 1 s = (Raised (ValueError m), s)
  end.
Proof.
  unfold counter_of, MockRedis.hincrby. fold (hash_at key s).
  destruct (hash_at key s !! QC_FIELD) as [v|]; [|done].
  destruct (PyStr.int v); [done|]. by eexists.
Qed.

Lemma counted_once_intro key s (n : Z) :
  counter_of (hash_at key s) = Some n →
  counted_once key s (<[key := <[QC_FIELD := PyStr.str (n + 1)]> (hash_at key s)]> s).
Proof.
  intros Hn. exists n. split; [done|]. split; [done|].
  by rewrite hash_at_insert, counter_of_insert.
Qed.

Lemma hash_wf_counter h : hash_wf h → is_Some (counter_of h).
Proof.
  intros Hwf. unfold counter_of.
  destruct (h !! QC_FIELD) as [v|] eqn:E; [|by eexists].
  by destruct (Hwf _ _ E).
Qed.

Lemma hash_wf_empty : hash_wf ∅.
Proof. apply map_Forall_empty. Qed.

Lemma store_wf_hash_at key s : store_wf s → hash_wf (hash_at key s).
Proof.
  intros Hwf. unfold hash_at. destruct (s !! key) as [h|] eqn:E; simpl.
  - by apply (Hwf _ _ E).
  - apply hash_wf_empty.
Qed.

(** The normal form of [Query]: what is found decides between counting
    the query, falling back and raising. *)
Lemma Query_with_unfold (W : string → M Store (list Rec)) q dom (w : bool) s :
  let key := REDIS_PREFIX +:+ py_or dom (domain q) in
  Query_with W q dom w s =
  match Query_found q (hash_at key s) with
  | Raised e => (Raised e, s)
  | Ok [] => if w then W (py_or dom (domain q)) s else (Ok [], s)
  | Ok (r :: rv) =>
      match MockRedis.hincrby key QC_FIELD 1 s with
      | (Ok _, s') => (Ok (r :: rv), s')
      | (Raised e, s') => (Raised e, s')
      end
  end.
Proof.
  intros key. unfold Query_with, Query_found. fold key.
  destruct (truthy (record q) && truthy (data q))%bool.
  - unfold bind at 1. rewrite hget_eq.
    destruct (hash_at key s !! _) as [ttl|]; [|by destruct w].
    unfold bind, ret. by destruct (MockRedis.hincrby key QC_FIELD 1 s) as [[]].
  - unfold bind at 1. unfold MockRedis.hgetall. fold (hash_at key s).
    unfold bind at 1. unfold lift_result.
    destruct (Query_scan q (map_to_list (hash_at key s))) as [[|r rv]|e]; [by destruct w| |done].
    unfold bind, ret. by destruct (MockRedis.hincrby key QC_FIELD 1 s) as [[]].
Qed.

Lemma Query_false q dom s : Query q dom false s = Query_nowild q dom s.
Proof. unfold Query, Query_nowild. by rewrite !Query_with_unfold. Qed.

Lemma Query_scan_raises q (l : list (string * string)) (e : Exn) :
  Query_scan q l = Raised e → ∃ m, e = ValueError m.
Proof.
  revert e. induction l as [|[f v] l IH]; [done|]. intros e. simpl.
  destruct (PyStr.find_sep TAB f) as [[]|]; simpl.
  - destruct (Query_scan q l); [done|]. intros [= <-]. by eapply IH.
  - intros [= <-]. by eexists.
Qed.

Lemma Query_found_raises q h (e : Exn) :
  Query_found q h = Raised e → ∃ m, e = ValueError m.
Proof.
  unfold Query_found. destruct (truthy (record q) && truthy (data q))%bool.
  - by destruct (_ !! _).
  - apply Query_scan_raises.
Qed.

(** A call without fallback counts the query once, under its own key, when
    it finds something, and leaves the store alone otherwise. *)
Lemma Query_nowild_effect q dom s :
  let key := REDIS_PREFIX +:+ py_or dom (domain q) in
  match Query_nowild q dom s with
  | (Ok (r :: rv), s') =>
      Query_found q (hash_at key s) = Ok (r :: rv) ∧ counted_once key s s'
  | (Ok [], s') => s' = s
  | (Raised (ValueError _), s') => s' = s
  | (Raised _, _) => False
  end.
Proof.
  intros key. unfold Query_nowild. rewrite Query_with_unfold. fold key.
  destruct (Query_found q (hash_at key s)) as [[|r rv]|e] eqn:E; [done| |].
  - pose proof (hincrby_counter key s) as H.
    destruct (counter_of (hash_at key s)) as [n|] eqn:En.
    + rewrite H. split; [done|]. by apply counted_once_intro.
    + destruct H as [m ->]. done.
  - by apply Query_found_raises in E as [m ->].
Qed.

Lemma py_or_wild (dom' d : string) : py_or (Some ("*." +:+ dom')) d = "*." +:+ dom'.
Proof. reflexivity. Qed.

(** The normal form of [WildQuery]. *)
Lemma WildQuery_unfold q (d : string) s :
  WildQuery q d s =
  match PyStr.find_sep "." d with
  | None => (Ok [], s)
  | Some (sub, dom) =>
      match (if String.eqb sub "*" then PyStr.find_sep "." dom else Some (sub, dom)) with
      | None => (Ok [], s)
      | Some (_, dom') =>
          match Query_nowild q (Some ("*." +:+ dom')) s with
          | (Raised (ValueError _), s') => (Ok [], s')
          | r => r
          end
      end
  end.
Proof.
  unfold WildQuery, try_except_ValueError, DSplit.
  unfold bind at 1. unfold lift_result at 1. rewrite unpack2_split1.
  destruct (PyStr.find_sep "." d) as [[sub dom]|]; [|done]. cbn [fst snd].
  destruct (String.eqb sub "*").
  - unfold bind at 1. unfold lift_result. rewrite unpack2_split1.
    destruct (PyStr.find_sep "." dom) as [[sub' dom']|]; [|done]. cbn [fst snd].
    by destruct (Query_nowild q _ s) as [[|[]] ?].
  - unfold bind at 1. unfold ret. cbn [fst snd].
    by destruct (Query_nowild q _ s) as [[|[]] ?].
Qed.

(** The fallback never raises; it counts the query under the wildcard key
    it found the records under, or leaves the store alone. *)
Lemma WildQuery_effect q (d : string) s :
  match WildQuery q d s with
  | (Ok (r :: rv), s') =>
      ∃ dom', Query_found q (hash_at (REDIS_PREFIX +:+ "*." +:+ dom') s) = Ok (r :: rv)
              ∧ counted_once (REDIS_PREFIX +:+ "*." +:+ dom') s s'
  | (Ok [], s') => s' = s
  | (Raised _, _) => False
  end.
Proof.
  rewrite WildQuery_unfold.
  destruct (PyStr.find_sep "." d) as [[sub dom]|]; [|done].
  destruct (if String.eqb sub "*" then _ else _) as [[? dom']|]; [|done].
  pose proof (Query_nowild_effect q (Some ("*." +:+ dom')) s) as H.
  rewrite py_or_wild in H. cbv zeta in H.
  destruct (Query_nowild q (Some ("*." +:+ dom')) s) as [[[|r rv]|[]] s']; try done.
  by exists dom'.
Qed.

Lemma Query_keep_selects q (rt rd : string) :
  (truthy (record q) && truthy (data q))%bool = false →
  Query_keep q rt rd = selects q rt rd.
Proof.
  unfold Query_keep, selects.
  destruct (truthy (record q)), (truthy (data q)); simpl; try done.
  by rewrite andb_true_r.
Qed.

(** What the scanning loop returns: one record per field it keeps. *)
Lemma Query_scan_elem q (l : list (string * string)) (rv : list Rec) :
  Query_scan q l = Ok rv →
  ∀ r : Rec, r ∈ rv ↔
    ∃ e v rt rd, (e, v) ∈ l ∧ decode_field e = Some (rt, rd)
                 ∧ Query_keep q rt rd = true ∧ r = (domain q, rt, v, rd).
Proof.
  revert rv. induction l as [|[f v] l IH]; intros rv.
  - intros [= <-] r. split; [by intros ?%elem_of_nil|].
    by intros (? & ? & ? & ? & ?%elem_of_nil & _).
  - simpl. unfold decode_field in *.
    destruct (PyStr.find_sep TAB f) as [[rt rd]|] eqn:Ef; simpl; [|done].
    destruct (Query_scan q l) as [rv'|]; [|done].
    specialize (IH rv' eq_refl). intros [= <-] r.
    assert (r ∈ rv' ∨ (Query_keep q rt rd = true ∧ r = (domain q, rt, v, rd)) ↔
            ∃ e v0 rt0 rd0, (e, v0) ∈ (f, v) :: l ∧ PyStr.find_sep TAB e = Some (rt0, rd0)
                            ∧ Query_keep q rt0 rd0 = true ∧ r = (domain q, rt0, v0, rd0)) as Hiff.
    { rewrite IH. split.
      - intros [(e & v0 & rt0 & rd0 & Hin & ?)|[Hk ->]].
        + exists e, v0, rt0, rd0. split; [by apply elem_of_cons; right|done].
        + exists f, v, rt, rd. split; [by apply elem_of_cons; left|done].
      - intros (e & v0 & rt0 & rd0 & Hin & Hd & Hk & ->).
        apply elem_of_cons in Hin as [[= -> ->]|Hin].
        + right. rewrite Ef in Hd. by injection Hd as <- <-.
        + left. by exists e, v0, rt0, rd0. }
    rewrite <- Hiff. destruct (Query_keep q rt rd).
    + rewrite elem_of_cons.
      split; [intros [->|?]; [by right|by left] | intros [?|[_ ->]]; [by right|by left]].
    + split; [by left | by intros [?|[? _]]].
Qed.

Lemma Query_scan_total q (l : list (string * string)) :
  Forall (λ p, PyStr.contains TAB p.1 = true) l → ∃ rv, Query_scan q l = Ok rv.
Proof.
  induction 1 as [|[f v] l Hf _ [rv IH]]; [by eexists|]. simpl in *.
  apply find_sep_contains in Hf as [[rt rd] ->]. simpl. rewrite IH. by eexists.
Qed.

Lemma hash_wf_to_list h :
  hash_wf h → Forall (λ p, PyStr.contains TAB p.1 = true) (map_to_list h).
Proof.
  intros Hwf. apply Forall_forall. intros [f v] Hin%elem_of_map_to_list.
  by destruct (Hwf _ _ Hin).
Qed.

(** On a well-formed hash the lookup of [Query] does not raise. *)
Lemma Query_found_total q h : hash_wf h → ∃ rv, Query_found q h = Ok rv.
Proof.
  intros Hwf. unfold Query_found. destruct (truthy (record q) && truthy (data q))%bool.
  - destruct (_ !! _); by eexists.
  - by apply Query_scan_total, hash_wf_to_list.
Qed.

(** Every record found is labelled with the domain the query was made
    for. *)
Lemma Query_found_domain q h (rv : list Rec) :
  Query_found q h = Ok rv → ∀ r, r ∈ rv → rec_domain r = domain q.
Proof.
  unfold Query_found. destruct (truthy (record q) && truthy (data q))%bool.
  - destruct (_ !! _); intros [= <-] r.
    + by intros ->%list_elem_of_singleton.
    + by intros ?%elem_of_nil.
  - intros Hs r Hr. apply (Query_scan_elem _ _ _ Hs) in Hr.
    by destruct Hr as (? & ? & ? & ? & _ & _ & _ & ->).
Qed.

(** Every field the filters select is found. *)
Lemma Query_found_selects q h (rv : list Rec) (e v rt rd : string) :
  Query_found q h = Ok rv →
  h !! e = Some v → decode_field e = Some (rt, rd) → selects q rt rd = true →
  (domain q, rt, v, rd) ∈ rv.
Proof.
  unfold Query_found. intros Hf He Hd Hs.
  destruct (truthy (record q) && truthy (data q))%bool eqn:Hb.
  - unfold selects in Hs. apply andb_prop in Hb as [Hr Hdt]. rewrite Hr, Hdt in Hs.
    apply andb_prop in Hs as [->%String.eqb_eq ->%String.eqb_eq].
    rewrite (decode_field_join _ _ _ Hd), He in Hf. injection Hf as <-.
    by apply list_elem_of_singleton.
  - apply (Query_scan_elem _ _ _ Hf). exists e, v, rt, rd.
    rewrite Query_keep_selects by done. by rewrite elem_of_map_to_list.
Qed.

(** Nothing is found in a hash without fields. *)
Lemma Query_found_empty q : Query_found q ∅ = Ok [].
Proof.
  unfold Query_found. destruct (truthy (record q) && truthy (data q))%bool.
  - by rewrite lookup_empty.
  - by rewrite map_to_list_empty.
Qed.

End engine.

(* ===================================================================== *)
(** ** The query engine: counting and wildcard fallback *)
(* ===================================================================== *)

Section query_properties.

Implicit Types (s : Store) (h : Hash) (q : QueryOp).

(** C4.  Every call to [Query]: when it returns a non-empty result, the
    reserved field TXT/QC under the key the records were found under (the
    key of the requested domain, or with the fallback a wildcard key) has
    been incremented by exactly one and nothing else in the store has
    changed, however many records are returned; when it returns the empty
    result, or raises, the store is unchanged. *)
Theorem C4_query_counter q (dom : option string) (w : bool) s :
  match Query q dom w s with
  | (Ok (r :: rv), s') =>
      ∃ key : string,
        (key = REDIS_PREFIX +:+ py_or dom (domain q)
         ∨ (w = true ∧ ∃ dom', key = REDIS_PREFIX +:+ "*." +:+ dom'))
        ∧ Query_found q (hash_at key s) = Ok (r :: rv)
        ∧ counted_once key s s'
  | (_, s') => s' = s
  end.
Proof.
  destruct w.
  - unfold Query. rewrite Query_with_unfold. cbv zeta.
    set (key := REDIS_PREFIX +:+ py_or dom (domain q)).
    destruct (Query_found q (hash_at key s)) as [[|r rv]|e] eqn:E; [| |done].
    + pose proof (WildQuery_effect q (py_or dom (domain q)) s) as H.
      destruct (WildQuery q (py_or dom (domain q)) s) as [[[|r rv]|] s']; try done.
      destruct H as (dom' & Hf & Hc). exists (REDIS_PREFIX +:+ "*." +:+ dom').
      split; [right; split; [done|by exists dom']|done].
    + pose proof (hincrby_counter key s) as H.
      destruct (counter_of (hash_at key s)) as [n|] eqn:En.
      * rewrite H. exists key. split; [by left|]. split; [done|].
        by apply counted_once_intro.
      * by destruct H as [m ->].
  - rewrite Query_false.
    pose proof (Query_nowild_effect q dom s) as H. cbv zeta in H.
    destruct (Query_nowild q dom s) as [[[|r rv]|[]] s']; try done.
    destruct H as [Hf Hc]. eexists. split; [by left|done].
Qed.

Lemma py_or_None (d : string) : py_or None d = d.
Proof. reflexivity. Qed.

(** The fallback of a domain [sub.dom] whose first label is not the
    wildcard marker is the plain query of [*.dom]. *)
Lemma WildQuery_label q (sub dom : string) s :
  PyStr.contains "." sub = false → sub ≠ "*" →
  WildQuery q (sub +:+ "." +:+ dom) s =
  match Query_nowild q (Some ("*." +:+ dom)) s with
  | (Raised (ValueError _), s') => (Ok [], s')
  | r => r
  end.
Proof.
  intros Hsub Hne. rewrite WildQuery_unfold.
  change (sub +:+ "." +:+ dom) with (sub +:+ String "." dom).
  rewrite find_sep_app by done.
  by destruct (String.eqb_spec sub "*").
Qed.

(** C3.  Wildcard fallback.  A query for the lower-case domain [sub.dom]
    (as foo.bar.com is), whose key holds no field while the key of [*.dom]
    holds well-formed fields, made with the wildcard flag, returns every
    field of [*.dom] its filters select, and every record it returns carries
    the requested domain; and the fallback of a domain without a label
    separator returns the empty result and leaves the store alone. *)
Theorem C3_wildcard_fallback :
  (∀ s (d : string) (rt dt : option string) q (sub dom : string) h
     (e v rtype rdata : string),
     QueryOp_init (Some d) rt dt = Ok q → PyStr.lower d = d →
     d = sub +:+ "." +:+ dom → PyStr.contains "." sub = false → sub ≠ "*" →
     hash_at (REDIS_PREFIX +:+ d) s = ∅ →
     s !! (REDIS_PREFIX +:+ "*." +:+ dom) = Some h → hash_wf h →
     h !! e = Some v → decode_field e = Some (rtype, rdata) →
     selects q rtype rdata = true →
     ∃ (rv : list Rec) s',
       Query q None true s = (Ok rv, s')
       ∧ (d, rtype, v, rdata) ∈ rv
       ∧ (∀ r, r ∈ rv → rec_domain r = d))
  ∧ (∀ s q (d : string),
       PyStr.contains "." d = false → WildQuery q d s = (Ok [], s)).
Proof.
  split.
  - intros s d rt dt q sub dom h e v rtype rdata Hq Hlow Hd Hsub Hne He Hh Hwf Hev Hdec Hsel.
    assert (domain q = d) as Hdom.
    { unfold QueryOp_init in Hq. destruct (truthy (Some d)); [|done].
      simpl in Hq. injection Hq as <-. done. }
    unfold Query. rewrite Query_with_unfold, py_or_None, Hdom, He, Query_found_empty.
    cbv zeta. rewrite Hd, WildQuery_label by done.
    unfold Query_nowild. rewrite Query_with_unfold, py_or_wild. cbv zeta.
    rewrite (hash_at_Some _ _ _ Hh).
    destruct (Query_found_total q h Hwf) as [rv Hrv]. rewrite Hrv.
    pose proof (Query_found_selects _ _ _ _ _ _ _ Hrv Hev Hdec Hsel) as Hin.
    pose proof (Query_found_domain _ _ _ Hrv) as Hall.
    rewrite Hdom, <- Hd in *.
    destruct rv as [|r rv]; [by apply elem_of_nil in Hin|].
    pose proof (hincrby_counter (REDIS_PREFIX +:+ "*." +:+ dom) s) as Hc.
    rewrite (hash_at_Some _ _ _ Hh) in Hc.
    destruct (hash_wf_counter h Hwf) as [n Hn]. rewrite Hn in Hc. rewrite Hc.
    by eexists _, _.
  - intros s q d Hd. rewrite WildQuery_unfold.
    unfold PyStr.contains in Hd. by destruct (PyStr.find_sep "." d).
Qed.

Lemma C3_wildcard_fallback_witness :
  ∃ (rv : list Rec) (s' : Store),
    Query (mkQueryOp "foo.bar.com" None None) None true wild_store = (Ok rv, s')
    ∧ ("foo.bar.com", "A", "300", "10.1.2.3") ∈ rv
    ∧ (∀ r, r ∈ rv → rec_domain r = "foo.bar.com").
Proof.
  refine (proj1 C3_wildcard_fallback wild_store "foo.bar.com" None None
            (mkQueryOp "foo.bar.com" None None) "foo" "bar.com"
            (list_to_map [("A" +:+ TABS +:+ "10.1.2.3", "300")])
            ("A" +:+ TABS +:+ "10.1.2.3") "300" "A" "10.1.2.3"
            _ _ _ _ _ _ _ _ _ _ _); try reflexivity.
  - intros [=].
  - apply (bool_decide_unpack _). vm_compute. exact I.
Defined.

(** C9, as stated, fails where the first label of the queried domain is
    the wildcard marker itself: with records only under [*.c.d], the
    wildcard-enabled query of [*.b.c.d] (four labels) drops the marker,
    splits again, and returns the record of [*.c.d]. *)
Lemma C9_wildcard_marker_looks_further_up :
  hash_at "pdns.*.b.c.d" deep_store = ∅
  ∧ hash_at "pdns.b.c.d" deep_store = ∅
  ∧ hash_at "pdns.*.*.b.c.d" deep_store = ∅
  ∧ (Query (mkQueryOp "*.b.c.d" None None) None true deep_store).1
    = Ok [("*.b.c.d", "A", "300", "10.1.2.3")].
Proof. vm_compute. done. Qed.

(** C9 (amended).  The fallback is single-level: for a domain [sub.dom]
    whose first label is not the wildcard marker, with no field under its
    own key and none under the key of [*.dom], a wildcard-enabled query
    returns the empty result and leaves the store alone, whatever the store
    holds under wildcards further up. *)
Theorem C9_wildcard_single_level s q (sub dom : string) :
  domain q = sub +:+ "." +:+ dom → PyStr.contains "." sub = false → sub ≠ "*" →
  hash_at (REDIS_PREFIX +:+ domain q) s = ∅ →
  hash_at (REDIS_PREFIX +:+ "*." +:+ dom) s = ∅ →
  Query q None true s = (Ok [], s).
Proof.
  intros Hd Hsub Hne He Hw.
  unfold Query. rewrite Query_with_unfold, py_or_None, He, Query_found_empty.
  cbv zeta. rewrite Hd, WildQuery_label by done.
  unfold Query_nowild. rewrite Query_with_unfold, py_or_wild. cbv zeta.
  by rewrite Hw, Query_found_empty.
Qed.

Lemma C9_wildcard_single_level_witness :
  Query (mkQueryOp "a.b.c.d" None None) None true deep_store = (Ok [], deep_store).
Proof.
  apply (C9_wildcard_single_level deep_store (mkQueryOp "a.b.c.d" None None) "a" "b.c.d");
    try reflexivity.
  intros [=].
Defined.

End query_properties.

(* ===================================================================== *)
(** ** The mutation engine: TTL decoding, add, delete *)
(* ===================================================================== *)

Section mutation_properties.

Implicit Types (s : Store) (h : Hash) (q : QueryOp).

Lemma last_char_snoc (x : string) (c : ascii) :
  PyStr.last_char (x +:+ String c EmptyString) = String c EmptyString.
Proof.
  induction x as [|a r IH]; [done|]. simpl. rewrite IH.
  by destruct (r +:+ String c EmptyString) eqn:E; [destruct r|].
Qed.

Lemma but_last_snoc (x : string) (c : ascii) :
  PyStr.but_last (x +:+ String c EmptyString) = x.
Proof.
  induction x as [|a r IH]; [done|]. simpl. rewrite IH.
  by destruct (r +:+ String c EmptyString) eqn:E; [destruct r|].
Qed.

Lemma last_char_length (s : string) :
  PyStr.last_char s = EmptyString ∧ s = EmptyString
  ∨ ∃ c, PyStr.last_char s = String c EmptyString.
Proof.
  induction s as [|a r IH]; [by left|]. right. simpl.
  destruct r as [|b r']; [by eexists|].
  destruct IH as [[_ [=]]|[c Hc]]. by exists c.
Qed.

Lemma dict_get_upper_char (c : ascii) :
  dict_get (PyStr.upper (String c EmptyString)) TTL_SUFFIXES = suffix_lookup c suffix_table.
Proof. by destruct c as [[] [] [] [] [] [] [] []]. Qed.

(** The dictionary lookup of the program is the table of the
    specification. *)
Lemma dict_get_multiplier (spec : string) :
  (if truthy (Some spec)
   then dict_get (PyStr.upper (PyStr.last_char spec)) TTL_SUFFIXES else None)
  = ttl_multiplier spec.
Proof.
  unfold ttl_multiplier.
  destruct (last_char_length spec) as [[-> ->]|[c Hc]]; [done|].
  rewrite Hc, dict_get_upper_char. by destruct spec.
Qed.

Lemma AddOp_seconds_eq (spec : string) :
  AddOp_seconds spec =
  match ttl_multiplier spec, PyStr.int (numeric_portion spec) with
  | Some mult, Some n => Ok (n * mult)
  | None, Some n => Ok n
  | _, None => Raised (ValueError ("invalid literal for int() with base 10: "
                                     +:+ PyStr.repr (numeric_portion spec)))
  end.
Proof.
  unfold AddOp_seconds, numeric_portion. rewrite dict_get_multiplier.
  unfold int_or_raise. destruct (ttl_multiplier spec); by destruct (PyStr.int _).
Qed.

Lemma suffix_lookup_elem (c : ascii) (mult : Z) :
  (c, mult) ∈ suffix_table → suffix_lookup c suffix_table = Some mult.
Proof.
  unfold suffix_table. rewrite !elem_of_cons, elem_of_nil.
  intros H. repeat (destruct H as [[= -> ->]|H]; [done|]). done.
Qed.

Lemma AddOp_init_Ok (dom rtype dat : option string) (spec : string) (a : AddOp) :
  AddOp_init dom rtype dat spec = Ok a →
  ∃ n, QueryOp_init dom rtype dat = Ok (add_query a)
       ∧ truthy (record (add_query a)) = true
       ∧ truthy (data (add_query a)) = true
       ∧ AddOp_seconds spec = Ok n ∧ ttl a = PyStr.str n.
Proof.
  unfold AddOp_init. destruct (QueryOp_init dom rtype dat) as [q|] eqn:Eq; [|done].
  case_bool_decide as Hrec; [|done]. simpl.
  destruct (truthy (data q)) eqn:Hd; [|done]. simpl.
  destruct (AddOp_seconds spec) as [n|]; [|done]. intros [= <-]. simpl.
  exists n. repeat split; try done.
  unfold VALID_RECORDS in Hrec. rewrite !fmap_cons, !elem_of_cons in Hrec.
  repeat (destruct Hrec as [->|Hrec]; [done|]). by apply elem_of_nil in Hrec.
Qed.

(** C2.  TTL decoding.  A specification that ends in M, H, D or W, in
    either case, decodes to the integer value of the text before that
    character times 60, 3600, 86400 or 604800; the examples of the
    specification decode as it says; any other specification decodes to its
    own integer value; and when the numeric portion is no integer,
    [AddOp.__init__] raises: no operation is built, and with otherwise valid
    arguments the exception is the [ValueError] of [int]. *)
Theorem C2_ttl_decoding :
  (∀ (prefix : string) (c : ascii) (mult n : Z),
     (c, mult) ∈ suffix_table → PyStr.int prefix = Some n →
     AddOp_seconds (prefix +:+ String c EmptyString) = Ok (n * mult))
  ∧ (AddOp_seconds "5M" = Ok 300 ∧ AddOp_seconds "1H" = Ok 3600
     ∧ AddOp_seconds "1D" = Ok 86400 ∧ AddOp_seconds "1W" = Ok 604800
     ∧ AddOp_seconds "120" = Ok 120)
  ∧ (∀ (spec : string) (n : Z),
       ttl_multiplier spec = None → PyStr.int spec = Some n →
       AddOp_seconds spec = Ok n)
  ∧ (∀ (dom rtype dat : option string) (spec : string),
       PyStr.int (numeric_portion spec) = None →
       ∃ e, AddOp_init dom rtype dat spec = Raised e
            ∧ (∀ q, QueryOp_init dom rtype dat = Ok q →
                    record q ∈ Some <$> VALID_RECORDS → truthy (data q) = true →
                    ∃ m, e = ValueError m)).
Proof.
  split; [|split; [done|split]].
  - intros prefix c mult n Hc Hn. rewrite AddOp_seconds_eq.
    unfold numeric_portion, ttl_multiplier.
    by rewrite last_char_snoc, (suffix_lookup_elem _ _ Hc), but_last_snoc, Hn.
  - intros spec n Hm Hn. rewrite AddOp_seconds_eq. unfold numeric_portion.
    by rewrite Hm, Hn.
  - intros dom rtype dat spec Hn.
    destruct (AddOp_init dom rtype dat spec) as [a|e] eqn:Ea.
    + apply AddOp_init_Ok in Ea as (n & _ & _ & _ & Hs & _).
      rewrite AddOp_seconds_eq, Hn in Hs. by destruct (ttl_multiplier spec).
    + exists e. split; [done|]. intros q Hq Hrec Hd.
      unfold AddOp_init in Ea. rewrite Hq in Ea.
      rewrite bool_decide_eq_true_2 in Ea by done. rewrite Hd in Ea. simpl in Ea.
      rewrite AddOp_seconds_eq, Hn in Ea.
      destruct (ttl_multiplier spec); injection Ea as <-; by eexists.
Qed.

Lemma C2_ttl_decoding_witness :
  AddOp_seconds "30m" = Ok (30 * 60)
  ∧ AddOp_seconds " 45 " = Ok 45
  ∧ ∃ e, AddOp_init (Some "example.com") (Some "A") (Some "1.2.3.4") "1.5H" = Raised e
         ∧ ∃ m, e = ValueError m.
Proof.
  destruct C2_ttl_decoding as (Hsuffix & _ & Hplain & Hfail).
  split; [|split].
  - apply (Hsuffix "30" "m"%char 60 30); [|reflexivity].
    unfold suffix_table. rewrite !elem_of_cons. auto.
  - apply (Hplain " 45 " 45); reflexivity.
  - destruct (Hfail (Some "example.com") (Some "A") (Some "1.2.3.4") "1.5H" eq_refl)
      as (e & He & Hv).
    exists e. split; [exact He|].
    apply (Hv (mkQueryOp "example.com" (Some "A") (Some "1.2.3.4"))); [reflexivity| |reflexivity].
    apply (bool_decide_unpack _). vm_compute. exact I.
Defined.

Lemma field_ok_join (r d : string) (n : Z) :
  field_ok (PyStr.join TABS [r; d]) (PyStr.str n).
Proof.
  split; [rewrite join_pair; apply contains_app_sep|].
  rewrite int_str. by eexists.
Qed.

Lemma field_ok_counter (n : Z) : field_ok QC_FIELD (PyStr.str n).
Proof. apply (field_ok_join "TXT" "QC"). Qed.

Lemma hash_wf_insert h (f v : string) :
  hash_wf h → field_ok f v → hash_wf (<[f := v]> h).
Proof. intros. by apply map_Forall_insert_2. Qed.

Lemma store_wf_insert s (key : string) h :
  store_wf s → hash_wf h → store_wf (<[key := h]> s).
Proof. intros. by apply map_Forall_insert_2. Qed.

Lemma counted_once_wf (key : string) s s' :
  store_wf s → counted_once key s s' → store_wf s'.
Proof.
  intros Hwf (n & _ & -> & _). apply store_wf_insert; [done|].
  apply hash_wf_insert; [by apply store_wf_hash_at|apply field_ok_counter].
Qed.

Lemma AddOp_Run_eq (a : AddOp) s :
  let q := add_query a in
  let key := REDIS_PREFIX +:+ domain q in
  AddOp_Run a s =
  (Ok ("Added " +:+ text (record q) +:+ " record to " +:+ domain q +:+ "."),
   <[key := <[PyStr.join TABS [text (record q); text (data q)] := ttl a]> (hash_at key s)]> s).
Proof. reflexivity. Qed.

Lemma QueryOp_init_Ok (dom rtype dat : option string) q :
  QueryOp_init dom rtype dat = Ok q →
  domain q = PyStr.lower (text dom)
  ∧ record q = (if truthy rtype then Some (PyStr.upper (text rtype)) else None)
  ∧ data q = dat.
Proof.
  unfold QueryOp_init. destruct (truthy dom); [|done]. by intros [= <-].
Qed.



(** C6, as stated, fails on the report: [DeleteOp.Run] drops what the
    backend's [delete] returns, so the whole-domain delete reports the same
    text for a key that existed as for one that did not. *)
Lemma C6_report_is_the_same :
  is_Some (counted_store !! "pdns.a.com")
  ∧ (∅ : Store) !! "pdns.a.com" = None
  ∧ (DeleteOp_Run (mkQueryOp "a.com" None None) counted_store).1
    = Ok "Deleted all records for a.com."
  ∧ (DeleteOp_Run (mkQueryOp "a.com" None None) ∅).1
    = Ok "Deleted all records for a.com.".
Proof. split; [by eexists|]. vm_compute. done. Qed.

(** C6 (amended).  A delete with neither filter removes the whole key of
    the domain, the query counter with it, and leaves every other key
    alone; the backend's [delete] returns whether the key existed, and the
    operation reports the same text in both cases. *)
Theorem C6_delete_whole_domain q s :
  truthy (record q) = false → truthy (data q) = false →
  let key := REDIS_PREFIX +:+ domain q in
  DeleteOp_Run q s =
    (Ok ("Deleted all records for " +:+ domain q +:+ "."), base.delete key s)
  ∧ base.delete key s !! key = None
  ∧ hash_at key (base.delete key s) !! QC_FIELD = None
  ∧ (∀ k, k ≠ key → base.delete key s !! k = s !! k)
  ∧ MockRedis.delete key s = (Ok (bool_decide (is_Some (s !! key))), base.delete key s).
Proof.
  intros Hr Hd key.
  assert (MockRedis.delete key s
          = (Ok (bool_decide (is_Some (s !! key))), base.delete key s)) as Hdel.
  { unfold MockRedis.delete. destruct (s !! key) as [h|] eqn:E.
    - by rewrite bool_decide_eq_true_2 by by eexists.
    - rewrite delete_id by done. rewrite bool_decide_eq_false_2; [done|].
      by intros [? [=]]. }
  split; [|split; [|split; [|split]]].
  - unfold DeleteOp_Run. rewrite Hr, Hd. simpl. unfold bind. fold key. by rewrite Hdel.
  - apply lookup_delete_eq.
  - unfold hash_at. by rewrite lookup_delete_eq.
  - intros k Hk. by apply lookup_delete_ne.
  - done.
Qed.

Lemma C6_delete_whole_domain_witness :
  DeleteOp_Run (mkQueryOp "a.com" None None) counted_store
  = (Ok "Deleted all records for a.com.", base.delete "pdns.a.com" counted_store)
  ∧ hash_at "pdns.a.com" (base.delete "pdns.a.com" counted_store) !! QC_FIELD = None.
Proof.
  destruct (C6_delete_whole_domain (mkQueryOp "a.com" None None) counted_store
              eq_refl eq_refl) as (H1 & _ & H3 & _).
  exact (conj H1 H3).
Defined.

Lemma hdel_eq (key hkey : string) s h :
  s !! key = Some h →
  MockRedis.hdel key hkey s = (Ok true, <[key := base.delete hkey h]> s).
Proof.
  intros Hs. unfold MockRedis.hdel. rewrite Hs.
  destruct (h !! hkey) eqn:E; [done|].
  by rewrite delete_id, insert_id.
Qed.

(** The deleting loop: one [hdel] per record, each counted. *)
Lemma DeleteOp_loop_eq q (records : list Rec) (deleted : Z) s h :
  s !! (REDIS_PREFIX +:+ domain q) = Some h →
  DeleteOp_loop q records deleted s =
  (Ok (deleted + Z.of_nat (length records)),
   <[REDIS_PREFIX +:+ domain q :=
       foldl (λ h' r, base.delete (rec_field r) h') h records]> s).
Proof.
  revert deleted s h. induction records as [|r rest IH]; intros deleted s h Hs.
  - simpl. unfold ret. by rewrite Z.add_0_r, insert_id.
  - cbn [DeleteOp_loop]. unfold bind. fold (rec_field r).
    rewrite (hdel_eq _ _ _ _ Hs).
    rewrite (IH _ _ (base.delete (rec_field r) h)) by apply lookup_insert_eq.
    rewrite insert_insert_eq. cbn [foldl length]. do 2 f_equal.
    rewrite Nat2Z.inj_succ. simpl Z.b2z. lia.
Qed.

Lemma foldl_delete_lookup (records : list Rec) h (e : string) :
  foldl (λ h' r, base.delete (rec_field r) h') h records !! e =
  if decide (e ∈ rec_field <$> records) then None else h !! e.
Proof.
  revert h. induction records as [|r rest IH]; intros h; [done|].
  cbn [foldl]. rewrite IH, fmap_cons.
  destruct (decide (e = rec_field r)) as [->|Hne].
  - rewrite lookup_delete_eq.
    rewrite (decide_True (P := rec_field r ∈ rec_field r :: _)) by (apply elem_of_cons; by left).
    by case_decide.
  - rewrite lookup_delete_ne by done.
    destruct (decide (e ∈ rec_field <$> rest)) as [Hin|Hnin].
    + by rewrite decide_True by (apply elem_of_cons; by right).
    + rewrite decide_False; [done|]. by intros [?|?]%elem_of_cons.
Qed.

(** The fields [DeleteOp] deletes are the fields the filter selects. *)
Lemma scan_fields_selected q h (rv : list Rec) (e : string) :
  (truthy (record q) && truthy (data q))%bool = false →
  Query_scan q (map_to_list h) = Ok rv →
  e ∈ rec_field <$> rv ↔ field_selected q h e.
Proof.
  intros Hb Hs. rewrite list_elem_of_fmap. split.
  - intros (r & -> & Hr). apply (Query_scan_elem _ _ _ Hs) in Hr.
    destruct Hr as (e & v & rt & rd & Hin%elem_of_map_to_list & Hd & Hk & ->).
    unfold rec_field, rec_type, rec_data. cbn [fst snd].
    rewrite (decode_field_join _ _ _ Hd).
    exists v, rt, rd. by rewrite <- Query_keep_selects.
  - intros (v & rt & rd & Hv & Hd & Hsel).
    exists (domain q, rt, v, rd). split.
    + unfold rec_field, rec_type, rec_data. cbn [fst snd].
      by rewrite (decode_field_join _ _ _ Hd).
    + apply (Query_scan_elem _ _ _ Hs). exists e, v, rt, rd.
      rewrite Query_keep_selects by done. by rewrite elem_of_map_to_list.
Qed.

(** C10, as stated, fails where the single filter selects the reserved
    field itself: deleting the TXT records of a domain that has been
    queried before deletes TXT/QC along with them, so the count that
    [Query] has just raised to 4 is gone, not incremented. *)
Lemma C10_counter_deleted_with_txt :
  counter_of (hash_at "pdns.a.com" txt_store) = Some 3
  ∧ (DeleteOp_Run (mkQueryOp "a.com" (Some "TXT") None) txt_store).1
    = Ok "Deleted 2 records from a.com."
  ∧ hash_at "pdns.a.com" (DeleteOp_Run (mkQueryOp "a.com" (Some "TXT") None) txt_store).2
      !! QC_FIELD = None.
Proof. vm_compute. done. Qed.

(** C10 (amended).  A delete with exactly one filter that selects at least
    one field of a well-formed hash removes the selected fields, leaves
    every other field but TXT/QC as it was, and, when TXT/QC is not itself
    among the selected fields, leaves TXT/QC holding the count of before
    plus one (1 when there was none): the enumeration through [Query]
    counts the non-empty result. *)
Theorem C10_filtered_delete_counts s q h :
  xorb (truthy (record q)) (truthy (data q)) = true →
  s !! (REDIS_PREFIX +:+ domain q) = Some h → hash_wf h →
  (∃ e, field_selected q h e) →
  ∃ (msg : string) (h' : Hash) (n : Z),
    DeleteOp_Run q s = (Ok msg, <[REDIS_PREFIX +:+ domain q := h']> s)
    ∧ counter_of h = Some n
    ∧ (∀ e, field_selected q h e → h' !! e = None)
    ∧ (∀ e, ¬ field_selected q h e → e ≠ QC_FIELD → h' !! e = h !! e)
    ∧ (¬ field_selected q h QC_FIELD →
       h' !! QC_FIELD = Some (PyStr.str (n + 1)) ∧ counter_of h' = Some (n + 1)).
Proof.
  intros Hx Hs Hwf [e0 He0].
  set (key := REDIS_PREFIX +:+ domain q) in *.
  assert ((negb (truthy (record q)) && negb (truthy (data q)))%bool = false
          ∧ (truthy (record q) && truthy (data q))%bool = false) as [Hn Hb].
  { by destruct (truthy (record q)), (truthy (data q)). }
  destruct (Query_scan_total q _ (hash_wf_to_list h Hwf)) as [rv Hrv].
  pose proof (λ e, scan_fields_selected q h rv e Hb Hrv) as Hsel.
  destruct (hash_wf_counter h Hwf) as [n Hc].
  set (h1 := <[QC_FIELD := PyStr.str (n + 1)]> h).
  assert (Query q None false s = (Ok rv, <[key := h1]> s)) as HQ.
  { rewrite Query_false. unfold Query_nowild. rewrite Query_with_unfold, py_or_None.
    cbv zeta. fold key. rewrite (hash_at_Some _ _ _ Hs). unfold Query_found.
    rewrite Hb, Hrv. destruct rv as [|r rv].
    - apply Hsel in He0. by apply elem_of_nil in He0.
    - pose proof (hincrby_counter key s) as Hinc.
      rewrite (hash_at_Some _ _ _ Hs), Hc in Hinc. by rewrite Hinc. }
  eexists _, (foldl (λ h' r, base.delete (rec_field r) h') h1 rv), n.
  split; [|split; [done|split; [|split]]].
  - unfold DeleteOp_Run. rewrite Hn, Hb. unfold bind at 1. unfold bind at 1.
    rewrite HQ. fold key.
    rewrite (DeleteOp_loop_eq q rv 0 _ h1) by apply lookup_insert_eq.
    unfold ret. fold key. by rewrite insert_insert_eq.
  - intros e He. rewrite foldl_delete_lookup.
    by rewrite decide_True by by apply Hsel.
  - intros e He Hne. rewrite foldl_delete_lookup.
    rewrite decide_False by (by rewrite Hsel).
    unfold h1. by rewrite lookup_insert_ne.
  - intros Hq.
    assert (foldl (λ h' r, base.delete (rec_field r) h') h1 rv !! QC_FIELD
            = Some (PyStr.str (n + 1))) as Hl.
    { rewrite foldl_delete_lookup. rewrite decide_False by (by rewrite Hsel).
      unfold h1. by rewrite lookup_insert_eq. }
    split; [done|]. unfold counter_of. rewrite Hl. apply int_str.
Qed.

Lemma C10_filtered_delete_counts_witness :
  ∃ (msg : string) (h' : Hash),
    DeleteOp_Run (mkQueryOp "a.com" (Some "A") None) counted_store
    = (Ok msg, <[ "pdns.a.com" := h' ]> counted_store)
    ∧ h' !! ("A" +:+ TABS +:+ "10.1.2.3") = None
    ∧ h' !! QC_FIELD = Some "4".
Proof.
  destruct (C10_filtered_delete_counts counted_store (mkQueryOp "a.com" (Some "A") None)
              (list_to_map [("A" +:+ TABS +:+ "10.1.2.3", "300"); (QC_FIELD, "3")]))
    as (msg & h' & n & Hrun & Hn & Hsel & _ & Hqc).
  - reflexivity.
  - vm_compute. reflexivity.
  - apply (bool_decide_unpack _). vm_compute. exact I.
  - exists ("A" +:+ TABS +:+ "10.1.2.3"), "300", "A", "10.1.2.3". vm_compute. auto.
  - exists msg, h'. split; [exact Hrun|]. split.
    + apply Hsel. exists "300", "A", "10.1.2.3". vm_compute. auto.
    + assert (n = 3) as -> by (vm_compute in Hn; congruence).
      apply Hqc. intros (v & rt & rd & _ & Hd & Hs).
      vm_compute in Hd. injection Hd as <- <-. vm_compute in Hs. discriminate.
Defined.

End mutation_properties.

(* ===================================================================== *)
(** ** Well-formedness of the store is an invariant of the operations *)
(* ===================================================================== *)

Section store_invariant.

Implicit Types (s : Store) (h : Hash) (q : QueryOp).

Lemma store_wf_empty : store_wf ∅.
Proof. apply map_Forall_empty. Qed.

Lemma AddOp_Run_wf (dom rtype dat : option string) (spec : string) (a : AddOp) s :
  AddOp_init dom rtype dat spec = Ok a → store_wf s → store_wf (AddOp_Run a s).2.
Proof.
  intros Ha Hwf. apply AddOp_init_Ok in Ha as (n & _ & _ & _ & _ & Httl).
  rewrite AddOp_Run_eq. cbn [snd]. apply store_wf_insert; [done|].
  apply hash_wf_insert; [by apply store_wf_hash_at|].
  rewrite Httl. apply field_ok_join.
Qed.

Lemma hincrby_counter_wf (key : string) s :
  store_wf s → store_wf (MockRedis.hincrby key QC_FIELD 1 s).2.
Proof.
  intros Hwf. pose proof (hincrby_counter key s) as H.
  destruct (counter_of (hash_at key s)) as [n|] eqn:E.
  - rewrite H. cbn [snd]. eapply counted_once_wf; [done|]. by apply counted_once_intro.
  - by destruct H as [m ->].
Qed.

Lemma Query_nowild_wf q (dom : option string) s :
  store_wf s → store_wf (Query_nowild q dom s).2.
Proof.
  intros Hwf. pose proof (Query_nowild_effect q dom s) as H. cbv zeta in H.
  destruct (Query_nowild q dom s) as [[[|r rv]|[]] s']; cbn [snd]; try done; try by subst.
  destruct H as [_ H]. by eapply counted_once_wf.
Qed.

Lemma WildQuery_wf q (d : string) s : store_wf s → store_wf (WildQuery q d s).2.
Proof.
  intros Hwf. pose proof (WildQuery_effect q d s) as H.
  destruct (WildQuery q d s) as [[[|r rv]|] s']; cbn [snd]; try done; try by subst.
  destruct H as (dom' & _ & H). by eapply counted_once_wf.
Qed.

Lemma Query_wf q (dom : option string) (w : bool) s :
  store_wf s → store_wf (Query q dom w s).2.
Proof.
  intros Hwf. destruct w; [|rewrite Query_false; by apply Query_nowild_wf].
  unfold Query. rewrite Query_with_unfold. cbv zeta.
  destruct (Query_found q _) as [[|r rv]|e]; [by apply WildQuery_wf| |done].
  pose proof (hincrby_counter_wf (REDIS_PREFIX +:+ py_or dom (domain q)) s Hwf) as H.
  by destruct (MockRedis.hincrby _ QC_FIELD 1 s) as [[]].
Qed.

Lemma hdel_wf (key hkey : string) s : store_wf s → store_wf (MockRedis.hdel key hkey s).2.
Proof.
  intros Hwf. unfold MockRedis.hdel. destruct (s !! key) as [h|] eqn:E; [|done].
  destruct (h !! hkey); [|done]. cbn [snd].
  apply store_wf_insert; [done|]. apply map_Forall_delete. by apply (Hwf _ _ E).
Qed.

Lemma DeleteOp_loop_wf q (records : list Rec) (deleted : Z) s :
  store_wf s → store_wf (DeleteOp_loop q records deleted s).2.
Proof.
  revert deleted s. induction records as [|r rest IH]; intros deleted s Hwf; [done|].
  cbn [DeleteOp_loop]. unfold bind.
  pose proof (hdel_wf (REDIS_PREFIX +:+ domain q)
                (PyStr.join TABS [rec_type r; rec_data r]) s Hwf) as H.
  destruct (MockRedis.hdel _ _ s) as [[b|e] s1]; [|done]. by apply IH.
Qed.

Lemma DeleteOp_Run_wf q s : store_wf s → store_wf (DeleteOp_Run q s).2.
Proof.
  intros Hwf. unfold DeleteOp_Run.
  destruct (negb (truthy (record q)) && negb (truthy (data q)))%bool.
  - unfold bind, MockRedis.delete. destruct (s !! _); [|done].
    cbn [snd]. by apply map_Forall_delete.
  - unfold bind at 1. destruct (truthy (record q) && truthy (data q))%bool.
    + unfold bind.
      pose proof (hdel_wf (REDIS_PREFIX +:+ domain q)
                    (PyStr.join TABS [text (record q); text (data q)]) s Hwf) as H.
      by destruct (MockRedis.hdel _ _ s) as [[b|e] s1].
    + unfold bind. pose proof (Query_wf q None false s Hwf) as H.
      destruct (Query q None false s) as [[rv|e] s1]; [|done].
      pose proof (DeleteOp_loop_wf q rv 0 s1 H) as H'.
      by destruct (DeleteOp_loop q rv 0 s1) as [[]].
Qed.

End store_invariant.

(* ===================================================================== *)
(** ** The pipe chatter: what a request can raise *)
(* ===================================================================== *)

Section chatter_lemmas.

Context {St : Type}.

Lemma oe_ret {A} (a : A) : only_Exception (ret a : M St A).
Proof. by intros c e c' [=]. Qed.

Lemma oe_raise {A} (e : Exn) :
  is_Exception e = true → only_Exception (raise e : M St A).
Proof. intros He c e' c' [= <- _]. done. Qed.

Lemma oe_get : only_Exception (get : M St St).
Proof. by intros c e c' [=]. Qed.

Lemma oe_modify (f : St → St) : only_Exception (modify f).
Proof. by intros c e c' [=]. Qed.

Lemma oe_lift {A} (r : result A) :
  (∀ e, r = Raised e → is_Exception e = true) →
  only_Exception (lift_result r : M St A).
Proof. intros Hr c e c' [= H _]. by apply Hr. Qed.

Lemma oe_bind {A B} (m : M St A) (k : A → M St B) :
  only_Exception m → (∀ a, only_Exception (k a)) → only_Exception (bind m k).
Proof.
  intros Hm Hk c e c'. unfold bind.
  destruct (m c) as [[a|e0] c0] eqn:E.
  - apply Hk.
  - intros [= <- _]. by eapply Hm.
Qed.

End chatter_lemmas.

Ltac oe_step :=
  first
    [ apply oe_ret | apply oe_get | apply oe_modify
    | apply oe_raise; reflexivity
    | apply oe_bind; [|intros ?]
    | match goal with
      | |- only_Exception (if ?b then _ else _) => destruct b
      | |- only_Exception (match ?x with _ => _ end) => destruct x
      end ].

Section chatter_raises.

Implicit Types (c : Chatter) (env : Env) (r : Rec).

Lemma Query_raises q (dom : option string) (w : bool) (s s' : Store) (e : Exn) :
  Query q dom w s = (Raised e, s') → ∃ m, e = ValueError m.
Proof.
  unfold Query. rewrite Query_with_unfold. cbv zeta.
  set (key := REDIS_PREFIX +:+ py_or dom (domain q)).
  destruct (Query_found q (hash_at key s)) as [[|r rv]|e0] eqn:E.
  - destruct w; [|done]. intros H.
    pose proof (WildQuery_effect q (py_or dom (domain q)) s) as HW.
    rewrite H in HW. done.
  - pose proof (hincrby_counter key s) as H.
    destruct (counter_of (hash_at key s)); [by rewrite H|].
    destruct H as [m ->]. intros [= <- _]. by eexists.
  - intros [= <- _]. by eapply Query_found_raises.
Qed.

Lemma oe_on_redis {A} (m : M Store A) :
  (∀ s e s', m s = (Raised e, s') → is_Exception e = true) →
  only_Exception (on_redis m).
Proof.
  intros Hm c e c'. unfold on_redis.
  destruct (m (redis c)) as [[a|e0] s'] eqn:E; [done|].
  intros [= <- _]. by eapply Hm.
Qed.

Lemma oe_QueryOp_init (dom rtype dat : option string) :
  only_Exception (lift_result (QueryOp_init dom rtype dat) : M Chatter QueryOp).
Proof.
  apply oe_lift. unfold QueryOp_init. destruct (truthy dom); [done|].
  by intros e [= <-].
Qed.

Lemma oe_Query q (w : bool) : only_Exception (on_redis (Query q None w)).
Proof.
  apply oe_on_redis. intros s e s' H. by apply Query_raises in H as [m ->].
Qed.

Lemma oe_reply (line : string) : only_Exception (reply line).
Proof. apply oe_modify. Qed.

Lemma oe_FlushLogBuffer : only_Exception FlushLogBuffer.
Proof. apply oe_modify. Qed.

Lemma oe_SetLocalIp (value : string) : only_Exception (SetLocalIp value).
Proof. unfold SetLocalIp. repeat oe_step. Qed.

Lemma oe_Lookup_local_ip env (l : string) : only_Exception (Lookup_local_ip env l).
Proof.
  unfold Lookup_local_ip, SetLocalIp_try.
  repeat first [apply oe_SetLocalIp | oe_step].
Qed.

Lemma oe_MagicTest env (want url : string) : only_Exception (MagicTest env want url).
Proof. unfold MagicTest. repeat oe_step. Qed.

Lemma oe_SendRecord env r : only_Exception (SendRecord env r).
Proof.
  unfold SendRecord.
  destruct (PyStr.startswith (rec_data r) MAGIC_SELF_IP); [|apply oe_reply].
  apply oe_bind; [|intros _; repeat first [apply oe_reply | oe_step]].
  destruct (PyStr.contains ":" (rec_data r)); [|apply oe_ret].
  apply oe_bind.
  - apply oe_lift. unfold unpack3.
    destruct (PyStr.split ":" (rec_data r) 2) as [|? [|? [|? [|? ?]]]]; by intros e [= <-].
  - intros p. apply oe_bind; [|intros; apply oe_MagicTest].
    apply oe_lift. by intros e [= <-].
Qed.

Lemma oe_Lookup_records env (records : list Rec) :
  only_Exception (Lookup_records env records).
Proof.
  induction records as [|r rest IH]; [apply oe_ret|].
  cbn [Lookup_records]. apply oe_bind; [|by intros].
  unfold Lookup_record, SendMxOrSrv.
  repeat first [apply oe_reply | apply oe_SendRecord | oe_step].
Qed.

(** Whatever [Lookup] raises is an [Exception]. *)
Lemma oe_Lookup env (query : list string) : only_Exception (Lookup env query).
Proof.
  unfold Lookup.
  destruct query as [|a0 [|a1 [|a2 [|a3 [|a4 [|a5 [|a6 [|a7 l]]]]]]]];
    try (apply oe_raise; reflexivity).
  apply oe_bind; [apply oe_Lookup_local_ip|intros _].
  destruct (String.eqb a0 "Q").
  - apply oe_bind.
    + destruct (negb (truthy (Some a1))); [apply oe_ret|].
      destruct (String.eqb a3 "ANY");
        (apply oe_bind; [apply oe_QueryOp_init|intros q];
         apply oe_bind; [apply oe_get|intros c]; apply oe_Query).
    + intros records. apply oe_bind; [apply oe_Lookup_records|intros _].
      unfold EndReply. repeat first [apply oe_reply | apply oe_FlushLogBuffer | oe_step].
  - unfold SendLog. repeat first [apply oe_reply | apply oe_FlushLogBuffer | oe_step].
Qed.

End chatter_raises.

(* ===================================================================== *)
(** ** The pipe chatter: the main loop and the reply lines *)
(* ===================================================================== *)

Section chatter_properties.

Implicit Types (c : Chatter) (env : Env) (r : Rec).

Lemma failure_reply_eq (message : string) c :
  (FlushLogBuffer ;;; reply (LOG_line message) ;;; reply "FAIL") c
  = (Ok tt, failure_reply message c).
Proof.
  unfold bind, FlushLogBuffer, reply, modify, failure_reply, set_outfile, set_log_buffer.
  simpl. by rewrite <- !app_assoc.
Qed.

Lemma Run_request_bad env (line : string) c :
  length (PyStr.split_all TAB line) ≠ 7%nat →
  Run_request env line c =
  (Ok tt, failure_reply ("PowerDNS sent bad request: "
                           +:+ PyStr.repr_list (PyStr.split_all TAB line)) c).
Proof.
  intros Hlen. unfold Run_request, try_except_Exception.
  apply Nat.eqb_neq in Hlen. rewrite Hlen. by rewrite failure_reply_eq.
Qed.

Lemma Run_request_raised env (line : string) c (e : Exn) c' :
  length (PyStr.split_all TAB line) = 7%nat →
  Lookup env (PyStr.split_all TAB line) c = (Raised e, c') →
  Run_request env line c = (Ok tt, failure_reply ("Internal Error: " +:+ exn_str e) c').
Proof.
  intros Hlen HL. unfold Run_request, try_except_Exception.
  apply Nat.eqb_eq in Hlen. rewrite Hlen, HL.
  rewrite (oe_Lookup _ _ _ _ _ HL). by rewrite failure_reply_eq.
Qed.

(** No request makes the body of the loop raise. *)
Lemma Run_request_total env (line : string) c :
  ∃ c', Run_request env line c = (Ok tt, c').
Proof.
  destruct (decide (length (PyStr.split_all TAB line) = 7%nat)) as [Hlen|Hlen].
  - destruct (Lookup env (PyStr.split_all TAB line) c) as [[[]|e] c'] eqn:HL.
    + exists c'. unfold Run_request, try_except_Exception.
      apply Nat.eqb_eq in Hlen. by rewrite Hlen, HL.
    + eexists. by apply Run_request_raised.
  - eexists. by apply Run_request_bad.
Qed.


(** C7.  A record whose data begins with the self marker and holds a colon
    never has its self-test run and is never emitted: [SendRecord] raises
    before it calls [MagicTest], on unpacking when the data holds a single
    colon and on the unbound name [want] otherwise, and leaves the chatter
    (its output and its self-test cache) as it was. *)
Theorem C7_self_test_never_runs env r c :
  PyStr.startswith (rec_data r) MAGIC_SELF_IP = true →
  PyStr.contains ":" (rec_data r) = true →
  ∃ e, SendRecord env r c = (Raised e, c)
       ∧ (e = NameError "global name 'want' is not defined"
          ∨ e = ValueError "need more than 2 values to unpack").
Proof.
  intros Hself Hcolon. unfold SendRecord. rewrite Hself, Hcolon.
  apply find_sep_contains in Hcolon as [[x y] Hxy].
  unfold bind, lift_result. cbn [PyStr.split]. rewrite Hxy.
  destruct (PyStr.find_sep ":" y) as [[y1 y2]|]; cbn; eexists; split; eauto.
Qed.

Lemma C7_self_test_never_runs_witness :
  ∃ e, SendRecord probe_env
         ("self.example.com", "A", "300", "self:OK:http://probe.example/") self_chatter
       = (Raised e, self_chatter)
       ∧ (e = NameError "global name 'want' is not defined"
          ∨ e = ValueError "need more than 2 values to unpack").
Proof.
  apply (C7_self_test_never_runs probe_env
           ("self.example.com", "A", "300", "self:OK:http://probe.example/") self_chatter);
    reflexivity.
Defined.

(** The request that asks for such a record, end to end: the probe would
    answer with the expected text and the local address is known, yet the
    reply is a log line and FAIL, and no DATA line. *)
Example C7_failing_request :
  outfile (Run probe_env
             [request ["HELO"; "2"];
              request ["Q"; "self.example.com"; "IN"; "A"; "-1"; "1.2.3.4"; "5.6.7.8"]]
             (PdnsChatter_init self_store false)).2
  = ["OK" +:+ TABS +:+ BANNER;
     LOG_line "Internal Error: global name 'want' is not defined";
     "FAIL"].
Proof. vm_compute. reflexivity. Qed.

Lemma bind_ret_tt {St A} (k : unit → M St A) (c : St) : bind (ret tt) k c = k tt c.
Proof. reflexivity. Qed.

Lemma Lookup_record_counter env r :
  is_counter_record r = true → Lookup_record env r = ret tt.
Proof.
  unfold is_counter_record, Lookup_record.
  intros [Ht Hd]%andb_prop. rewrite Hd.
  apply String.eqb_eq in Ht as Ht'. rewrite Ht'. reflexivity.
Qed.

(** C8.  The reserved record (type TXT, data QC) is never emitted:
    [Lookup] writes nothing for it, so the reply to a list of records is
    the reply to the list without the reserved records; yet the query
    without filters does return the reserved field of a well-formed hash
    that holds it. *)
Theorem C8_query_counter_never_emitted :
  (∀ env (d v : string) c, Lookup_record env (d, "TXT", v, "QC") c = (Ok tt, c))
  ∧ (∀ env (records : list Rec) c,
       Lookup_records env (List.filter (λ r, negb (is_counter_record r)) records) c
       = Lookup_records env records c)
  ∧ (∀ (s : Store) (q : QueryOp) (w : bool) (v : string),
       truthy (record q) = false → truthy (data q) = false →
       hash_wf (hash_at (REDIS_PREFIX +:+ domain q) s) →
       hash_at (REDIS_PREFIX +:+ domain q) s !! QC_FIELD = Some v →
       ∃ (rv : list Rec) (s' : Store),
         Query q None w s = (Ok rv, s') ∧ (domain q, "TXT", v, "QC") ∈ rv).
Proof.
  split; [done|split].
  - intros env records c. revert c.
    induction records as [|r rest IH]; intros c; [done|].
    cbn [List.filter Lookup_records].
    destruct (is_counter_record r) eqn:E; cbn [negb].
    + rewrite (Lookup_record_counter env r E), bind_ret_tt. apply IH.
    + cbn [Lookup_records]. unfold bind.
      destruct (Lookup_record env r c) as [[[]|e] c']; [apply IH|done].
  - intros s q w v Hr Hd Hwf Hv.
    set (key := REDIS_PREFIX +:+ domain q) in *.
    destruct (Query_found_total q _ Hwf) as [rv Hrv].
    assert ((domain q, "TXT", v, "QC") ∈ rv) as Hin.
    { apply (Query_found_selects _ _ _ QC_FIELD _ _ _ Hrv Hv); [done|].
      unfold selects. by rewrite Hr, Hd. }
    unfold Query. rewrite Query_with_unfold, py_or_None. cbv zeta. fold key.
    rewrite Hrv. destruct rv as [|r rv]; [by apply elem_of_nil in Hin|].
    pose proof (hincrby_counter key s) as Hinc.
    destruct (hash_wf_counter _ Hwf) as [n Hn]. rewrite Hn in Hinc. rewrite Hinc.
    by eexists _, _.
Qed.

Lemma C8_query_counter_never_emitted_witness :
  ∃ (rv : list Rec) (s' : Store),
    Query (mkQueryOp "a.com" None None) None false counted_store = (Ok rv, s')
    ∧ ("a.com", "TXT", "3", "QC") ∈ rv.
Proof.
  apply (proj2 (proj2 C8_query_counter_never_emitted) counted_store
           (mkQueryOp "a.com" None None) false "3");
    [reflexivity | reflexivity | | vm_compute; reflexivity].
  apply (bool_decide_unpack _). vm_compute. exact I.
Defined.

End chatter_properties.

(* ===================================================================== *)
(** ** Further properties of the mutation and query engine *)
(* ===================================================================== *)

Section engine_further.

Implicit Types (s : Store) (h : Hash) (q : QueryOp) (a : AddOp).

Lemma AddOp_Run_store a s :
  (AddOp_Run a s).2
  = <[key_of (add_query a) := <[field_of (add_query a) := ttl a]>
                                (hash_at (key_of (add_query a)) s)]> s.
Proof. reflexivity. Qed.

(** X1.  Adding the same (domain, type, data) again overwrites: the second
    add leaves the store as if only it had been made, the field holds the
    TTL of the second add, and the hash has the fields it had after the
    first. *)
Theorem X1_add_overwrites s (d rtype dat : option string) (spec1 spec2 : string) a1 a2 :
  AddOp_init d rtype dat spec1 = Ok a1 →
  AddOp_init d rtype dat spec2 = Ok a2 →
  let s1 := (AddOp_Run a1 s).2 in
  let s2 := (AddOp_Run a2 s1).2 in
  s2 = (AddOp_Run a2 s).2
  ∧ hash_at (key_of (add_query a2)) s2 !! field_of (add_query a2) = Some (ttl a2)
  ∧ dom (hash_at (key_of (add_query a2)) s2) = dom (hash_at (key_of (add_query a2)) s1).
Proof.
  intros H1 H2 s1 s2.
  apply AddOp_init_Ok in H1 as (n1 & Hq1 & _). apply AddOp_init_Ok in H2 as (n2 & Hq2 & _).
  assert (add_query a1 = add_query a2) as Hq by congruence.
  unfold s2, s1. rewrite !AddOp_Run_store, Hq.
  set (key := key_of (add_query a2)). set (f := field_of (add_query a2)).
  rewrite !hash_at_insert, !insert_insert_eq, lookup_insert_eq.
  split; [done|]. split; [done|]. rewrite !dom_insert_L. set_solver.
Qed.

Lemma X1_add_overwrites_witness :
  let a1 := mkAddOp (mkQueryOp "example.com" (Some "A") (Some "1.2.3.4")) "300" in
  let a2 := mkAddOp (mkQueryOp "example.com" (Some "A") (Some "1.2.3.4")) "86400" in
  (AddOp_Run a2 (AddOp_Run a1 wild_store).2).2 = (AddOp_Run a2 wild_store).2
  ∧ hash_at "pdns.example.com" (AddOp_Run a2 (AddOp_Run a1 wild_store).2).2
      !! ("A" +:+ TABS +:+ "1.2.3.4") = Some "86400".
Proof.
  cbv zeta.
  destruct (X1_add_overwrites wild_store (Some "example.com") (Some "a") (Some "1.2.3.4")
              "5M" "1D" _ _ eq_refl eq_refl) as (H1 & H2 & _).
  exact (conj H1 H2).
Defined.

(** X2.  What [AddOp.__init__] accepts: exactly a non-empty domain, a
    record type that is in [VALID_RECORDS] once upper-cased, non-empty data
    and a TTL specification whose numeric portion is an integer.  (SRV is
    not in the list, so no SRV record can be added.) *)
Theorem X2_add_validation (d rtype dat : option string) (spec : string) :
  (∃ a, AddOp_init d rtype dat spec = Ok a)
  ↔ truthy d = true
    ∧ truthy rtype = true ∧ PyStr.upper (text rtype) ∈ VALID_RECORDS
    ∧ truthy dat = true
    ∧ is_Some (PyStr.int (numeric_portion spec)).
Proof.
  assert (∀ x : string, bool_decide (Some x ∈ Some <$> VALID_RECORDS)
                        = bool_decide (x ∈ VALID_RECORDS)) as Hmem.
  { intros x. apply bool_decide_ext. rewrite list_elem_of_fmap.
    split; [by intros (r & [= ->] & ?)|intros; by eexists]. }
  unfold AddOp_init, QueryOp_init. rewrite AddOp_seconds_eq.
  destruct (truthy d); cbn [negb record data];
    [|split; [by intros [? [=]]|by intros [[=] _]]].
  destruct (truthy rtype) eqn:Hr.
  - rewrite Hmem. case_bool_decide as Hin; cbn [negb].
    + destruct (truthy dat); cbn [negb];
        [|split; [by intros [? [=]]|by intros (_ & _ & _ & [=] & _)]].
      destruct (PyStr.int (numeric_portion spec)) as [n|].
      * split; [intros _; repeat split; try done; by eexists|].
        intros _. destruct (ttl_multiplier spec); by eexists.
      * split; [destruct (ttl_multiplier spec); by intros [? [=]]|].
        by intros (_ & _ & _ & _ & [? [=]]).
    + split; [by intros [? [=]]|]. by intros (_ & _ & Hv & _).
  - replace (bool_decide (None ∈ Some <$> VALID_RECORDS)) with false by reflexivity.
    cbn [negb]. split; [by intros [? [=]]|by intros (_ & [=] & _)].
Qed.

End engine_further.

Section engine_further_delete.

Implicit Types (s : Store) (h : Hash) (q : QueryOp) (a : AddOp).

Lemma DeleteOp_Run_whole q s :
  truthy (record q) = false → truthy (data q) = false →
  (DeleteOp_Run q s).2 = base.delete (key_of q) s.
Proof.
  intros Hr Hd. unfold DeleteOp_Run, key_of. rewrite Hr, Hd. simpl.
  unfold bind, MockRedis.delete.
  destruct (s !! (REDIS_PREFIX +:+ domain q)) eqn:E; [done|]. by rewrite delete_id.
Qed.

Lemma hash_at_None (key : string) s : s !! key = None → hash_at key s = ∅.
Proof. unfold hash_at. by intros ->. Qed.

Lemma Query_nothing_there q (d : option string) s :
  hash_at (REDIS_PREFIX +:+ py_or d (domain q)) s = ∅ →
  Query q d false s = (Ok [], s).
Proof.
  intros He. rewrite Query_false. unfold Query_nowild.
  rewrite Query_with_unfold. cbv zeta. by rewrite He, Query_found_empty.
Qed.

(** X3.  After a whole-domain delete the key of the domain is gone, and
    every query of that domain without fallback, whatever its filters,
    returns the empty result and leaves the store as it is (no counter is
    created). *)
Theorem X3_delete_all_then_query q q' s :
  truthy (record q) = false → truthy (data q) = false → domain q' = domain q →
  let s' := (DeleteOp_Run q s).2 in
  s' !! key_of q = None ∧ Query q' None false s' = (Ok [], s').
Proof.
  intros Hr Hd Hdom s'. unfold s'. rewrite (DeleteOp_Run_whole q s Hr Hd).
  split; [apply lookup_delete_eq|].
  apply Query_nothing_there. rewrite py_or_None, Hdom.
  apply hash_at_None, lookup_delete_eq.
Qed.

Lemma X3_delete_all_then_query_witness :
  let s' := (DeleteOp_Run (mkQueryOp "a.com" None None) counted_store).2 in
  s' !! "pdns.a.com" = None
  ∧ Query (mkQueryOp "a.com" (Some "A") None) None false s' = (Ok [], s').
Proof.
  apply (X3_delete_all_then_query (mkQueryOp "a.com" None None)
           (mkQueryOp "a.com" (Some "A") None) counted_store); reflexivity.
Defined.

(** X4.  A delete with both filters removes exactly the field they name:
    every other field of the hash and every other key stay as they were,
    the query counter is not touched, and a store without that field is
    left unchanged.  The report says 1 record in every case, also when the
    field did not exist: the backend's [hdel] answers True whether or not it
    deleted something. *)
Theorem X4_delete_exact_field q s :
  truthy (record q) = true → truthy (data q) = true →
  ∃ s' : Store,
    DeleteOp_Run q s = (Ok ("Deleted 1 records from " +:+ domain q +:+ "."), s')
    ∧ hash_at (key_of q) s' = base.delete (field_of q) (hash_at (key_of q) s)
    ∧ (∀ k : string, k ≠ key_of q → s' !! k = s !! k)
    ∧ (hash_at (key_of q) s !! field_of q = None → s' = s).
Proof.
  intros Hr Hd. unfold DeleteOp_Run. rewrite Hr, Hd. cbn [negb andb].
  fold (key_of q) (field_of q). unfold bind at 1. unfold bind at 1.
  unfold MockRedis.hdel, hash_at.
  destruct (s !! key_of q) as [h|] eqn:E; cbn [default from_option id].
  - destruct (h !! field_of q) eqn:Ef.
    + eexists. split; [reflexivity|]. rewrite lookup_insert_eq. cbn [default from_option id].
      split; [done|]. split; [|intros; congruence].
      intros k Hk. by rewrite lookup_insert_ne.
    + eexists. split; [reflexivity|]. rewrite E. cbn [default from_option id].
      rewrite delete_id by done. done.
  - eexists. split; [reflexivity|]. rewrite E. cbn [default from_option id].
    by rewrite delete_empty.
Qed.

Lemma X4_delete_exact_field_witness :
  ∃ s' : Store,
    DeleteOp_Run (mkQueryOp "a.com" (Some "A") (Some "10.9.9.9")) counted_store
    = (Ok "Deleted 1 records from a.com.", s')
    ∧ s' = counted_store.
Proof.
  destruct (X4_delete_exact_field (mkQueryOp "a.com" (Some "A") (Some "10.9.9.9"))
              counted_store eq_refl eq_refl) as (s' & Hrun & _ & _ & Hsame).
  exists s'. split; [exact Hrun|]. apply Hsame. vm_compute. reflexivity.
Defined.

End engine_further_delete.

Section engine_further_query.

Implicit Types (s : Store) (h : Hash) (q : QueryOp) (a : AddOp).

Lemma Query_scan_NoDup q (l : list (string * string)) (rv : list Rec) :
  NoDup l.*1 → Query_scan q l = Ok rv → NoDup rv.
Proof.
  revert rv. induction l as [|[f v] l IH]; intros rv Hnd.
  - intros [= <-]. constructor.
  - apply NoDup_cons in Hnd as [Hf Hnd]. simpl.
    destruct (PyStr.find_sep TAB f) as [[rt rd]|] eqn:Ef; simpl; [|done].
    destruct (Query_scan q l) as [rv'|] eqn:El; [|done].
    intros [= <-]. specialize (IH rv' Hnd eq_refl).
    destruct (Query_keep q rt rd); [|done].
    apply NoDup_cons. split; [|done]. intros Hin.
    apply (Query_scan_elem _ _ _ El) in Hin
      as (e & v' & rt' & rd' & Hel & Hd & _ & [= <- <- <-]).
    apply Hf. apply list_elem_of_fmap. exists (e, v). split; [|done]. simpl.
    rewrite <- (decode_field_join e rt rd Hd). symmetry. by apply decode_field_join.
Qed.

(** X5.  A query with at most one filter, on a well-formed hash, returns
    exactly the fields the filter selects: each selected field once, decoded
    into type and data, with its stored TTL and the domain of the query,
    and nothing else. *)
Theorem X5_filtered_query_selects s q :
  (truthy (record q) && truthy (data q))%bool = false →
  hash_wf (hash_at (key_of q) s) →
  ∃ (rv : list Rec) (s' : Store),
    Query q None false s = (Ok rv, s')
    ∧ NoDup rv
    ∧ (∀ r : Rec, r ∈ rv ↔
         ∃ e v rt rd, hash_at (key_of q) s !! e = Some v
                      ∧ decode_field e = Some (rt, rd)
                      ∧ selects q rt rd = true
                      ∧ r = (domain q, rt, v, rd)).
Proof.
  intros Hb Hwf. set (h := hash_at (key_of q) s) in *.
  destruct (Query_scan_total q _ (hash_wf_to_list h Hwf)) as [rv Hrv].
  assert (∃ s', Query q None false s = (Ok rv, s')) as [s' Hq].
  { rewrite Query_false. unfold Query_nowild. rewrite Query_with_unfold, py_or_None.
    cbv zeta. fold (key_of q). fold h. unfold Query_found. rewrite Hb, Hrv.
    destruct rv as [|r rv]; [by eexists|].
    pose proof (hincrby_counter (key_of q) s) as Hinc. fold h in Hinc.
    destruct (hash_wf_counter h Hwf) as [n Hn]. rewrite Hn in Hinc. rewrite Hinc.
    by eexists. }
  exists rv, s'. split; [done|]. split.
  - apply (Query_scan_NoDup q (map_to_list h)); [apply NoDup_fst_map_to_list|done].
  - intros r. rewrite (Query_scan_elem _ _ _ Hrv r).
    split; intros (e & v & rt & rd & He & Hd & Hk & ->); exists e, v, rt, rd.
    + apply elem_of_map_to_list in He. by rewrite <- Query_keep_selects.
    + rewrite elem_of_map_to_list. by rewrite Query_keep_selects.
Qed.

Lemma X5_filtered_query_selects_witness :
  ∃ (rv : list Rec) (s' : Store),
    Query (mkQueryOp "a.com" (Some "A") None) None false counted_store = (Ok rv, s')
    ∧ NoDup rv
    ∧ ("a.com", "A", "300", "10.1.2.3") ∈ rv
    ∧ ("a.com", "TXT", "3", "QC") ∉ rv.
Proof.
  destruct (X5_filtered_query_selects counted_store (mkQueryOp "a.com" (Some "A") None)
              eq_refl) as (rv & s' & Hq & Hnd & Hiff).
  - apply (bool_decide_unpack _). vm_compute. exact I.
  - exists rv, s'. split; [exact Hq|]. split; [exact Hnd|]. split.
    + apply Hiff. exists ("A" +:+ TABS +:+ "10.1.2.3"), "300", "A", "10.1.2.3".
      vm_compute. auto.
    + intros Hin. apply Hiff in Hin as (e & v & rt & rd & _ & _ & Hs & Heq).
      injection Heq as <- _ _. vm_compute in Hs. discriminate.
Defined.

Lemma Query_scan_malformed q (l : list (string * string)) (e v : string) :
  (e, v) ∈ l → PyStr.contains TAB e = false →
  ∃ m, Query_scan q l = Raised (ValueError m).
Proof.
  intros Hin He. induction l as [|[f v0] l IH]; [by apply elem_of_nil in Hin|].
  simpl. destruct (PyStr.find_sep TAB f) as [[rt rd]|] eqn:Ef; simpl; [|by eexists].
  apply elem_of_cons in Hin as [[= <- <-]|Hin].
  - unfold PyStr.contains in He. by rewrite Ef in He.
  - destruct (IH Hin) as [m ->]. by eexists.
Qed.

(** X7.  A field name without a tab.  Under the queried key it makes every
    query with at most one filter raise [ValueError], with or without the
    wildcard flag, and the store is left unchanged; under the wildcard key
    the same field is swallowed by [WildQuery]'s [except ValueError]: the
    fallback returns the empty result, as if the wildcard had no records. *)
Theorem X7_malformed_field s q (e v : string) :
  (truthy (record q) && truthy (data q))%bool = false →
  PyStr.contains TAB e = false →
  (hash_at (key_of q) s !! e = Some v →
   ∀ w : bool, ∃ m, Query q None w s = (Raised (ValueError m), s))
  ∧ (∀ sub dm : string,
       domain q = sub +:+ "." +:+ dm → PyStr.contains "." sub = false → sub ≠ "*" →
       hash_at (key_of q) s = ∅ →
       hash_at (REDIS_PREFIX +:+ "*." +:+ dm) s !! e = Some v →
       Query q None true s = (Ok [], s)).
Proof.
  intros Hb He. split.
  - intros Hv w. unfold Query. rewrite Query_with_unfold, py_or_None. cbv zeta.
    fold (key_of q). unfold Query_found. rewrite Hb.
    destruct (Query_scan_malformed q (map_to_list (hash_at (key_of q) s)) e v) as [m ->];
      [by apply elem_of_map_to_list|done|by eexists].
  - intros sub dm Hd Hsub Hne Hempty Hv.
    unfold Query. rewrite Query_with_unfold, py_or_None. cbv zeta.
    fold (key_of q). rewrite Hempty, Query_found_empty, Hd, WildQuery_label by done.
    unfold Query_nowild. rewrite Query_with_unfold, py_or_wild. cbv zeta.
    unfold Query_found. rewrite Hb.
    destruct (Query_scan_malformed q
                (map_to_list (hash_at (REDIS_PREFIX +:+ "*." +:+ dm) s)) e v) as [m ->];
      [by apply elem_of_map_to_list|done|done].
Qed.

Lemma X7_malformed_field_witness :
  let bad := mk_store [("pdns.a.com", [("notab", "1")]); ("pdns.*.b.com", [("notab", "1")])] in
  (∃ m, Query (mkQueryOp "a.com" None None) None true bad = (Raised (ValueError m), bad))
  ∧ Query (mkQueryOp "x.b.com" None None) None true bad = (Ok [], bad).
Proof.
  cbv zeta. split.
  - apply (proj1 (X7_malformed_field _ (mkQueryOp "a.com" None None) "notab" "1"
                    eq_refl eq_refl)). vm_compute. reflexivity.
  - apply (proj2 (X7_malformed_field _ (mkQueryOp "x.b.com" None None) "notab" "1"
                    eq_refl eq_refl) "x" "b.com");
      [reflexivity | reflexivity | intros [=]
      | vm_compute; reflexivity | vm_compute; reflexivity].
Defined.

End engine_further_query.

Section engine_further_invariant.

Implicit Types (s : Store) (h : Hash) (q : QueryOp) (a : AddOp).

Lemma Query_total_wf q (d : option string) (w : bool) s :
  store_wf s → ∃ (rv : list Rec) (s' : Store), Query q d w s = (Ok rv, s').
Proof.
  intros Hwf. unfold Query. rewrite Query_with_unfold. cbv zeta.
  set (key := REDIS_PREFIX +:+ py_or d (domain q)).
  pose proof (store_wf_hash_at key s Hwf) as Hh.
  destruct (Query_found_total q _ Hh) as [rv ->]. destruct rv as [|r rv].
  - destruct w; [|by eexists _, _].
    pose proof (WildQuery_effect q (py_or d (domain q)) s) as HW.
    destruct (WildQuery q (py_or d (domain q)) s) as [[rv|e] s']; [by eexists _, _|done].
  - pose proof (hincrby_counter key s) as Hinc.
    destruct (hash_wf_counter _ Hh) as [n Hn]. rewrite Hn in Hinc. rewrite Hinc.
    by eexists _, _.
Qed.

Lemma DeleteOp_loop_total q (records : list Rec) (deleted : Z) s :
  ∃ (n : Z) (s' : Store), DeleteOp_loop q records deleted s = (Ok n, s').
Proof.
  revert deleted s. induction records as [|r rest IH]; intros deleted s; [by eexists _, _|].
  cbn [DeleteOp_loop]. unfold bind.
  assert (∃ s1, MockRedis.hdel (REDIS_PREFIX +:+ domain q)
                  (PyStr.join TABS [rec_type r; rec_data r]) s = (Ok true, s1)) as [s1 ->].
  { unfold MockRedis.hdel. destruct (s !! _) as [h|]; [|by eexists].
    destruct (h !! _); by eexists. }
  apply IH.
Qed.

Lemma DeleteOp_Run_total_wf q s :
  store_wf s → ∃ (msg : string) (s' : Store), DeleteOp_Run q s = (Ok msg, s').
Proof.
  intros Hwf. unfold DeleteOp_Run.
  destruct (negb (truthy (record q)) && negb (truthy (data q)))%bool.
  - unfold bind, MockRedis.delete. destruct (s !! _); by eexists _, _.
  - unfold bind at 1. destruct (truthy (record q) && truthy (data q))%bool.
    + unfold bind, MockRedis.hdel. destruct (s !! _) as [h|]; [|by eexists _, _].
      destruct (h !! _); by eexists _, _.
    + unfold bind at 1. destruct (Query_total_wf q None false s Hwf) as (rv & s1 & ->).
      destruct (DeleteOp_loop_total q rv 0 s1) as (n & s2 & ->). by eexists _, _.
Qed.

(** X6.  Every store that add, query and delete operations reach from the
    empty store keeps the storage layout (field names TYPE, tab, DATA;
    integer values), and on such a store no query and no delete raises. *)
Theorem X6_reachable_stores_are_well_formed s :
  reachable s →
  store_wf s
  ∧ (∀ q (d : option string) (w : bool),
       ∃ (rv : list Rec) (s' : Store), Query q d w s = (Ok rv, s'))
  ∧ (∀ q, ∃ (msg : string) (s' : Store), DeleteOp_Run q s = (Ok msg, s')).
Proof.
  intros Hreach.
  assert (store_wf s) as Hwf.
  { induction Hreach as [|s d rtype dat spec a _ IH Ha|s q d w _ IH|s q _ IH].
    - apply store_wf_empty.
    - by eapply AddOp_Run_wf.
    - by apply Query_wf.
    - by apply DeleteOp_Run_wf. }
  split; [done|]. split; intros.
  - by apply Query_total_wf.
  - by apply DeleteOp_Run_total_wf.
Qed.

Lemma X6_reachable_stores_are_well_formed_witness :
  let a := mkAddOp (mkQueryOp "example.com" (Some "MX") (Some "10 mx.example.com.")) "86400" in
  let s := (Query (mkQueryOp "example.com" None None) None true (AddOp_Run a ∅).2).2 in
  store_wf s
  ∧ ∃ (rv : list Rec) (s' : Store),
      Query (mkQueryOp "example.com" (Some "MX") None) None false s = (Ok rv, s').
Proof.
  cbv zeta.
  destruct (X6_reachable_stores_are_well_formed
              (Query (mkQueryOp "example.com" None None) None true
                 (AddOp_Run (mkAddOp (mkQueryOp "example.com" (Some "MX")
                                        (Some "10 mx.example.com.")) "86400") ∅).2).2)
    as (Hwf & Hq & _).
  - apply reach_query.
    apply (reach_add ∅ (Some "example.com") (Some "mx") (Some "10 mx.example.com.") "1D");
      [apply reach_empty|vm_compute; reflexivity].
  - split; [exact Hwf|]. apply Hq.
Defined.

Lemma Query_scan_tabs q (l : list (string * string)) (rv : list Rec) :
  Query_scan q l = Ok rv → Forall (λ p, PyStr.contains TAB p.1 = true) l.
Proof.
  revert rv. induction l as [|[f v] l IH]; intros rv; [constructor|]. simpl.
  destruct (PyStr.find_sep TAB f) as [[rt rd]|] eqn:Ef; simpl; [|done].
  destruct (Query_scan q l) as [rv'|]; [|done]. intros _.
  constructor; [|by eapply IH]. simpl. apply find_sep_contains. by rewrite Ef.
Qed.

(** Counting a query does not make it miss the next time. *)
Lemma Query_found_again q h (r : Rec) (rv : list Rec) (n : Z) :
  Query_found q h = Ok (r :: rv) →
  ∃ r' rv', Query_found q (<[QC_FIELD := PyStr.str n]> h) = Ok (r' :: rv').
Proof.
  unfold Query_found. destruct (truthy (record q) && truthy (data q))%bool.
  - destruct (h !! _) as [t|] eqn:E; [|done]. intros _.
    destruct (decide (QC_FIELD = PyStr.join TABS [text (record q); text (data q)])) as [<-|Hne].
    + rewrite lookup_insert_eq. by eexists _, _.
    + rewrite lookup_insert_ne, E by done. by eexists _, _.
  - intros Hs.
    assert (∃ rv', Query_scan q (map_to_list (<[QC_FIELD := PyStr.str n]> h)) = Ok rv')
      as [rv' Hrv'].
    { apply Query_scan_total. apply Forall_forall. intros [f v] Hin%elem_of_map_to_list.
      simpl. apply lookup_insert_Some in Hin as [[<- _]|[_ Hin]].
      - apply (contains_app_sep TAB "TXT" "QC").
      - pose proof (Query_scan_tabs _ _ _ Hs) as Hall.
        rewrite Forall_forall in Hall. apply (Hall (f, v)). by apply elem_of_map_to_list. }
    assert (r ∈ r :: rv) as Hin by (apply elem_of_cons; by left).
    apply (Query_scan_elem _ _ _ Hs) in Hin
      as (e & v & rt & rd & He%elem_of_map_to_list & Hd & Hk & _).
    assert (∃ v', <[QC_FIELD := PyStr.str n]> h !! e = Some v') as [v' Hv'].
    { destruct (decide (QC_FIELD = e)) as [<-|Hne].
      - rewrite lookup_insert_eq. by eexists.
      - rewrite lookup_insert_ne by done. by eexists. }
    assert ((domain q, rt, v', rd) ∈ rv') as Hin'.
    { apply (Query_scan_elem _ _ _ Hrv'). exists e, v', rt, rd.
      by rewrite elem_of_map_to_list. }
    rewrite Hrv'. destruct rv' as [|r' rv'']; [by apply elem_of_nil in Hin'|].
    by eexists _, _.
Qed.

(** What the fallback does, by the key it looks under. *)
Lemma WildQuery_by_key q (d : string) s :
  match wildcard_key d with
  | None => WildQuery q d s = (Ok [], s)
  | Some key =>
      ∃ dom' : string,
        key = REDIS_PREFIX +:+ "*." +:+ dom'
        ∧ WildQuery q d s =
          match Query_nowild q (Some ("*." +:+ dom')) s with
          | (Raised (ValueError _), s') => (Ok [], s')
          | r => r
          end
  end.
Proof.
  unfold wildcard_key. rewrite WildQuery_unfold.
  destruct (PyStr.find_sep "." d) as [[sub dom]|]; [|done].
  destruct (if String.eqb sub "*" then _ else _) as [[? dom']|]; [|done].
  by exists dom'.
Qed.

(** One more call of a query that is served under a key: it returns
    records again, counts once more under that key, and is still served
    under it. *)
Lemma served_under_step q (w : bool) (key : string) s (n : Z) :
  served_under q w key s → counter_of (hash_at key s) = Some n →
  let s' := <[key := <[QC_FIELD := PyStr.str (n + 1)]> (hash_at key s)]> s in
  (∃ r rv, Query q None w s = (Ok (r :: rv), s'))
  ∧ served_under q w key s'
  ∧ counter_of (hash_at key s') = Some (n + 1).
Proof.
  intros Hserved Hn s'.
  assert (counter_of (hash_at key s') = Some (n + 1)) as Hn'.
  { unfold s'. by rewrite hash_at_insert, counter_of_insert. }
  pose proof (hincrby_counter key s) as Hinc. rewrite Hn in Hinc. fold s' in Hinc.
  destruct Hserved as [[-> (r & rv & Hf)]|(-> & Hkey & Hown & (r & rv & Hf))].
  - split; [|split; [|done]].
    + exists r, rv. unfold Query. rewrite Query_with_unfold, py_or_None. cbv zeta.
      fold (key_of q). by rewrite Hf, Hinc.
    + left. split; [done|]. unfold s'. rewrite hash_at_insert. by eapply Query_found_again.
  - assert (key ≠ key_of q) as Hne by (intros ->; congruence).
    split; [|split; [|done]].
    + exists r, rv. unfold Query. rewrite Query_with_unfold, py_or_None. cbv zeta.
      fold (key_of q). rewrite Hown.
      pose proof (WildQuery_by_key q (domain q) s) as HW. rewrite Hkey in HW.
      destruct HW as (dom' & -> & ->).
      unfold Query_nowild. rewrite Query_with_unfold, py_or_wild. cbv zeta.
      by rewrite Hf, Hinc.
    + right. split; [done|]. split; [done|]. unfold s'. split.
      * unfold hash_at at 1. by rewrite lookup_insert_ne.
      * rewrite hash_at_insert. by eapply Query_found_again.
Qed.

(** A query that returned records was served under some key. *)
Lemma Query_served_under q (w : bool) s (r : Rec) (rv : list Rec) (s1 : Store) :
  Query q None w s = (Ok (r :: rv), s1) →
  ∃ (key : string) (n : Z),
    served_under q w key s ∧ counter_of (hash_at key s) = Some n.
Proof.
  unfold Query. rewrite Query_with_unfold, py_or_None. cbv zeta. fold (key_of q).
  destruct (Query_found q (hash_at (key_of q) s)) as [[|r0 rv0]|e] eqn:Hf; [| |done].
  - destruct w; [|done].
    pose proof (WildQuery_by_key q (domain q) s) as HW.
    destruct (wildcard_key (domain q)) as [key|] eqn:Hkey; [|by rewrite HW].
    destruct HW as (dom' & -> & ->).
    pose proof (Query_nowild_effect q (Some ("*." +:+ dom')) s) as He.
    rewrite py_or_wild in He. cbv zeta in He.
    destruct (Query_nowild q (Some ("*." +:+ dom')) s) as [[[|r1 rv1]|[]] s'] eqn:E;
      try done.
    destruct He as [Hf' (n & Hn & _)]. intros _.
    exists (REDIS_PREFIX +:+ "*." +:+ dom'), n. split; [|done].
    right. split; [done|]. split; [done|]. split; [done|]. by exists r1, rv1.
  - pose proof (hincrby_counter (key_of q) s) as Hinc.
    destruct (counter_of (hash_at (key_of q) s)) as [n|] eqn:Hn.
    + intros _. exists (key_of q), n. split; [|done]. left. split; [done|]. by exists r0, rv0.
    + by destruct Hinc as [m ->].
Qed.

(** X8.  A query that returns records keeps returning records, and each
    call counts, with or without the [wildcards] flag.  The counter that
    grows is the one under the key the query is served under: its own key,
    or, when the own key gives nothing and the fallback serves the query,
    the wildcard key.  After [k] more calls of the same query that counter
    has grown by exactly [k]; a query served by the fallback leaves the
    hash under its own key, counter included, as it was. *)
Theorem X8_repeated_queries_count q (w : bool) s (r : Rec) (rv : list Rec) (s1 : Store) :
  Query q None w s = (Ok (r :: rv), s1) →
  ∃ (key : string) (n : Z),
    served_under q w key s
    ∧ counter_of (hash_at key s) = Some n
    ∧ ∀ k : nat,
        let sk := repeat_query q w k s in
        counter_of (hash_at key sk) = Some (n + Z.of_nat k)
        ∧ (∃ r' rv', (Query q None w sk).1 = Ok (r' :: rv'))
        ∧ (key ≠ key_of q → hash_at (key_of q) sk = hash_at (key_of q) s).
Proof.
  intros Hq. destruct (Query_served_under _ _ _ _ _ _ Hq) as (key & n & Hserved & Hn).
  exists key, n. split; [done|]. split; [done|].
  intros k. cbv zeta. clear Hq. revert s n Hserved Hn.
  induction k as [|k IH]; intros s n Hserved Hn.
  - cbn [repeat_query]. rewrite Z.add_0_r. split; [done|]. split; [|done].
    destruct (served_under_step q w key s n Hserved Hn) as [(r' & rv' & ->) _].
    by exists r', rv'.
  - cbn [repeat_query].
    destruct (served_under_step q w key s n Hserved Hn) as [(r' & rv' & Hstep) [Hs' Hn']].
    rewrite Hstep. cbn [snd].
    destruct (IH _ (n + 1) Hs' Hn') as (Hc & Hmore & Hown).
    split; [rewrite Hc; f_equal; lia|]. split; [done|].
    intros Hne. rewrite (Hown Hne). unfold hash_at. by rewrite lookup_insert_ne.
Qed.

Lemma X8_repeated_queries_count_witness :
  ∃ (key : string) (n : Z),
    served_under (mkQueryOp "foo.bar.com" (Some "A") None) true key wild_store
    ∧ counter_of (hash_at key wild_store) = Some n
    ∧ ∀ k : nat,
        let sk := repeat_query (mkQueryOp "foo.bar.com" (Some "A") None) true k wild_store in
        counter_of (hash_at key sk) = Some (n + Z.of_nat k)
        ∧ (∃ r' rv', (Query (mkQueryOp "foo.bar.com" (Some "A") None) None true sk).1
                     = Ok (r' :: rv'))
        ∧ (key ≠ key_of (mkQueryOp "foo.bar.com" (Some "A") None) →
           hash_at (key_of (mkQueryOp "foo.bar.com" (Some "A") None)) sk
           = hash_at (key_of (mkQueryOp "foo.bar.com" (Some "A") None)) wild_store).
Proof.
  apply (X8_repeated_queries_count (mkQueryOp "foo.bar.com" (Some "A") None) true wild_store
           ("foo.bar.com", "A", "300", "10.1.2.3") []
           (Query (mkQueryOp "foo.bar.com" (Some "A") None) None true wild_store).2).
  vm_compute. reflexivity.
Defined.

(** X9.  Add, then delete with the same type and data: the field is gone,
    the rest of the hash is what it was before the add, and the query of
    that type and data returns the empty result.  The key itself stays,
    with an empty hash if the field was its only one. *)
Theorem X9_add_then_delete s (d rtype dat : option string) (spec : string) a :
  AddOp_init d rtype dat spec = Ok a →
  let q := add_query a in
  let s2 := (DeleteOp_Run q (AddOp_Run a s).2).2 in
  s2 !! key_of q = Some (base.delete (field_of q) (hash_at (key_of q) s))
  ∧ (∀ k : string, k ≠ key_of q → s2 !! k = s !! k)
  ∧ Query q None false s2 = (Ok [], s2).
Proof.
  intros Ha q s2. apply AddOp_init_Ok in Ha as (n & _ & Hr & Hd & _). fold q in Hr, Hd.
  assert (s2 = <[key_of q := base.delete (field_of q) (hash_at (key_of q) s)]> s) as ->.
  { unfold s2. rewrite AddOp_Run_store. fold q.
    unfold DeleteOp_Run. rewrite Hr, Hd. cbn [negb andb]. fold (key_of q) (field_of q).
    unfold bind at 1. unfold bind at 1.
    rewrite (hdel_eq _ _ _ _ (lookup_insert_eq _ _ _)). cbn [snd].
    by rewrite insert_insert_eq, delete_insert_eq. }
  split; [apply lookup_insert_eq|]. split; [intros k Hk; by apply lookup_insert_ne|].
  rewrite Query_false. unfold Query_nowild. rewrite Query_with_unfold, py_or_None.
  cbv zeta. fold (key_of q). rewrite hash_at_insert. unfold Query_found.
  rewrite Hr, Hd. cbn [andb]. fold (field_of q). by rewrite lookup_delete_eq.
Qed.

Lemma X9_add_then_delete_witness :
  let a := mkAddOp (mkQueryOp "new.example.com" (Some "A") (Some "1.2.3.4")) "300" in
  let s2 := (DeleteOp_Run (add_query a) (AddOp_Run a wild_store).2).2 in
  s2 !! "pdns.new.example.com" = Some ∅
  ∧ Query (add_query a) None false s2 = (Ok [], s2).
Proof.
  cbv zeta.
  destruct (X9_add_then_delete wild_store (Some "new.example.com") (Some "A")
              (Some "1.2.3.4") "5M"
              (mkAddOp (mkQueryOp "new.example.com" (Some "A") (Some "1.2.3.4")) "300"))
    as (H1 & _ & H3); [vm_compute; reflexivity|].
  split; [|exact H3]. eapply eq_trans; [exact H1|]. vm_compute. reflexivity.
Defined.

End engine_further_invariant.

(* ===================================================================== *)
(** ** Further properties of the pipe chatter *)
(* ===================================================================== *)

Section respects_lemmas.

Variable R : Chatter → Chatter → Prop.
Hypothesis R_refl : ∀ c, R c c.
Hypothesis R_trans : ∀ c1 c2 c3, R c1 c2 → R c2 c3 → R c1 c3.

Lemma rs_ret {A} (a : A) : respects R (ret a).
Proof. intros c r c' [= _ <-]. apply R_refl. Qed.

Lemma rs_raise {A} (e : Exn) : respects R (raise e : M Chatter A).
Proof. intros c r c' [= _ <-]. apply R_refl. Qed.

Lemma rs_get : respects R get.
Proof. intros c r c' [= _ <-]. apply R_refl. Qed.

Lemma rs_lift {A} (x : result A) : respects R (lift_result x).
Proof. intros c r c' [= _ <-]. apply R_refl. Qed.

Lemma rs_modify (f : Chatter → Chatter) : (∀ c, R c (f c)) → respects R (modify f).
Proof. intros Hf c r c' [= _ <-]. apply Hf. Qed.

Lemma rs_bind {A B} (m : M Chatter A) (k : A → M Chatter B) :
  respects R m → (∀ a, respects R (k a)) → respects R (bind m k).
Proof.
  intros Hm Hk c r c'. unfold bind.
  destruct (m c) as [[a|e] c1] eqn:E.
  - intros Hka. eapply R_trans; [by eapply Hm|by eapply Hk].
  - intros [= _ <-]. by eapply Hm.
Qed.

Lemma rs_try {A} (m : M Chatter A) (h : Exn → M Chatter A) :
  respects R m → (∀ e, respects R (h e)) → respects R (try_except_Exception m h).
Proof.
  intros Hm Hh c r c'. unfold try_except_Exception.
  destruct (m c) as [[a|e] c1] eqn:E.
  - intros [= _ <-]. by eapply Hm.
  - destruct (is_Exception e).
    + intros Hhe. eapply R_trans; [by eapply Hm|by eapply Hh].
    + intros [= _ <-]. by eapply Hm.
Qed.

Lemma rs_on_redis {A} (m : M Store A) :
  (∀ c r s', m (redis c) = (r, s') → R c (set_redis s' c)) → respects R (on_redis m).
Proof.
  intros Hm c r c'. unfold on_redis.
  destruct (m (redis c)) as [r0 s'] eqn:E. intros [= _ <-]. by eapply Hm.
Qed.

End respects_lemmas.

Ltac rs_step :=
  first
    [ apply rs_ret; assumption | apply rs_get; assumption
    | apply rs_raise; assumption | apply rs_lift; assumption
    | apply rs_bind; [assumption| |intros ?]
    | match goal with
      | |- respects _ (if ?b then _ else _) => destruct b
      | |- respects _ (match ?x with _ => _ end) => destruct x
      end ].

Lemma SetLocalIp_eq (value : string) (c : Chatter) :
  SetLocalIp value c
  = (Ok tt, if adoptable value then set_local_ip (Some value) c else c).
Proof. unfold SetLocalIp, adoptable. by destruct (negb _). Qed.

Lemma Query_effect (q : QueryOp) (d : option string) (w : bool) (s : Store) :
  match Query q d w s with
  | (Ok (_ :: _), s') => ∃ key, counted_once key s s'
  | (_, s') => s' = s
  end.
Proof.
  destruct w.
  - unfold Query. rewrite Query_with_unfold. cbv zeta.
    set (key := REDIS_PREFIX +:+ py_or d (domain q)).
    destruct (Query_found q (hash_at key s)) as [[|r rv]|e] eqn:E; [| |done].
    + pose proof (WildQuery_effect q (py_or d (domain q)) s) as H.
      destruct (WildQuery q (py_or d (domain q)) s) as [[[|r rv]|] s']; try done.
      destruct H as (dom' & _ & Hc). by eexists.
    + pose proof (hincrby_counter key s) as H.
      destruct (counter_of (hash_at key s)) as [n|] eqn:En.
      * rewrite H. exists key. by apply counted_once_intro.
      * by destruct H as [m ->].
  - rewrite Query_false.
    pose proof (Query_nowild_effect q d s) as H. cbv zeta in H.
    destruct (Query_nowild q d s) as [[[|r rv]|[]] s']; try done.
    destruct H as [_ Hc]. by eexists.
Qed.

(** A query changes query counters and nothing else. *)
Lemma Query_same_records (q : QueryOp) (d : option string) (w : bool) (s : Store)
    (r : result (list Rec)) (s' : Store) :
  Query q d w s = (r, s') → same_records s s'.
Proof.
  intros Hq. pose proof (Query_effect q d w s) as H. rewrite Hq in H.
  assert (s' = s ∨ ∃ key, counted_once key s s') as [->|[key (n & _ & -> & _)]].
  { destruct r as [[|? ?]|]; auto. }
  - by intros key entry _.
  - intros k entry Hne. destruct (decide (k = key)) as [->|Hk].
    + by rewrite hash_at_insert, lookup_insert_ne.
    + unfold hash_at. by rewrite lookup_insert_ne.
Qed.

Section chatter_frame.

Variable R : Chatter → Chatter → Prop.
Hypothesis R_refl : ∀ c, R c c.
Hypothesis R_trans : ∀ c1 c2 c3, R c1 c2 → R c2 c3 → R c1 c3.
Hypothesis R_out : ∀ c l, R c (set_outfile l c).
Hypothesis R_log : ∀ c l, R c (set_log_buffer l c).
Hypothesis R_ip : ∀ c v,
  truthy (local_ip c) = false → adoptable v = true → R c (set_local_ip (Some v) c).
Hypothesis R_redis : ∀ c q w r s',
  Query q None w (redis c) = (r, s') → R c (set_redis s' c).

Implicit Types (c : Chatter) (env : Env).

Lemma fr_reply (line : string) : respects R (reply line).
Proof. apply rs_modify. intros c. apply R_out. Qed.

Lemma fr_FlushLogBuffer : respects R FlushLogBuffer.
Proof.
  apply rs_modify. intros c. eapply R_trans; [apply (R_log c [])|apply R_out].
Qed.

Lemma fr_SendLog (message : string) : respects R (SendLog message).
Proof. apply rs_modify. intros c. apply R_log. Qed.

(** Adopting an address while none is known. *)
Lemma fr_adopt (addr : option string) c :
  truthy (local_ip c) = false → R c (SetLocalIp_try addr c).2.
Proof.
  intros Hc. destruct addr as [a|]; [|apply R_refl]. cbn [SetLocalIp_try].
  rewrite SetLocalIp_eq. cbn [snd].
  destruct (adoptable a) eqn:Ha; [by apply R_ip|apply R_refl].
Qed.

Lemma SetLocalIp_try_Ok (addr : option string) c :
  SetLocalIp_try addr c = (Ok tt, (SetLocalIp_try addr c).2).
Proof. destruct addr as [a|]; [|done]. cbn [SetLocalIp_try]. by rewrite SetLocalIp_eq. Qed.

Lemma fr_Lookup_local_ip env (l : string) : respects R (Lookup_local_ip env l).
Proof.
  intros c r c'. unfold Lookup_local_ip. unfold bind at 1. unfold get at 1.
  destruct (truthy (local_ip c)) eqn:Hc; cbn [negb].
  - intros [= _ <-]. apply R_refl.
  - unfold bind at 1.
    pose proof (fr_adopt (Some l) c Hc) as H1.
    rewrite (SetLocalIp_try_Ok (Some l) c) in *. cbn [SetLocalIp_try] in *.
    set (c1 := (SetLocalIp l c).2) in *.
    replace (SetLocalIp l c) with (Ok tt, c1) by (unfold c1; by rewrite SetLocalIp_eq).
    unfold bind, get. destruct (truthy (local_ip c1)) eqn:Hc1; cbn [negb].
    + by intros [= _ <-].
    + rewrite SetLocalIp_try_Ok. intros [= _ <-].
      eapply R_trans; [exact H1|by apply fr_adopt].
Qed.

Lemma fr_SendRecord env (r : Rec) : respects R (SendRecord env r).
Proof.
  unfold SendRecord.
  destruct (PyStr.startswith (rec_data r) MAGIC_SELF_IP); [|apply fr_reply].
  destruct (PyStr.contains ":" (rec_data r)) eqn:Hcolon.
  - intros c r0 c'. apply find_sep_contains in Hcolon as [[x y] Hxy].
    unfold bind, lift_result. cbn [PyStr.split]. rewrite Hxy.
    destruct (PyStr.find_sep ":" y) as [[y1 y2]|]; cbn; intros [= _ <-]; apply R_refl.
  - repeat first [apply fr_reply | rs_step].
Qed.

Lemma fr_Lookup_records env (records : list Rec) : respects R (Lookup_records env records).
Proof.
  induction records as [|r rest IH]; [by apply rs_ret|].
  cbn [Lookup_records]. apply rs_bind; [done| |by intros].
  unfold Lookup_record, SendMxOrSrv.
  repeat first [apply fr_reply | apply fr_SendRecord | rs_step].
Qed.

Lemma fr_Query q : respects R (c <- get ;; on_redis (Query q None (wildcards c))).
Proof.
  intros c r c'. unfold bind, get, on_redis.
  destruct (Query q None (wildcards c) (redis c)) as [r0 s'] eqn:E.
  intros [= _ <-]. by eapply R_redis.
Qed.

Lemma fr_Lookup env (query : list string) : respects R (Lookup env query).
Proof.
  unfold Lookup.
  destruct query as [|a0 [|a1 [|a2 [|a3 [|a4 [|a5 [|a6 [|a7 l]]]]]]]];
    try by apply rs_raise.
  apply rs_bind; [done|apply fr_Lookup_local_ip|intros _].
  destruct (String.eqb a0 "Q").
  - apply rs_bind; [done| |].
    + destruct (negb (truthy (Some a1))); [by apply rs_ret|].
      destruct (String.eqb a3 "ANY");
        (apply rs_bind; [done|by apply rs_lift|intros q; apply fr_Query]).
    + intros records. apply rs_bind; [done|apply fr_Lookup_records|intros _].
      unfold EndReply. apply rs_bind; [done|apply fr_FlushLogBuffer|intros _; apply fr_reply].
  - apply rs_bind; [done|apply fr_SendLog|intros _].
    apply rs_bind; [done|apply fr_FlushLogBuffer|intros _; apply fr_reply].
Qed.

Lemma fr_Run_request env (line : string) : respects R (Run_request env line).
Proof.
  unfold Run_request. apply rs_try; [done| |].
  - destruct (length _ =? 7)%nat; [apply fr_Lookup|].
    apply rs_bind; [done|apply fr_FlushLogBuffer|intros _].
    apply rs_bind; [done|apply fr_reply|intros _; apply fr_reply].
  - intros e. apply rs_bind; [done|apply fr_FlushLogBuffer|intros _].
    apply rs_bind; [done|apply fr_reply|intros _; apply fr_reply].
Qed.

Lemma fr_Run_loop env (infile : list string) c :
  R c (Run_loop env infile c).2.
Proof.
  revert c. induction infile as [|line rest IH]; intros c; [apply R_refl|].
  cbn [Run_loop readline]. destruct (String.length line =? 0)%nat; [apply R_refl|].
  destruct (Run_request env (PyStr.strip line) c) as [[[]|e] c1] eqn:E.
  - eapply R_trans; [by eapply fr_Run_request|apply IH].
  - by eapply fr_Run_request.
Qed.

Lemma fr_Run env (infile : list string) c : R c (Run env infile c).2.
Proof.
  unfold Run. destruct (readline infile) as [[line1|e] rest]; [|apply R_refl].
  destruct (negb (String.eqb line1 _)).
  - unfold reply, modify. destruct (readline rest) as [[]]; apply R_out.
  - unfold bind at 1, reply at 1, modify. unfold bind, get.
    set (c1 := set_outfile _ c). assert (R c c1) as H1 by apply R_out.
    destruct (truthy (local_ip c1)) eqn:Hc1; cbn [negb].
    + unfold ret. eapply R_trans; [exact H1|apply fr_Run_loop].
    + unfold SlowGetOwnIp. rewrite SetLocalIp_try_Ok.
      eapply R_trans; [exact H1|]. eapply R_trans; [by apply fr_adopt|apply fr_Run_loop].
Qed.

End chatter_frame.

Section chatter_invariants.

Implicit Types (c : Chatter) (env : Env).

Lemma local_ip_settles_refl c : local_ip_settles c c.
Proof. split; [done|by left]. Qed.

Lemma local_ip_settles_trans c1 c2 c3 :
  local_ip_settles c1 c2 → local_ip_settles c2 c3 → local_ip_settles c1 c3.
Proof.
  intros [H1 H1'] [H2 H2']. split.
  - intros Ht. rewrite <- (H1 Ht). apply H2. by rewrite (H1 Ht).
  - destruct H2' as [->|H2']; [done|by right].
Qed.

(** X10.  The local address of the chatter, over a whole run and over the
    request loop alone: an address that is known is never replaced, and an
    address that appears was adopted by [SetLocalIp], so it is not 0.0.0.0
    and does not begin with 127., 192.168. or 10. *)
Theorem X10_local_ip_settles env (infile : list string) c :
  local_ip_settles c (Run env infile c).2
  ∧ local_ip_settles c (Run_loop env infile c).2.
Proof.
  assert (∀ c (l : list string), local_ip_settles c (set_outfile l c)) as Hout
    by (intros; split; [done|by left]).
  assert (∀ c (l : list string), local_ip_settles c (set_log_buffer l c)) as Hlog
    by (intros; split; [done|by left]).
  assert (∀ c v, truthy (local_ip c) = false → adoptable v = true →
                 local_ip_settles c (set_local_ip (Some v) c)) as Hip.
  { intros c0 v Hc Hv. split; [by rewrite Hc|]. right. by exists v. }
  assert (∀ c q w r s', Query q None w (redis c) = (r, s') →
                        local_ip_settles c (set_redis s' c)) as Hredis
    by (intros; split; [done|by left]).
  split.
  - by apply (fr_Run local_ip_settles local_ip_settles_refl local_ip_settles_trans).
  - by apply (fr_Run_loop local_ip_settles local_ip_settles_refl local_ip_settles_trans).
Qed.

Lemma X10_local_ip_settles_witness :
  let good := request ["Q"; "self.example.com"; "IN"; "A"; "-1"; "1.2.3.4"; "9.9.9.9"] in
  local_ip (Run probe_env [request ["HELO"; "2"]; good] self_chatter).2 = Some "5.6.7.8".
Proof.
  cbv zeta.
  apply (proj1 (proj1 (X10_local_ip_settles probe_env
                         [request ["HELO"; "2"];
                          request ["Q"; "self.example.com"; "IN"; "A"; "-1"; "1.2.3.4"; "9.9.9.9"]]
                         self_chatter))).
  reflexivity.
Defined.

Lemma same_records_refl (s : Store) : same_records s s.
Proof. by intros key entry _. Qed.

Lemma same_records_trans (s1 s2 s3 : Store) :
  same_records s1 s2 → same_records s2 s3 → same_records s1 s3.
Proof. intros H1 H2 key entry Hne. by rewrite H2, H1. Qed.

Lemma serves_read_only_refl c : serves_read_only c c.
Proof. split; [done|]. split; [done|apply same_records_refl]. Qed.

Lemma serves_read_only_trans c1 c2 c3 :
  serves_read_only c1 c2 → serves_read_only c2 c3 → serves_read_only c1 c3.
Proof.
  intros (H1 & H1' & H1'') (H2 & H2' & H2''). split; [congruence|].
  split; [congruence|by eapply same_records_trans].
Qed.

(** X11.  What a run of the chatter never does: it never probes a
    self-test URL (the cache of [MagicTest] is what it was), never changes
    its wildcard flag, and never adds, changes or removes a record of the
    backend: the only fields that differ afterwards are query counters. *)
Theorem X11_run_serves_read_only env (infile : list string) c :
  serves_read_only c (Run env infile c).2.
Proof.
  apply (fr_Run serves_read_only serves_read_only_refl serves_read_only_trans).
  - intros c0 l. split; [done|]. split; [done|]. by intros key entry _.
  - intros c0 l. split; [done|]. split; [done|]. by intros key entry _.
  - intros c0 v _ _. split; [done|]. split; [done|]. by intros key entry _.
  - intros c0 q w r s' Hq. split; [done|]. split; [done|].
    by eapply Query_same_records.
Qed.

End chatter_invariants.

Section chatter_reply_shape.

Implicit Types (c : Chatter) (env : Env).

Lemma body_line_DATA (d1 d2 d3 d4 : string) : body_line (DATA_line d1 d2 d3 d4) = true.
Proof. by destruct d1. Qed.

Lemma body_line_LOG (message : string) : body_line (LOG_line message) = true.
Proof. by destruct message. Qed.

Lemma wrote_body_refl c : wrote_body c c.
Proof. split; [done|]. exists []. by rewrite app_nil_r. Qed.

Lemma wrote_body_trans c1 c2 c3 : wrote_body c1 c2 → wrote_body c2 c3 → wrote_body c1 c3.
Proof.
  intros [H1 (b1 & Ho1 & Hb1)] [H2 (b2 & Ho2 & Hb2)]. split; [congruence|].
  exists (b1 ++ b2)%list. split; [by rewrite Ho2, Ho1, app_assoc|by apply Forall_app].
Qed.

Lemma wrote_nothing_refl c : wrote_nothing c c.
Proof. done. Qed.

Lemma wrote_nothing_trans c1 c2 c3 :
  wrote_nothing c1 c2 → wrote_nothing c2 c3 → wrote_nothing c1 c3.
Proof. intros [H1 H1'] [H2 H2']. split; congruence. Qed.

Lemma wrote_nothing_body c c' : wrote_nothing c c' → wrote_body c c'.
Proof. intros [Ho Hl]. split; [done|]. exists []. by rewrite app_nil_r. Qed.

Lemma wb_DATA (d1 d2 d3 d4 : string) : respects wrote_body (reply (DATA_line d1 d2 d3 d4)).
Proof.
  apply rs_modify. intros c. split; [done|].
  exists [DATA_line d1 d2 d3 d4]. split; [done|].
  constructor; [apply body_line_DATA|constructor].
Qed.

Lemma wb_SendRecord env (r : Rec) : respects wrote_body (SendRecord env r).
Proof.
  unfold SendRecord.
  destruct (PyStr.startswith (rec_data r) MAGIC_SELF_IP); [|apply wb_DATA].
  destruct (PyStr.contains ":" (rec_data r)) eqn:Hcolon.
  - intros c r0 c'. apply find_sep_contains in Hcolon as [[x y] Hxy].
    unfold bind, lift_result. cbn [PyStr.split]. rewrite Hxy.
    destruct (PyStr.find_sep ":" y) as [[y1 y2]|]; cbn; intros [= _ <-];
      apply wrote_body_refl.
  - apply rs_bind; [apply wrote_body_trans|by apply rs_ret, wrote_body_refl|intros _].
    apply rs_bind; [apply wrote_body_trans|by apply rs_get, wrote_body_refl|intros c0].
    destruct (negb _); [by apply rs_raise, wrote_body_refl|apply wb_DATA].
Qed.

Lemma wb_Lookup_records env (records : list Rec) :
  respects wrote_body (Lookup_records env records).
Proof.
  induction records as [|r rest IH]; [by apply rs_ret, wrote_body_refl|].
  cbn [Lookup_records]. apply rs_bind; [apply wrote_body_trans| |by intros].
  unfold Lookup_record, SendMxOrSrv.
  destruct (bool_decide _); [apply wb_DATA|].
  destruct (_ || _)%bool; [apply wb_SendRecord|by apply rs_ret, wrote_body_refl].
Qed.

Lemma wn_Lookup_local_ip env (l : string) : respects wrote_nothing (Lookup_local_ip env l).
Proof.
  apply fr_Lookup_local_ip;
    [apply wrote_nothing_refl|apply wrote_nothing_trans|done].
Qed.

Lemma wn_records env (dm rtype : string) :
  respects wrote_nothing
    (if negb (truthy (Some dm)) then ret []
     else if String.eqb rtype "ANY" then
       q <- lift_result (QueryOp_init (Some dm) None None) ;;
       c <- get ;; on_redis (Query q None (wildcards c))
     else
       q <- lift_result (QueryOp_init (Some dm) (Some rtype) None) ;;
       c <- get ;; on_redis (Query q None (wildcards c))).
Proof.
  destruct (negb _); [by apply rs_ret|].
  destruct (String.eqb rtype "ANY");
    (apply rs_bind; [apply wrote_nothing_trans|by apply rs_lift|intros q];
     by apply fr_Query).
Qed.

Lemma map_LOG_body (l : list string) : Forall (λ l, body_line l = true) (map LOG_line l).
Proof. induction l; constructor; [apply body_line_LOG|done]. Qed.

Lemma EndReply_eq c :
  EndReply c = (Ok tt, set_outfile (outfile c ++ map LOG_line (log_buffer c) ++ ["END"])%list
                         (set_log_buffer [] c)).
Proof.
  unfold EndReply, bind, FlushLogBuffer, reply, modify, set_outfile, set_log_buffer.
  simpl. by rewrite <- app_assoc.
Qed.

(** What [Lookup] has written when it returns, and when it raises. *)
Lemma Lookup_shape env (query : list string) c (r : result unit) c' :
  Lookup env query c = (r, c') →
  match r with
  | Ok _ => ∃ (body : list string) (t : string),
      outfile c' = (outfile c ++ body ++ [t])%list
      ∧ Forall (λ l, body_line l = true) body
      ∧ (t = "END" ∨ t = "FAIL") ∧ log_buffer c' = []
  | Raised _ => wrote_body c c'
  end.
Proof.
  unfold Lookup.
  destruct query as [|a0 [|a1 [|a2 [|a3 [|a4 [|a5 [|a6 [|a7 l]]]]]]]];
    try (intros [= <- <-]; apply wrote_body_refl).
  unfold bind at 1.
  destruct (Lookup_local_ip env a6 c) as [[[]|e] c1] eqn:E1;
    pose proof (wn_Lookup_local_ip env a6 _ _ _ E1) as H1;
    [|intros [= <- <-]; by apply wrote_nothing_body].
  destruct (String.eqb a0 "Q").
  - unfold bind at 1.
    match goal with |- context [match ?m c1 with _ => _ end] =>
      destruct (m c1) as [[records|e] c2] eqn:E2 end;
      pose proof (wn_records env a1 a3 _ _ _ E2) as H2;
      [|intros [= <- <-]; apply wrote_nothing_body; by eapply wrote_nothing_trans].
    unfold bind at 1.
    destruct (Lookup_records env records c2) as [[[]|e] c3] eqn:E3;
      pose proof (wb_Lookup_records env records _ _ _ E3) as H3.
    + rewrite EndReply_eq. intros [= <- <-].
      pose proof (wrote_body_trans _ _ _
                    (wrote_nothing_body _ _ (wrote_nothing_trans _ _ _ H1 H2)) H3)
        as [Hl (body & Ho & Hb)].
      exists (body ++ map LOG_line (log_buffer c3))%list, "END". cbn.
      split; [by rewrite Ho, <- !app_assoc|]. split; [|by auto].
      apply Forall_app. split; [done|apply map_LOG_body].
    + intros [= <- <-]. eapply wrote_body_trans; [|exact H3].
      apply wrote_nothing_body. by eapply wrote_nothing_trans.
  - unfold bind, SendLog, FlushLogBuffer, reply, modify. intros [= <- <-]. cbn.
    destruct H1 as [Ho Hl]. eexists _, "FAIL". rewrite Ho. split; [by rewrite <- app_assoc|].
    split; [apply map_LOG_body|by auto].
Qed.

Lemma Run_request_shape env (line : string) c :
  ∃ (c' : Chatter) (body : list string) (t : string),
    Run_request env line c = (Ok tt, c')
    ∧ outfile c' = (outfile c ++ body ++ [t])%list
    ∧ Forall (λ l, body_line l = true) body
    ∧ (t = "END" ∨ t = "FAIL")
    ∧ log_buffer c' = [].
Proof.
  destruct (decide (length (PyStr.split_all TAB line) = 7%nat)) as [Hlen|Hlen].
  - destruct (Lookup env (PyStr.split_all TAB line) c) as [[[]|e] c1] eqn:HL;
      pose proof (Lookup_shape _ _ _ _ _ HL) as Hs.
    + destruct Hs as (body & t & Ho & Hb & Ht & Hl). exists c1, body, t.
      split; [|done]. unfold Run_request, try_except_Exception.
      apply Nat.eqb_eq in Hlen. by rewrite Hlen, HL.
    + destruct Hs as [Hl (body & Ho & Hb)].
      eexists _, (body ++ map LOG_line (log_buffer c1)
                       ++ [LOG_line ("Internal Error: " +:+ exn_str e)])%list, "FAIL".
      split; [by apply Run_request_raised|]. cbn.
      split; [by rewrite Ho, <- !app_assoc|]. split; [|by auto].
      apply Forall_app. split; [done|]. apply Forall_app.
      split; [apply map_LOG_body|constructor; [apply body_line_LOG|constructor]].
  - eexists _, (map LOG_line (log_buffer c) ++ [_])%list, "FAIL".
    split; [by apply Run_request_bad|]. cbn.
    split; [by rewrite <- !app_assoc|]. split; [|by auto].
    apply Forall_app. split; [apply map_LOG_body|constructor; [apply body_line_LOG|constructor]].
Qed.

End chatter_reply_shape.

Section chatter_replies.

Implicit Types (c : Chatter) (env : Env).

Lemma set_outfile_twice (l1 l2 : list string) c :
  set_outfile l2 (set_outfile l1 c) = set_outfile l2 c.
Proof. reflexivity. Qed.

Lemma set_outfile_same c : set_outfile (outfile c) c = c.
Proof. by destruct c. Qed.

Lemma mx_not_counter (r : Rec) :
  bool_decide (rec_type r ∈ ["MX"; "SRV"]) = true → is_counter_record r = false.
Proof.
  intros H%bool_decide_eq_true. unfold is_counter_record.
  apply elem_of_cons in H as [->|H]; [done|].
  apply elem_of_cons in H as [->|H]; [done|]. by apply elem_of_nil in H.
Qed.

(** One record of the loop, when no self-test is asked for and the local
    address is known. *)
Lemma Lookup_record_line env (r : Rec) c :
  truthy (local_ip c) = true → has_self_test r = false →
  Lookup_record env r c =
  (Ok tt, if is_counter_record r then c
          else set_outfile (outfile c ++ [reply_line (text (local_ip c)) r]) c).
Proof.
  intros Hip Hst. unfold Lookup_record, reply_line, has_self_test in *.
  destruct (bool_decide (rec_type r ∈ ["MX"; "SRV"])) eqn:Hmx.
  - by rewrite (mx_not_counter r Hmx).
  - unfold is_counter_record.
    destruct (String.eqb (rec_type r) "TXT" && String.eqb (rec_data r) "QC")%bool eqn:Hc.
    + apply andb_prop in Hc as [-> ->]. done.
    + replace (negb (String.eqb (rec_type r) "TXT") || negb (String.eqb (rec_data r) "QC"))%bool
        with true by (by destruct (String.eqb (rec_type r) "TXT"), (String.eqb (rec_data r) "QC")).
      unfold SendRecord. cbn [negb andb] in Hst.
      destruct (PyStr.startswith (rec_data r) MAGIC_SELF_IP); [|done].
      cbn [andb] in Hst. rewrite Hst. unfold bind, ret, get. by rewrite Hip.
Qed.

Lemma Lookup_records_lines env (records : list Rec) c :
  truthy (local_ip c) = true → Forall (λ r, has_self_test r = false) records →
  Lookup_records env records c =
  (Ok tt, set_outfile
            (outfile c ++ map (reply_line (text (local_ip c)))
                            (List.filter (λ r, negb (is_counter_record r)) records))%list c).
Proof.
  intros Hip Hall. revert c Hip.
  induction Hall as [|r rest Hr _ IH]; intros c Hip.
  - cbn. by rewrite app_nil_r, set_outfile_same.
  - cbn [Lookup_records List.filter]. unfold bind.
    rewrite (Lookup_record_line env r c Hip Hr).
    destruct (is_counter_record r); cbn [negb]; [by apply IH|].
    rewrite IH by done. cbn. by rewrite <- app_assoc.
Qed.

Lemma request_query_Ok (dm rtype : string) q :
  request_query dm rtype = Ok q → truthy (Some dm) = true.
Proof.
  unfold request_query, QueryOp_init.
  by destruct (String.eqb rtype "ANY"), (truthy (Some dm)).
Qed.

Lemma Lookup_reply_lines env c (dm qc rtype id rip lip : string) (q : QueryOp)
    (records : list Rec) (s' : Store) :
  truthy (local_ip c) = true →
  request_query dm rtype = Ok q →
  Query q None (wildcards c) (redis c) = (Ok records, s') →
  Forall (λ r, has_self_test r = false) records →
  ∃ c' : Chatter,
    Lookup env ["Q"; dm; qc; rtype; id; rip; lip] c = (Ok tt, c')
    ∧ outfile c' =
        (outfile c
         ++ map (reply_line (text (local_ip c)))
              (List.filter (λ r, negb (is_counter_record r)) records)
         ++ map LOG_line (log_buffer c) ++ ["END"])%list
    ∧ redis c' = s' ∧ log_buffer c' = [] ∧ local_ip c' = local_ip c.
Proof.
  intros Hip Hq HQ Hall.
  pose proof (request_query_Ok _ _ _ Hq) as Hdm.
  unfold Lookup. unfold bind at 1. unfold Lookup_local_ip, bind at 1, get at 1.
  rewrite Hip. cbn [negb ret]. cbn [String.eqb Ascii.eqb Bool.eqb]. rewrite Hdm. cbn [negb].
  unfold request_query in Hq. unfold bind at 1.
  assert ((if String.eqb rtype "ANY"
           then q0 <- lift_result (QueryOp_init (Some dm) None None) ;;
                c0 <- get ;; on_redis (Query q0 None (wildcards c0))
           else q0 <- lift_result (QueryOp_init (Some dm) (Some rtype) None) ;;
                c0 <- get ;; on_redis (Query q0 None (wildcards c0))) c
          = (Ok records, set_redis s' c)) as ->.
  { destruct (String.eqb rtype "ANY"); unfold bind, lift_result, get, on_redis;
      by rewrite Hq, HQ. }
  unfold bind. rewrite (Lookup_records_lines env records (set_redis s' c)) by done.
  rewrite EndReply_eq. eexists. split; [reflexivity|]. cbn.
  by rewrite <- app_assoc.
Qed.

(** X13.  The reply to a lookup.  For a Q request whose query returns
    records none of which asks for a self-test, made by a chatter that
    knows its local address: one DATA line per record, in the order of the
    result, the reserved TXT/QC record left out, MX and SRV data split into
    priority and target, data that begins with the self marker replaced by
    the local address; then the buffered log lines, then END.  The backend
    is left as the query left it. *)
Theorem X13_lookup_reply env c (dm qc rtype id rip lip : string) (q : QueryOp)
    (records : list Rec) (s' : Store) :
  truthy (local_ip c) = true →
  request_query dm rtype = Ok q →
  Query q None (wildcards c) (redis c) = (Ok records, s') →
  Forall (λ r, has_self_test r = false) records →
  ∃ c' : Chatter,
    Lookup env ["Q"; dm; qc; rtype; id; rip; lip] c = (Ok tt, c')
    ∧ outfile c' =
        (outfile c
         ++ map (reply_line (text (local_ip c)))
              (List.filter (λ r, negb (is_counter_record r)) records)
         ++ map LOG_line (log_buffer c) ++ ["END"])%list
    ∧ redis c' = s' ∧ log_buffer c' = [] ∧ local_ip c' = local_ip c.
Proof. apply Lookup_reply_lines. Qed.

Lemma X13_lookup_reply_witness :
  let c := set_local_ip (Some "5.6.7.8") (PdnsChatter_init counted_store false) in
  ∃ c' : Chatter,
    Lookup probe_env ["Q"; "a.com"; "IN"; "ANY"; "-1"; "1.2.3.4"; "5.6.7.8"] c = (Ok tt, c')
    ∧ outfile c' = ["DATA" +:+ TABS +:+ "a.com" +:+ TABS +:+ "IN" +:+ TABS +:+ "A"
                      +:+ TABS +:+ "300" +:+ TABS +:+ "-1" +:+ TABS +:+ "10.1.2.3";
                    "END"].
Proof.
  cbv zeta.
  destruct (X13_lookup_reply probe_env
              (set_local_ip (Some "5.6.7.8") (PdnsChatter_init counted_store false))
              "a.com" "IN" "ANY" "-1" "1.2.3.4" "5.6.7.8"
              (mkQueryOp "a.com" None None)
              (match (Query (mkQueryOp "a.com" None None) None false counted_store).1 with
               | Ok l => l
               | Raised _ => []
               end)
              (Query (mkQueryOp "a.com" None None) None false counted_store).2)
    as (c' & Hrun & Hout & _).
  - reflexivity.
  - reflexivity.
  - vm_compute. reflexivity.
  - vm_compute. repeat constructor.
  - exists c'. split; [exact Hrun|]. rewrite Hout. vm_compute. reflexivity.
Defined.

End chatter_replies.

Section chatter_edges.

Implicit Types (c : Chatter) (env : Env).

(** The chatter has changed nothing but, possibly, its local address. *)
Lemma Lookup_local_ip_frame env (l : string) c :
  ∃ c1, Lookup_local_ip env l c = (Ok tt, c1)
        ∧ outfile c1 = outfile c ∧ log_buffer c1 = log_buffer c ∧ redis c1 = redis c.
Proof.
  unfold Lookup_local_ip. unfold bind at 1. unfold get at 1.
  destruct (truthy (local_ip c)); cbn [negb]; [by eexists|].
  unfold bind at 1. rewrite SetLocalIp_eq. unfold bind, get.
  set (c1 := if adoptable l then _ else c).
  assert (outfile c1 = outfile c ∧ log_buffer c1 = log_buffer c ∧ redis c1 = redis c) as H1
    by (unfold c1; by destruct (adoptable l)).
  destruct (truthy (local_ip c1)); cbn [negb]; [by eexists|].
  destruct (host_addr env) as [a|]; cbn [SetLocalIp_try]; [|by eexists].
  rewrite SetLocalIp_eq. eexists. split; [done|]. by destruct (adoptable a).
Qed.

(** X14.  The two requests [Lookup] answers without asking the backend.
    A query type other than Q is answered by the buffered log lines, a log
    line that names the type, and FAIL, with no END.  A Q request for the
    empty domain is answered by the buffered log lines and END, with no
    DATA line.  Neither touches the backend. *)
Theorem X14_unsupported_type_and_empty_domain env c :
  (∀ qt dm qc rtype id rip lip : string,
     qt ≠ "Q" →
     ∃ c' : Chatter,
       Lookup env [qt; dm; qc; rtype; id; rip; lip] c = (Ok tt, c')
       ∧ outfile c' =
           (outfile c
            ++ map LOG_line (log_buffer c
                             ++ ["PowerDNS requested " +:+ qt +:+ ", we only do Q."])
            ++ ["FAIL"])%list
       ∧ log_buffer c' = [] ∧ redis c' = redis c)
  ∧ (∀ qc rtype id rip lip : string,
       ∃ c' : Chatter,
         Lookup env ["Q"; EmptyString; qc; rtype; id; rip; lip] c = (Ok tt, c')
         ∧ outfile c' = (outfile c ++ map LOG_line (log_buffer c) ++ ["END"])%list
         ∧ log_buffer c' = [] ∧ redis c' = redis c).
Proof.
  split.
  - intros qt dm qc rtype id rip lip Hqt.
    destruct (Lookup_local_ip_frame env lip c) as (c1 & H1 & Ho & Hl & Hr).
    unfold Lookup. unfold bind at 1. rewrite H1.
    apply String.eqb_neq in Hqt. rewrite Hqt.
    unfold bind, SendLog, FlushLogBuffer, reply, modify. eexists. split; [reflexivity|].
    cbn. rewrite Ho, Hl, Hr. by rewrite <- app_assoc.
  - intros qc rtype id rip lip.
    destruct (Lookup_local_ip_frame env lip c) as (c1 & H1 & Ho & Hl & Hr).
    unfold Lookup. unfold bind at 1. rewrite H1. cbn [String.eqb Ascii.eqb Bool.eqb].
    cbn [truthy negb]. unfold bind at 1. unfold ret at 1. unfold bind at 1.
    cbn [Lookup_records]. unfold ret at 1. rewrite EndReply_eq.
    eexists. split; [reflexivity|]. cbn. by rewrite Ho, Hl, Hr.
Qed.

Lemma X14_unsupported_type_and_empty_domain_witness :
  ∃ c' : Chatter,
    Lookup probe_env ["AXFR"; "a.com"; "IN"; "ANY"; "-1"; "1.2.3.4"; "5.6.7.8"] self_chatter
    = (Ok tt, c')
    ∧ outfile c' =
        (outfile self_chatter
         ++ map LOG_line (log_buffer self_chatter
                          ++ ["PowerDNS requested " +:+ "AXFR" +:+ ", we only do Q."])
         ++ ["FAIL"])%list
    ∧ log_buffer c' = [] ∧ redis c' = redis self_chatter.
Proof.
  apply (proj1 (X14_unsupported_type_and_empty_domain probe_env self_chatter)).
  discriminate.
Defined.

Lemma Run_loop_EOF env (infile : list string) c : (Run_loop env infile c).1 = IOError "EOF".
Proof.
  revert c. induction infile as [|line rest IH]; intros c; [done|].
  cbn [Run_loop readline]. destruct (String.length line =? 0)%nat; [done|].
  destruct (Run_request_total env (PyStr.strip line) c) as [c' ->]. apply IH.
Qed.

Lemma Run_loop_extends env (infile : list string) c :
  output_extends c (Run_loop env infile c).2.
Proof.
  revert c. induction infile as [|line rest IH]; intros c.
  - exists []. cbn. by rewrite app_nil_r.
  - cbn [Run_loop readline]. destruct (String.length line =? 0)%nat.
    + exists []. cbn. by rewrite app_nil_r.
    + destruct (Run_request_shape env (PyStr.strip line) c)
        as (c' & body & t & -> & Ho & _).
      destruct (IH c') as [more Hmore]. exists (body ++ [t] ++ more)%list.
      by rewrite Hmore, Ho, <- !app_assoc.
Qed.

(** X15.  The handshake.  When the first line, stripped, is not HELO, tab,
    2, [Run] writes FAIL and nothing else, reads one more line and exits
    with status 1; if there is no further line the exception is the
    [IOError] of the end of input instead.  When it is, the first line
    written is OK, tab, banner, everything written stays, and the run ends
    only with the [IOError] of the end of input. *)
Theorem X15_handshake env (line1 : string) (rest : list string) c :
  String.length line1 ≠ 0%nat →
  (PyStr.strip line1 ≠ "HELO" +:+ TABS +:+ "2" →
   Run env (line1 :: rest) c =
   (match rest with
    | line2 :: _ => if (String.length line2 =? 0)%nat then IOError "EOF" else SystemExit 1
    | [] => IOError "EOF"
    end, set_outfile (outfile c ++ ["FAIL"]) c))
  ∧ (PyStr.strip line1 = "HELO" +:+ TABS +:+ "2" →
     ∃ (c' : Chatter) (more : list string),
       Run env (line1 :: rest) c = (IOError "EOF", c')
       ∧ outfile c' = (outfile c ++ ("OK" +:+ TABS +:+ BANNER) :: more)%list).
Proof.
  intros Hlen. apply Nat.eqb_neq in Hlen. split.
  - intros Hne. apply String.eqb_neq in Hne.
    unfold Run. cbn [readline]. rewrite Hlen, Hne. cbn [negb].
    unfold reply, modify. destruct rest as [|line2 rest']; [done|]. cbn [readline].
    by destruct (String.length line2 =? 0)%nat.
  - intros Heq. apply String.eqb_eq in Heq.
    unfold Run. cbn [readline]. rewrite Hlen, Heq. cbn [negb].
    unfold bind at 1, reply at 1, modify. unfold bind, get.
    set (c1 := set_outfile _ c).
    assert (∃ c2, (if negb (truthy (local_ip c1)) then SlowGetOwnIp env else ret tt) c1
                  = (Ok tt, c2) ∧ outfile c2 = outfile c1) as (c2 & -> & Ho2).
    { destruct (truthy (local_ip c1)); cbn [negb]; [by eexists|].
      unfold SlowGetOwnIp. destruct (sock_addr env) as [a|]; cbn [SetLocalIp_try];
        [|by eexists].
      rewrite SetLocalIp_eq. eexists. split; [done|]. by destruct (adoptable a). }
    destruct (Run_loop_extends env rest c2) as [more Hmore].
    pose proof (Run_loop_EOF env rest c2) as He.
    destruct (Run_loop env rest c2) as [e c3]. cbn in He, Hmore. subst e.
    exists c3, more. split; [done|]. rewrite Hmore, Ho2. unfold c1. cbn.
    by rewrite <- app_assoc.
Qed.

Lemma X15_handshake_witness :
  Run probe_env [request ["HELO"; "3"]; request ["Q"; "a.com"]] self_chatter
  = (SystemExit 1, set_outfile ["FAIL"] self_chatter)
  ∧ ∃ (c' : Chatter) (more : list string),
      Run probe_env [request ["HELO"; "2"]; request ["Q"; "a.com"]] self_chatter
      = (IOError "EOF", c')
      ∧ outfile c' = ("OK" +:+ TABS +:+ BANNER) :: more.
Proof.
  destruct (X15_handshake probe_env (request ["HELO"; "3"]) [request ["Q"; "a.com"]]
              self_chatter) as [Hbad _]; [vm_compute; discriminate|].
  destruct (X15_handshake probe_env (request ["HELO"; "2"]) [request ["Q"; "a.com"]]
              self_chatter) as [_ Hgood]; [vm_compute; discriminate|].
  split.
  - apply Hbad. vm_compute. discriminate.
  - apply Hgood. vm_compute. reflexivity.
Defined.

End chatter_edges.

(* ===================================================================== *)
(** ** The main loop over a whole input *)
(* ===================================================================== *)

Section main_loop.

Implicit Types (c : Chatter) (env : Env).




(** The loop on these two requests, written out: the malformed line and
    the request that raises are each answered by a log line and FAIL. *)
Example C5_both_errors_answered :
  outfile (Run_loop probe_env
             [request ["Q"; "example.com"];
              request ["Q"; "self.example.com"; "IN"; "A"; "-1"; "1.2.3.4"; "5.6.7.8"]]
             self_chatter).2
  = [LOG_line "PowerDNS sent bad request: ['Q', 'example.com']"; "FAIL";
     LOG_line "Internal Error: global name 'want' is not defined"; "FAIL"].
Proof. vm_compute. reflexivity. Qed.

End main_loop.

Section chatter_formats.

Implicit Types (c : Chatter) (env : Env).

Lemma drop_srv_sep_app (seps target : string) :
  all_chars is_srv_sep seps = true → no_leading_sep target = true →
  drop_srv_sep (seps +:+ target) = target.
Proof.
  intros Hs Ht. induction seps as [|a r IH]; simpl in *.
  - destruct target as [|b t]; [done|]. simpl in *.
    by destruct (is_srv_sep b).
  - apply andb_prop in Hs as [-> Hr]. by apply IH.
Qed.

Lemma SRV_SPLIT_split1_app (prio seps target : string) :
  all_chars (λ ch, negb (is_srv_sep ch)) prio = true →
  seps ≠ EmptyString → all_chars is_srv_sep seps = true →
  no_leading_sep target = true →
  SRV_SPLIT_split1 (prio +:+ seps +:+ target) = [prio; target].
Proof.
  intros Hp Hne Hs Ht. induction prio as [|a r IH]; simpl in *.
  - destruct seps as [|b seps']; [done|]. simpl in *.
    apply andb_prop in Hs as [-> Hs]. by rewrite drop_srv_sep_app.
  - apply andb_prop in Hp as [Ha Hr]. apply negb_true_iff in Ha. rewrite Ha.
    by rewrite IH.
Qed.

Lemma SRV_SPLIT_split1_none (data : string) :
  all_chars (λ ch, negb (is_srv_sep ch)) data = true → SRV_SPLIT_split1 data = [data].
Proof.
  induction data as [|a r IH]; [done|]. simpl.
  intros [Ha Hr]%andb_prop. apply negb_true_iff in Ha. by rewrite Ha, IH.
Qed.

(** X16.  MX and SRV records.  Data made of a priority without whitespace
    or comma, a run of whitespace and commas, and a target is emitted with
    priority and target as two tab-separated fields; only the first run
    separates, so whatever separators the target holds stay in it.  Data
    without any whitespace or comma is emitted as one field. *)
Theorem X16_mx_priority_and_target env c (d rtype t prio seps target : string) :
  rtype ∈ ["MX"; "SRV"] →
  all_chars (λ ch, negb (is_srv_sep ch)) prio = true →
  (seps ≠ EmptyString → all_chars is_srv_sep seps = true →
   no_leading_sep target = true →
   Lookup_record env (d, rtype, t, prio +:+ seps +:+ target) c =
   (Ok tt, set_outfile (outfile c ++ [DATA_line d rtype t (prio +:+ TABS +:+ target)]) c))
  ∧ Lookup_record env (d, rtype, t, prio) c =
    (Ok tt, set_outfile (outfile c ++ [DATA_line d rtype t prio]) c).
Proof.
  intros Hty Hp. unfold Lookup_record, rec_type, rec_data, rec_domain, rec_ttl.
  cbn [fst snd]. rewrite bool_decide_eq_true_2 by done. split.
  - intros Hne Hs Ht. by rewrite SRV_SPLIT_split1_app.
  - by rewrite SRV_SPLIT_split1_none.
Qed.

Lemma X16_mx_priority_and_target_witness :
  Lookup_record probe_env
    ("example.com", "SRV", "60", "0" +:+ ", " +:+ "5 5060 sip.example.com.") self_chatter
  = (Ok tt, set_outfile
              [DATA_line "example.com" "SRV" "60" ("0" +:+ TABS +:+ "5 5060 sip.example.com.")]
              self_chatter).
Proof.
  apply (proj1 (X16_mx_priority_and_target probe_env self_chatter "example.com" "SRV" "60"
                  "0" ", " "5 5060 sip.example.com."
                  ltac:(apply elem_of_cons; right; apply elem_of_cons; by left) eq_refl));
    [discriminate|reflexivity|reflexivity].
Defined.

Lemma set_magic_tests_same c : set_magic_tests (magic_tests c) c = c.
Proof. by destruct c. Qed.

(** X17.  The self-test cache of [MagicTest] (clock readings in seconds).
    A verdict recorded at most 60 seconds ago is used as it is: the URL is
    not fetched, the cache is not changed, and the call raises exactly when
    the recorded verdict is a failure.  A verdict older than that is
    replaced: the URL is fetched, the entry becomes the current time with
    the new verdict (the text behind the URL begins with the expected
    prefix; a fetch that fails counts as a failure), and the call raises
    exactly when the new verdict is a failure. *)
Theorem X17_magic_test_cache env (want url : string) c (t : Z) (ok : bool) :
  magic_tests c !! url = Some (mkMagicResult (Some t) (Some ok)) →
  let failure := ValueError ("Failed self-test " +:+ want +:+ " != " +:+ url) in
  let verdict := match urlopen env url with
                 | Some tdata => PyStr.startswith tdata want
                 | None => false
                 end in
  (clock env - MAGIC_TEST_VALIDITY ≤ t →
   MagicTest env want url c = (if ok then Ok tt else Raised failure, c))
  ∧ (t < clock env - MAGIC_TEST_VALIDITY →
     MagicTest env want url c =
     (if verdict then Ok tt else Raised failure,
      set_magic_tests
        (<[url := mkMagicResult (Some (clock env)) (Some verdict)]> (magic_tests c)) c)).
Proof.
  intros Hc failure verdict. unfold MagicTest, bind, get, modify, raise, ret.
  rewrite Hc. cbn [default from_option id mt_time mt_ok]. split.
  - intros Hfresh. apply Z.ltb_ge in Hfresh. rewrite Hfresh. cbn [mt_ok default from_option id].
    rewrite insert_id by done. rewrite set_magic_tests_same. by destruct ok.
  - intros Hstale. apply Z.ltb_lt in Hstale. rewrite Hstale.
    cbn [mt_ok default from_option id]. fold verdict. by destruct verdict.
Qed.

Lemma X17_magic_test_cache_witness :
  let c := set_magic_tests {[ "http://probe.example/" := mkMagicResult (Some 950) (Some false) ]}
             self_chatter in
  MagicTest probe_env "OK" "http://probe.example/" c
  = (Raised (ValueError "Failed self-test OK != http://probe.example/"), c).
Proof.
  cbv zeta.
  destruct (X17_magic_test_cache probe_env "OK" "http://probe.example/"
              (set_magic_tests
                 {[ "http://probe.example/" := mkMagicResult (Some 950) (Some false) ]}
                 self_chatter) 950 false) as [Hfresh _].
  - vm_compute. reflexivity.
  - apply Hfresh. vm_compute. discriminate.
Defined.

End chatter_formats.

(* ===================================================================== *)
(** ** Properties of the scalar, set and list operations of MockRedis *)
(* ===================================================================== *)

Section mock_data_properties.

Implicit Types (d : MockData.Data) (key member : string) (v : MockData.PyVal).

(** X18.  [setnx] is first-writer-wins.  On a free key it stores the
    encoded value and returns the value; as long as the key is there a
    further [setnx] returns None and changes nothing, whatever it offers,
    while [set] overwrites; [delete] answers True and gives back the data as
    they were, and a second [delete] answers False. *)
Theorem X18_setnx_first_writer_wins key (v1 v2 : MockData.PyVal) d :
  d !! key = None →
  let d1 := (MockData.setnx key v1 d).2 in
  (MockData.setnx key v1 d).1 = Some v1
  ∧ MockData.get key d1 = Some (MockData.EVal (MockData.VStr (MockData.encode v1)))
  ∧ MockData.setnx key v2 d1 = (None, d1)
  ∧ MockData.get key (MockData.set key v2 d1).2
    = Some (MockData.EVal (MockData.VStr (MockData.encode v2)))
  ∧ MockData.delete key d1 = (true, d)
  ∧ MockData.delete key d = (false, d).
Proof.
  intros Hd d1. unfold d1, MockData.setnx, MockData.get, MockData.set, MockData.delete.
  rewrite Hd. cbn [fst snd]. rewrite !lookup_insert_eq.
  repeat split. by rewrite delete_insert_id.
Qed.

Lemma X18_setnx_first_writer_wins_witness :
  let d1 := (MockData.setnx "lock" (MockData.VInt 7) ∅).2 in
  MockData.get "lock" d1 = Some (MockData.EVal (MockData.VStr "7"))
  ∧ MockData.setnx "lock" (MockData.VStr "other") d1 = (None, d1).
Proof.
  cbv zeta.
  destruct (X18_setnx_first_writer_wins "lock" (MockData.VInt 7) (MockData.VStr "other") ∅
              (lookup_empty _)) as (_ & H2 & H3 & _).
  exact (conj H2 H3).
Defined.

Lemma int_of_val_str (n : Z) :
  MockData.int_of_val (MockData.VStr (MockData.encode (MockData.VInt n)))
  = MockData.Returned n.
Proof. unfold MockData.int_of_val, MockData.encode. by rewrite int_str. Qed.

Lemma incrby_on_count key (n : Z) (val : MockData.PyVal) (m : Z) d :
  d !! key = Some (MockData.EVal (MockData.VStr (PyStr.str n))) →
  MockData.int_of_val val = MockData.Returned m →
  MockData.incrby key val d
  = (MockData.Returned (n + m),
     <[key := MockData.EVal (MockData.VStr (PyStr.str (n + m)))]> d).
Proof.
  intros Hd Hv. unfold MockData.incrby, MockData.init_zero, MockData.entry_or_zero.
  rewrite Hd. cbn [default from_option id MockData.int_of_entry MockData.int_of_val].
  rewrite int_str, Hv. unfold MockData.store_count. by rewrite int_of_val_str.
Qed.

Lemma incr_on_count key (n : Z) d :
  d !! key = Some (MockData.EVal (MockData.VStr (PyStr.str n))) →
  MockData.incr key d
  = (MockData.Returned (n + 1),
     <[key := MockData.EVal (MockData.VStr (PyStr.str (n + 1)))]> d).
Proof.
  intros Hd. unfold MockData.incr, MockData.init_zero, MockData.entry_or_zero.
  rewrite Hd. cbn [default from_option id MockData.int_of_entry MockData.int_of_val].
  rewrite int_str. unfold MockData.store_count. by rewrite int_of_val_str.
Qed.

Lemma incr_on_missing key d :
  d !! key = None →
  MockData.incr key d
  = (MockData.Returned 1, <[key := MockData.EVal (MockData.VStr (PyStr.str 1))]> d).
Proof.
  intros Hd. unfold MockData.incr, MockData.init_zero, MockData.entry_or_zero.
  rewrite Hd. cbn [default from_option id MockData.int_of_entry MockData.int_of_val].
  unfold MockData.store_count. by rewrite int_of_val_str, insert_insert_eq.
Qed.

Lemma incr_n_on_count key (k : nat) (n : Z) d :
  d !! key = Some (MockData.EVal (MockData.VStr (PyStr.str n))) →
  MockData.incr_n key k d
  = <[key := MockData.EVal (MockData.VStr (PyStr.str (n + Z.of_nat k)))]> d.
Proof.
  revert n d. induction k as [|k IH]; intros n d Hd.
  - cbn. by rewrite Z.add_0_r, insert_id.
  - cbn [MockData.incr_n]. rewrite (incr_on_count key n d Hd). cbn [snd].
    rewrite (IH (n + 1)) by apply lookup_insert_eq. rewrite insert_insert_eq.
    do 4 f_equal. lia.
Qed.

(** X19.  Counting from a key that does not exist.  The first [incr]
    answers 1 and each further one the next number, the key holding its
    decimal text; two [incrby] add up like one; and an [incrby] whose amount
    is no integer raises [ValueError] but has already put the integer 0
    under the key, so the key exists afterwards and the next [incr]
    answers 1. *)
Theorem X19_incr_counts key d :
  d !! key = None →
  (∀ n : nat,
     MockData.incr key (MockData.incr_n key n d)
     = (MockData.Returned (Z.of_nat n + 1),
        <[key := MockData.EVal (MockData.VStr (PyStr.str (Z.of_nat n + 1)))]> d))
  ∧ (∀ a b : Z,
       MockData.incrby key (MockData.VInt b)
         (MockData.incrby key (MockData.VInt a) d).2
       = (MockData.Returned (a + b),
          <[key := MockData.EVal (MockData.VStr (PyStr.str (a + b)))]> d))
  ∧ (∀ junk : string,
       PyStr.int junk = None →
       MockData.incrby key (MockData.VStr junk) d
       = (MockData.Failed MockData.PyValueError,
          <[key := MockData.EVal (MockData.VInt 0)]> d)
       ∧ MockData.incr key (<[key := MockData.EVal (MockData.VInt 0)]> d)
         = (MockData.Returned 1,
            <[key := MockData.EVal (MockData.VStr (PyStr.str 1))]> d)).
Proof.
  intros Hd. split; [|split].
  - intros [|n].
    + cbn [MockData.incr_n]. by rewrite incr_on_missing.
    + cbn [MockData.incr_n]. rewrite (incr_on_missing key d Hd). cbn [snd].
      rewrite (incr_n_on_count key n 1) by apply lookup_insert_eq.
      rewrite insert_insert_eq.
      rewrite (incr_on_count key (1 + Z.of_nat n)) by apply lookup_insert_eq.
      rewrite insert_insert_eq. do 5 f_equal; lia.
  - intros a b.
    assert (MockData.incrby key (MockData.VInt a) d
            = (MockData.Returned a,
               <[key := MockData.EVal (MockData.VStr (PyStr.str a))]> d)) as ->.
    { unfold MockData.incrby, MockData.init_zero, MockData.entry_or_zero. rewrite Hd.
      cbn [default from_option id MockData.int_of_entry MockData.int_of_val].
      unfold MockData.store_count. by rewrite int_of_val_str, insert_insert_eq. }
    cbn [snd]. rewrite (incrby_on_count key a (MockData.VInt b) b)
      by (done || apply lookup_insert_eq).
    by rewrite insert_insert_eq.
  - intros junk Hj. split.
    + unfold MockData.incrby, MockData.init_zero, MockData.entry_or_zero. rewrite Hd.
      cbn [default from_option id MockData.int_of_entry MockData.int_of_val].
      by rewrite Hj.
    + unfold MockData.incr, MockData.init_zero, MockData.entry_or_zero.
      rewrite lookup_insert_eq.
      cbn [default from_option id MockData.int_of_entry MockData.int_of_val].
      unfold MockData.store_count. by rewrite int_of_val_str, insert_insert_eq.
Qed.

Lemma X19_incr_counts_witness :
  MockData.incr "hits" (MockData.incr_n "hits" 2 ∅)
  = (MockData.Returned 3, {[ "hits" := MockData.EVal (MockData.VStr "3") ]})
  ∧ MockData.incrby "hits" (MockData.VStr "many") ∅
    = (MockData.Failed MockData.PyValueError,
       {[ "hits" := MockData.EVal (MockData.VInt 0) ]}).
Proof.
  destruct (X19_incr_counts "hits" ∅ (lookup_empty _)) as (Hn & _ & Hj).
  split.
  - apply (Hn 2%nat).
  - apply (Hj "many" eq_refl).
Defined.

End mock_data_properties.

Section mock_data_collections.

Implicit Types (d : MockData.Data) (key member : string) (l xs : list MockData.PyVal).

Lemma lpush_on_list key (x : MockData.PyVal) l d :
  d !! key = Some (MockData.EList l) →
  MockData.lpush key x d
  = (MockData.Returned true, <[key := MockData.EList (l ++ [x])%list]> d).
Proof. intros Hd. unfold MockData.lpush. by rewrite Hd. Qed.

Lemma lpush_all_on_list key xs l d :
  d !! key = Some (MockData.EList l) →
  MockData.lpush_all key xs d = <[key := MockData.EList (l ++ xs)%list]> d.
Proof.
  revert l d. induction xs as [|x xs IH]; intros l d Hd.
  - cbn. by rewrite app_nil_r, insert_id.
  - cbn [MockData.lpush_all]. rewrite (lpush_on_list key x l d Hd). cbn [snd].
    rewrite (IH (l ++ [x])%list) by apply lookup_insert_eq.
    by rewrite insert_insert_eq, <- app_assoc.
Qed.

Lemma lpop_n_on_list key l d :
  MockData.lpop_n key (length l) (<[key := MockData.EList l]> d)
  = (MockData.Returned <$> l, <[key := MockData.EList []]> d).
Proof.
  induction l as [|x l IH]; [done|].
  cbn [length MockData.lpop_n]. unfold MockData.lpop.
  rewrite lookup_insert_eq. cbn [fst snd]. rewrite insert_insert_eq, IH. done.
Qed.

(** X20.  The list operations make a first-in, first-out queue: [lpush]
    appends at the end and [lpop] takes from the front.  After pushing the
    values of a non-empty list, in order, on a key that did not exist,
    [llen] is their number and that many [lpop] return them in the order
    they were pushed, leaving the empty list under the key; one more [lpop]
    raises [IndexError], and [lpop] of a key that does not exist raises
    [KeyError]. *)
Theorem X20_list_is_a_queue key xs d :
  d !! key = None → xs ≠ [] →
  let d1 := MockData.lpush_all key xs d in
  MockData.llen key d1 = MockData.Returned (Z.of_nat (length xs))
  ∧ MockData.lpop_n key (length xs) d1
    = (MockData.Returned <$> xs, <[key := MockData.EList []]> d)
  ∧ MockData.lpop key (<[key := MockData.EList []]> d)
    = (MockData.Failed MockData.PyIndexError, <[key := MockData.EList []]> d)
  ∧ MockData.lpop key d = (MockData.Failed MockData.PyKeyError, d).
Proof.
  intros Hd Hxs d1.
  assert (d1 = <[key := MockData.EList xs]> d) as ->.
  { unfold d1. destruct xs as [|x xs]; [done|]. cbn [MockData.lpush_all].
    unfold MockData.lpush. rewrite Hd. cbn [default from_option id snd].
    rewrite insert_insert_eq.
    rewrite (lpush_all_on_list key xs [x]) by apply lookup_insert_eq.
    by rewrite insert_insert_eq. }
  split; [|split; [|split]].
  - unfold MockData.llen. by rewrite lookup_insert_eq.
  - apply lpop_n_on_list.
  - unfold MockData.lpop. by rewrite lookup_insert_eq.
  - unfold MockData.lpop. by rewrite Hd.
Qed.

Lemma X20_list_is_a_queue_witness :
  let xs := [MockData.VStr "first"; MockData.VStr "second"; MockData.VInt 3] in
  MockData.lpop_n "jobs" 3 (MockData.lpush_all "jobs" xs ∅)
  = (MockData.Returned <$> xs, {[ "jobs" := MockData.EList [] ]}).
Proof.
  cbv zeta.
  apply (X20_list_is_a_queue "jobs"
           [MockData.VStr "first"; MockData.VStr "second"; MockData.VInt 3] ∅
           (lookup_empty _)).
  discriminate.
Defined.

(** X21.  [sadd] and [srem] keep a set as the keys of a dict.  On a key
    that holds a dict, [sadd] answers True and adds the member (adding it
    again changes nothing more), [srem] of a member answers True and removes
    it, and [srem] of what is no member answers False and changes nothing;
    on a key that holds a text, [sadd] raises [TypeError] and changes
    nothing. *)
Theorem X21_sadd_srem key member d (m : gmap string MockData.PyVal) :
  d !! key = Some (MockData.EDict m) →
  let d1 := (MockData.sadd key member d).2 in
  MockData.sadd key member d
  = (MockData.Returned true,
     <[key := MockData.EDict (<[member := MockData.VInt 1]> m)]> d)
  ∧ MockData.sadd key member d1 = (MockData.Returned true, d1)
  ∧ MockData.srem key member d1
    = (MockData.Returned true, <[key := MockData.EDict (base.delete member m)]> d)
  ∧ MockData.srem key member (MockData.srem key member d1).2
    = (MockData.Returned false, <[key := MockData.EDict (base.delete member m)]> d)
  ∧ (∀ (k : string) (s : string),
       d !! k = Some (MockData.EVal (MockData.VStr s)) →
       MockData.sadd k member d = (MockData.Failed MockData.PyTypeError, d)).
Proof.
  intros Hd d1.
  assert (MockData.sadd key member d
          = (MockData.Returned true,
             <[key := MockData.EDict (<[member := MockData.VInt 1]> m)]> d)) as Hadd.
  { unfold MockData.sadd. by rewrite Hd. }
  unfold d1. rewrite Hadd. cbn [snd]. split; [done|]. split; [|split; [|split]].
  - unfold MockData.sadd. rewrite lookup_insert_eq. cbn [default from_option id].
    by rewrite !insert_insert_eq.
  - unfold MockData.srem. rewrite lookup_insert_eq, lookup_insert_eq.
    by rewrite insert_insert_eq, delete_insert_eq.
  - unfold MockData.srem at 2. rewrite lookup_insert_eq, lookup_insert_eq. cbn [snd].
    rewrite insert_insert_eq, delete_insert_eq.
    unfold MockData.srem. by rewrite lookup_insert_eq, lookup_delete_eq.
  - intros k s Hk. unfold MockData.sadd. by rewrite Hk.
Qed.

Lemma X21_sadd_srem_witness :
  let d := {[ "tags" := MockData.EDict {[ "a" := MockData.VInt 1 ]} ]} in
  MockData.srem "tags" "b" (MockData.sadd "tags" "b" d).2
  = (MockData.Returned true,
     <[ "tags" := MockData.EDict (base.delete "b" {[ "a" := MockData.VInt 1 ]}) ]> d).
Proof.
  cbv zeta.
  destruct (X21_sadd_srem "tags" "b"
              {[ "tags" := MockData.EDict {[ "a" := MockData.VInt 1 ]} ]}
              {[ "a" := MockData.VInt 1 ]}) as (_ & _ & H3 & _).
  - apply lookup_singleton_eq.
  - exact H3.
Defined.

End mock_data_collections.

(* ===================================================================== *)
(** ** Properties of GetPass *)
(* ===================================================================== *)

Section getpass_properties.

Lemma rstrip_spaces (z : string) :
  all_chars PyStr.is_space z = true → PyStr.rstrip z = EmptyString.
Proof.
  induction z as [|a z IH]; [done|]. simpl.
  intros [Ha Hz]%andb_prop. by rewrite (IH Hz), Ha.
Qed.

Lemma rstrip_app_spaces (y z : string) :
  all_chars PyStr.is_space z = true → PyStr.rstrip (y +:+ z) = PyStr.rstrip y.
Proof.
  intros Hz. induction y as [|c y IH].
  - simpl. by apply rstrip_spaces.
  - simpl. by rewrite IH.
Qed.

Lemma rstrip_app_kept (x y : string) :
  PyStr.rstrip y ≠ EmptyString → PyStr.rstrip (x +:+ y) = x +:+ PyStr.rstrip y.
Proof.
  intros Hy. induction x as [|c x IH]; [done|]. simpl. rewrite IH.
  change (String c x +:+ PyStr.rstrip y) with (String c (x +:+ PyStr.rstrip y)).
  destruct (x +:+ PyStr.rstrip y) eqn:E; [|done].
  destruct x; [|done]. simpl in E. done.
Qed.

Lemma GetPass_skips (pre rest : list string) :
  Forall (λ l, no_pass_line l = true) pre → GetPass (pre ++ rest) = GetPass rest.
Proof.
  induction 1 as [|l pre Hl _ IH]; [done|]. simpl.
  unfold no_pass_line in Hl. apply negb_true_iff in Hl. by rewrite Hl.
Qed.

(** X22.  [GetPass] is decided by the first line of the file that begins
    with [requirepass] or [pass]; the lines before it are passed over and
    the lines after it are not looked at.  From that line, stripped, it
    returns what follows the first space, inner and leading spaces
    included; if the stripped line holds no space it raises [ValueError],
    even when a later line is well formed; and a file without such a line
    gives None. *)
Theorem X22_GetPass_first_line_decides (pre post : list string) (kw pw : string) :
  Forall (λ l, no_pass_line l = true) pre →
  kw ∈ ["requirepass"; "pass"] →
  (pw ≠ EmptyString → PyStr.rstrip pw = pw →
   GetPass (pre ++ (kw +:+ " " +:+ pw +:+ NLS) :: post) = Ok (Some pw))
  ∧ GetPass (pre ++ (kw +:+ NLS) :: post)
    = Raised (ValueError "need more than 1 value to unpack")
  ∧ GetPass pre = Ok None.
Proof.
  intros Hpre Hkw.
  assert (kw = "requirepass" ∨ kw = "pass") as Hk.
  { apply elem_of_cons in Hkw as [->|Hkw]; [by left|].
    apply elem_of_cons in Hkw as [->|Hkw]; [by right|]. by apply elem_of_nil in Hkw. }
  split; [|split].
  - intros Hne Hpw. rewrite (GetPass_skips pre _ Hpre). cbn [GetPass].
    assert (PyStr.strip (kw +:+ " " +:+ pw +:+ NLS) = kw +:+ " " +:+ pw) as Hstrip.
    { unfold PyStr.strip.
      assert (PyStr.lstrip (kw +:+ " " +:+ pw +:+ NLS) = kw +:+ " " +:+ pw +:+ NLS) as ->
        by (by destruct Hk as [-> | ->]).
      replace (kw +:+ " " +:+ pw +:+ NLS) with ((kw +:+ " ") +:+ (pw +:+ NLS))
        by (by destruct Hk as [-> | ->]).
      rewrite rstrip_app_kept.
      - rewrite (rstrip_app_spaces pw NLS eq_refl), Hpw. by destruct Hk as [-> | ->].
      - by rewrite (rstrip_app_spaces pw NLS eq_refl), Hpw. }
    rewrite Hstrip.
    assert ((PyStr.startswith (kw +:+ " " +:+ pw +:+ NLS) "requirepass"
             || PyStr.startswith (kw +:+ " " +:+ pw +:+ NLS) "pass")%bool = true) as ->
      by (by destruct Hk as [-> | ->]).
    rewrite unpack2_split1.
    change (kw +:+ " " +:+ pw) with (kw +:+ String " " pw).
    rewrite find_sep_app; [done|by destruct Hk as [-> | ->]].
  - rewrite (GetPass_skips pre _ Hpre). by destruct Hk as [-> | ->].
  - rewrite <- (app_nil_r pre). by rewrite (GetPass_skips pre [] Hpre).
Qed.

Lemma X22_GetPass_first_line_decides_witness :
  GetPass ["# redis.conf" +:+ NLS; "port 6379" +:+ NLS;
           "requirepass" +:+ " " +:+ "s3cret phrase" +:+ NLS;
           "pass" +:+ " " +:+ "other" +:+ NLS]
  = Ok (Some "s3cret phrase").
Proof.
  apply (proj1 (X22_GetPass_first_line_decides
                  ["# redis.conf" +:+ NLS; "port 6379" +:+ NLS]
                  ["pass" +:+ " " +:+ "other" +:+ NLS]
                  "requirepass" "s3cret phrase"
                  ltac:(repeat constructor)
                  ltac:(apply elem_of_cons; by left)));
    [discriminate|reflexivity].
Defined.

End getpass_properties.

Section wildcard_of_wildcard.

Implicit Types (s : Store) (h : Hash) (q : QueryOp) (c : Chatter) (env : Env).

(** X23.  The fallback of a name that is itself a wildcard.  When the first
    label of the queried domain is the marker, [WildQuery] drops it and
    splits again: [*.sub.dom] falls back to [*.dom], one level further up
    than the fallback of an ordinary name, and returns the fields of
    [*.dom] that the filters select, labelled with the queried domain; a
    wildcard of a single label ([*.tld]) has nothing to fall back to. *)
Theorem X23_wildcard_of_a_wildcard s q :
  hash_at (key_of q) s = ∅ →
  (∀ (sub dm : string) h (e v rt rd : string),
     domain q = "*." +:+ sub +:+ "." +:+ dm → PyStr.contains "." sub = false →
     s !! (REDIS_PREFIX +:+ "*." +:+ dm) = Some h → hash_wf h →
     h !! e = Some v → decode_field e = Some (rt, rd) → selects q rt rd = true →
     ∃ (rv : list Rec) (s' : Store),
       Query q None true s = (Ok rv, s') ∧ (domain q, rt, v, rd) ∈ rv)
  ∧ (∀ tld : string,
       domain q = "*." +:+ tld → PyStr.contains "." tld = false →
       Query q None true s = (Ok [], s)).
Proof.
  intros He. split.
  - intros sub dm h e v rt rd Hd Hsub Hh Hwf Hev Hdec Hsel.
    unfold Query. rewrite Query_with_unfold, py_or_None. cbv zeta.
    fold (key_of q). rewrite He, Query_found_empty, Hd, WildQuery_unfold.
    change (PyStr.find_sep "." ("*." +:+ sub +:+ "." +:+ dm))
      with (Some ("*", sub +:+ String "." dm)).
    cbn [String.eqb Ascii.eqb Bool.eqb]. rewrite find_sep_app by done.
    unfold Query_nowild. rewrite Query_with_unfold, py_or_wild. cbv zeta.
    rewrite (hash_at_Some _ _ _ Hh).
    destruct (Query_found_total q h Hwf) as [rv Hrv]. rewrite Hrv.
    pose proof (Query_found_selects _ _ _ _ _ _ _ Hrv Hev Hdec Hsel) as Hin.
    rewrite Hd in Hin.
    destruct rv as [|r rv]; [by apply elem_of_nil in Hin|].
    pose proof (hincrby_counter (REDIS_PREFIX +:+ "*." +:+ dm) s) as Hc.
    rewrite (hash_at_Some _ _ _ Hh) in Hc.
    destruct (hash_wf_counter h Hwf) as [n Hn]. rewrite Hn in Hc. rewrite Hc.
    by eexists _, _.
  - intros tld Hd Htld.
    unfold Query. rewrite Query_with_unfold, py_or_None. cbv zeta.
    fold (key_of q). rewrite He, Query_found_empty, Hd, WildQuery_unfold.
    change (PyStr.find_sep "." ("*." +:+ tld)) with (Some ("*", tld)).
    cbn [String.eqb Ascii.eqb Bool.eqb].
    unfold PyStr.contains in Htld. by destruct (PyStr.find_sep "." tld).
Qed.

Lemma X23_wildcard_of_a_wildcard_witness :
  (∃ (rv : list Rec) (s' : Store),
     Query (mkQueryOp "*.b.c.d" None None) None true deep_store = (Ok rv, s')
     ∧ ("*.b.c.d", "A", "300", "10.1.2.3") ∈ rv)
  ∧ Query (mkQueryOp "*.d" None None) None true deep_store = (Ok [], deep_store).
Proof.
  split.
  - destruct (X23_wildcard_of_a_wildcard deep_store (mkQueryOp "*.b.c.d" None None))
      as [H _]; [vm_compute; reflexivity|].
    apply (H "b" "c.d" (list_to_map [("A" +:+ TABS +:+ "10.1.2.3", "300")])
             ("A" +:+ TABS +:+ "10.1.2.3") "300" "A" "10.1.2.3");
      [reflexivity | reflexivity | vm_compute; reflexivity
      | apply (bool_decide_unpack _); vm_compute; exact I
      | vm_compute; reflexivity | reflexivity | reflexivity].
  - destruct (X23_wildcard_of_a_wildcard deep_store (mkQueryOp "*.d" None None))
      as [_ H]; [vm_compute; reflexivity|].
    apply (H "d"); reflexivity.
Defined.

Lemma body_line_not_terminator (l : string) :
  body_line l = true → is_terminator l = false.
Proof.
  unfold is_terminator. intros Hb.
  destruct (String.eqb_spec l "END") as [->|_]; [done|].
  by destruct (String.eqb_spec l "FAIL") as [->|_].
Qed.

Lemma count_body (body : list string) :
  Forall (λ l, body_line l = true) body → List.filter is_terminator body = [].
Proof.
  induction 1 as [|l body Hl _ IH]; [done|]. cbn [List.filter].
  by rewrite (body_line_not_terminator l Hl).
Qed.

End wildcard_of_wildcard.

Section end_to_end.

Implicit Types (s : Store) (h : Hash) (q : QueryOp) (c : Chatter) (env : Env).

Lemma AddOp_init_valid (d rtype dat : option string) (spec : string) (a : AddOp) :
  AddOp_init d rtype dat spec = Ok a → text (record (add_query a)) ∈ VALID_RECORDS.
Proof.
  unfold AddOp_init. destruct (QueryOp_init d rtype dat) as [q|]; [|done].
  case_bool_decide as Hrec; [|done]. cbn [negb].
  destruct (truthy (data q)); [|done]. cbn [negb].
  destruct (AddOp_seconds spec); [|done]. intros [= <-]. cbn [add_query].
  apply list_elem_of_fmap in Hrec as (r & -> & Hr). done.
Qed.

Lemma valid_record_no_tab (r : string) :
  r ∈ VALID_RECORDS → PyStr.contains TAB r = false ∧ r ≠ "SRV" ∧ r ≠ "ANY".
Proof.
  unfold VALID_RECORDS. rewrite !elem_of_cons, elem_of_nil.
  intros H. repeat (destruct H as [->|H]; [done|]). done.
Qed.

(** X25.  End to end: add on an empty store, then the lookup of the same
    domain and type through the pipe protocol.  For a record that is not
    MX, not the reserved TXT/QC and whose data does not begin with the self
    marker, a chatter on that store answers the Q request with exactly one
    DATA line, carrying the lower-cased domain, the upper-cased type, the
    decoded TTL and the data, followed by END; the query counter of the
    domain is 1 afterwards. *)
Theorem X25_add_then_lookup env c (dm rtype data0 spec qc qid rip lip : string) (a : AddOp) :
  AddOp_init (Some dm) (Some rtype) (Some data0) spec = Ok a →
  PyStr.upper rtype ≠ "MX" →
  ¬ (PyStr.upper rtype = "TXT" ∧ data0 = "QC") →
  PyStr.startswith data0 MAGIC_SELF_IP = false →
  redis c = (AddOp_Run a ∅).2 → log_buffer c = [] → truthy (local_ip c) = true →
  ∃ c' : Chatter,
    Lookup env ["Q"; dm; qc; rtype; qid; rip; lip] c = (Ok tt, c')
    ∧ outfile c' =
        (outfile c ++ [DATA_line (PyStr.lower dm) (PyStr.upper rtype) (ttl a) data0; "END"])%list
    ∧ counter_of (hash_at (REDIS_PREFIX +:+ PyStr.lower dm) (redis c')) = Some 1.
Proof.
  intros Ha Hmx Hqc Hself Hredis Hlog Hip.
  pose proof (AddOp_init_valid _ _ _ _ _ Ha) as Hvalid.
  apply AddOp_init_Ok in Ha as (n & Hq & Hr & Hd & _ & _).
  destruct (QueryOp_init_Ok _ _ _ _ Hq) as (Hdom & Hrec & Hdat).
  assert (truthy (Some rtype) = true ∧ record (add_query a) = Some (PyStr.upper rtype))
    as [Hrt Hrec'].
  { rewrite Hrec in Hr |- *. by destruct (truthy (Some rtype)). }
  cbn [text default from_option id] in Hdom.
  rewrite Hrec' in Hvalid. cbn [text default from_option id] in Hvalid.
  destruct (valid_record_no_tab _ Hvalid) as (Htab & Hsrv & Hany).
  assert (String.eqb rtype "ANY" = false) as Hne.
  { apply String.eqb_neq. by intros ->. }
  set (R := PyStr.upper rtype) in *. set (D := PyStr.lower dm) in *.
  set (q := mkQueryOp D (Some R) None).
  assert (request_query dm rtype = Ok q) as Hreq.
  { unfold request_query. rewrite Hne. unfold QueryOp_init.
    assert (truthy (Some dm) = true) as ->.
    { unfold QueryOp_init in Hq. by destruct (truthy (Some dm)). }
    by rewrite Hrt. }
  set (key := REDIS_PREFIX +:+ D). set (f := R +:+ String TAB data0).
  assert (f ≠ QC_FIELD) as Hf.
  { intros Heq. apply Hqc.
    assert (PyStr.find_sep TAB f = PyStr.find_sep TAB QC_FIELD) as Hsep by by rewrite Heq.
    unfold f in Hsep. rewrite find_sep_app in Hsep by done.
    by injection Hsep as -> ->. }
  assert (redis c = <[key := {[f := ttl a]}]> ∅) as Hs0.
  { rewrite Hredis, AddOp_Run_store. unfold key_of, field_of.
    rewrite Hdom, Hrec', Hdat. cbn [text default from_option id]. rewrite join_pair.
    fold key f. unfold hash_at. rewrite lookup_empty. cbn [default from_option id].
    by rewrite insert_empty. }
  set (r := (D, R, ttl a, data0) : Rec).
  assert (Query q None (wildcards c) (redis c)
          = (Ok [r], <[key := <[QC_FIELD := PyStr.str (0 + 1)]> {[f := ttl a]}]> (redis c)))
    as HQ.
  { rewrite Hs0. unfold Query, q. rewrite Query_with_unfold, py_or_None. cbv zeta.
    cbn [domain]. fold key. rewrite hash_at_insert.
    unfold Query_found. cbn [record data]. change (truthy None) with false.
    rewrite andb_false_r.
    rewrite map_to_list_singleton. cbn [Query_scan]. rewrite unpack2_split1.
    replace (PyStr.find_sep TAB f) with (Some (R, data0))
      by (symmetry; unfold f; by apply find_sep_app).
    unfold Query_keep. cbn [record text default from_option id domain].
    assert (truthy (Some R) = true) as -> by (by rewrite <- Hrec').
    rewrite String.eqb_refl.
    pose proof (hincrby_counter key (<[key := {[f := ttl a]}]> ∅)) as Hinc.
    rewrite hash_at_insert in Hinc.
    unfold counter_of in Hinc. rewrite lookup_singleton_ne in Hinc by done.
    by rewrite Hinc. }
  destruct (Lookup_reply_lines env c dm qc rtype qid rip lip q [r] _ Hip Hreq HQ)
    as (c' & Hrun & Hout & Hred & _).
  { constructor; [|constructor]. unfold has_self_test, r, rec_data. cbn [snd].
    rewrite Hself. by rewrite andb_false_r. }
  exists c'. split; [done|]. split.
  - rewrite Hout, Hlog. cbn [List.filter map].
    assert (is_counter_record r = false) as ->.
    { unfold is_counter_record, r, rec_type, rec_data. cbn [fst snd].
      destruct (String.eqb_spec R "TXT") as [HR|]; [|done].
      destruct (String.eqb_spec data0 "QC") as [HD|]; [|done]. by destruct Hqc. }
    cbn [negb map app]. unfold reply_line, r, rec_type, rec_data, rec_domain, rec_ttl.
    cbn [fst snd]. rewrite Hself.
    rewrite bool_decide_eq_false_2; [done|].
    intros [?|[?|?%elem_of_nil]%elem_of_cons]%elem_of_cons; done.
  - rewrite Hred, hash_at_insert. apply counter_of_insert.
Qed.

Lemma X25_add_then_lookup_witness :
  let a := mkAddOp (mkQueryOp "example.com" (Some "A") (Some "1.2.3.4")) "300" in
  let c := set_local_ip (Some "5.6.7.8") (PdnsChatter_init (AddOp_Run a ∅).2 false) in
  ∃ c' : Chatter,
    Lookup probe_env ["Q"; "Example.COM"; "IN"; "a"; "-1"; "1.2.3.4"; "5.6.7.8"] c = (Ok tt, c')
    ∧ outfile c' = [DATA_line "example.com" "A" "300" "1.2.3.4"; "END"].
Proof.
  cbv zeta.
  destruct (X25_add_then_lookup probe_env
              (set_local_ip (Some "5.6.7.8")
                 (PdnsChatter_init
                    (AddOp_Run (mkAddOp (mkQueryOp "example.com" (Some "A") (Some "1.2.3.4"))
                                  "300") ∅).2 false))
              "Example.COM" "a" "1.2.3.4" "5M" "IN" "-1" "1.2.3.4" "5.6.7.8"
              (mkAddOp (mkQueryOp "example.com" (Some "A") (Some "1.2.3.4")) "300"))
    as (c' & Hrun & Hout & _).
  - vm_compute. reflexivity.
  - vm_compute. discriminate.
  - intros [H _]. vm_compute in H. discriminate.
  - reflexivity.
  - reflexivity.
  - reflexivity.
  - reflexivity.
  - exists c'. split; [exact Hrun|exact Hout].
Defined.

End end_to_end.

(* ===================================================================== *)
(** ** The replies as lines of the output stream *)
(* ===================================================================== *)

Section one_line_texts.

Lemma one_line_cons (ch : ascii) (s : string) :
  one_line (String ch s) = (negb (Ascii.eqb ch NL) && one_line s)%bool.
Proof. reflexivity. Qed.

Lemma one_line_app (a b : string) :
  one_line (a +:+ b) = (one_line a && one_line b)%bool.
Proof.
  induction a as [|ch a IH]; [done|].
  change (String ch a +:+ b) with (String ch (a +:+ b)).
  by rewrite !one_line_cons, IH, andb_assoc.
Qed.

Lemma one_line_app_intro (a b : string) :
  one_line a = true → one_line b = true → one_line (a +:+ b) = true.
Proof. intros Ha Hb. by rewrite one_line_app, Ha, Hb. Qed.

Lemma one_line_map_chars (f : ascii → ascii) (s : string) :
  (∀ ch, Ascii.eqb (f ch) NL = Ascii.eqb ch NL) →
  one_line (PyStr.map_chars f s) = one_line s.
Proof.
  intros Hf. induction s as [|ch s IH]; [done|].
  cbn [PyStr.map_chars]. by rewrite !one_line_cons, Hf, IH.
Qed.

Lemma one_line_lower (s : string) : one_line (PyStr.lower s) = one_line s.
Proof.
  apply one_line_map_chars. intros ch.
  destruct ch as [[] [] [] [] [] [] [] []]; vm_compute; reflexivity.
Qed.

Lemma one_line_upper (s : string) : one_line (PyStr.upper s) = one_line s.
Proof.
  apply one_line_map_chars. intros ch.
  destruct ch as [[] [] [] [] [] [] [] []]; vm_compute; reflexivity.
Qed.

Lemma one_line_find_sep (ch : ascii) (s x y : string) :
  PyStr.find_sep ch s = Some (x, y) → one_line s = true →
  one_line x = true ∧ one_line y = true.
Proof.
  revert x. induction s as [|a r IH]; intros x; [done|].
  cbn [PyStr.find_sep]. rewrite one_line_cons. destruct (Ascii.eqb a ch).
  - intros [= <- <-] [_ Hr]%andb_prop. done.
  - destruct (PyStr.find_sep ch r) as [[x' y']|]; [|done].
    intros [= <- <-] [Ha Hr]%andb_prop.
    destruct (IH x' eq_refl Hr) as [Hx Hy]. by rewrite one_line_cons, Ha, Hx.
Qed.

Lemma one_line_split (ch : ascii) (s : string) (n : nat) :
  one_line s = true → Forall (λ l, one_line l = true) (PyStr.split ch s n).
Proof.
  revert s. induction n as [|n IH]; intros s Hs; cbn [PyStr.split].
  - by constructor.
  - destruct (PyStr.find_sep ch s) as [[x y]|] eqn:E; [|by constructor].
    destruct (one_line_find_sep _ _ _ _ E Hs). constructor; [done|by apply IH].
Qed.

Lemma one_line_join (sep : string) (l : list string) :
  one_line sep = true → Forall (λ l, one_line l = true) l →
  one_line (PyStr.join sep l) = true.
Proof.
  intros Hsep. induction 1 as [|x l Hx Hl IH]; [done|].
  destruct l as [|y l']; [done|].
  change (PyStr.join sep (x :: y :: l')) with (x +:+ sep +:+ PyStr.join sep (y :: l')).
  by rewrite !one_line_app, Hx, Hsep, IH.
Qed.

Lemma one_line_string_of_uint (u : Decimal.uint) :
  one_line (NilEmpty.string_of_uint u) = true.
Proof. induction u; cbn [NilEmpty.string_of_uint]; [done|by rewrite one_line_cons, IHu..]. Qed.

Lemma one_line_str (z : Z) : one_line (PyStr.str z) = true.
Proof.
  unfold PyStr.str. destruct (Z.to_int z) as [u|u]; cbn [NilEmpty.string_of_int].
  - apply one_line_string_of_uint.
  - by rewrite one_line_cons, one_line_string_of_uint.
Qed.

Lemma one_line_repr_char (quote ch : ascii) :
  quote = "'"%char ∨ quote = PyStr.DQUOTE → one_line (PyStr.repr_char quote ch) = true.
Proof.
  intros [-> | ->]; destruct ch as [[] [] [] [] [] [] [] []]; vm_compute; reflexivity.
Qed.

Lemma one_line_repr_body (quote : ascii) (s : string) :
  quote = "'"%char ∨ quote = PyStr.DQUOTE → one_line (PyStr.repr_body quote s) = true.
Proof.
  intros Hq. induction s as [|ch s IH]; [done|]. cbn [PyStr.repr_body].
  by rewrite one_line_app, one_line_repr_char, IH.
Qed.

(** [repr] escapes the newline: the text of a [repr] is one line. *)
Lemma one_line_repr (s : string) : one_line (PyStr.repr s) = true.
Proof.
  unfold PyStr.repr.
  set (quote := if (_ && _)%bool then PyStr.DQUOTE else "'"%char).
  assert (quote = "'"%char ∨ quote = PyStr.DQUOTE) as Hq
    by (unfold quote; destruct (_ && _)%bool; auto).
  pose proof (one_line_repr_body quote s Hq) as Hbody.
  change (String quote (PyStr.repr_body quote s) +:+ String quote EmptyString)
    with (String quote (PyStr.repr_body quote s +:+ String quote EmptyString)).
  rewrite one_line_cons, one_line_app, Hbody, one_line_cons.
  by destruct Hq as [-> | ->].
Qed.

Lemma one_line_repr_list (l : list string) : one_line (PyStr.repr_list l) = true.
Proof.
  unfold PyStr.repr_list. rewrite !one_line_app.
  rewrite one_line_join; [done|done|].
  induction l; constructor; [apply one_line_repr|done].
Qed.

Lemma one_line_drop_srv_sep (s : string) :
  one_line s = true → one_line (drop_srv_sep s) = true.
Proof.
  induction s as [|a r IH]; [done|]. cbn [drop_srv_sep].
  destruct (is_srv_sep a); [|done]. rewrite one_line_cons. intros [_ Hr]%andb_prop. auto.
Qed.

Lemma one_line_SRV_SPLIT (s : string) :
  one_line s = true → Forall (λ l, one_line l = true) (SRV_SPLIT_split1 s).
Proof.
  induction s as [|a r IH]; cbn [SRV_SPLIT_split1]; [by repeat constructor|].
  rewrite one_line_cons. intros [Ha Hr]%andb_prop. destruct (is_srv_sep a).
  - constructor; [done|]. constructor; [by apply one_line_drop_srv_sep|constructor].
  - specialize (IH Hr). destruct (SRV_SPLIT_split1 r) as [|x l]; [constructor|].
    inversion IH as [|? ? Hx Hl]; subst. constructor; [|done].
    by rewrite one_line_cons, Ha, Hx.
Qed.

Lemma one_line_DATA (d1 d2 d3 d4 : string) :
  one_line d1 = true → one_line d2 = true → one_line d3 = true → one_line d4 = true →
  one_line (DATA_line d1 d2 d3 d4) = true.
Proof.
  intros H1 H2 H3 H4. unfold DATA_line. by rewrite !one_line_app, H1, H2, H3, H4.
Qed.

Lemma one_line_LOG (message : string) :
  one_line message = true → one_line (LOG_line message) = true.
Proof. intros H. unfold LOG_line. by rewrite !one_line_app, H. Qed.

Lemma one_line_LOGs (l : list string) :
  Forall (λ m, one_line m = true) l → Forall (λ l, one_line l = true) (map LOG_line l).
Proof. induction 1; constructor; [by apply one_line_LOG|done]. Qed.

(** A text without a newline, written by [reply], is one line of the
    stream. *)
Lemma stream_lines_line (t rest : string) :
  one_line t = true → stream_lines (t +:+ NLS +:+ rest) = t :: stream_lines rest.
Proof.
  induction t as [|ch t IH]; [done|].
  rewrite one_line_cons. intros [Hch Ht]%andb_prop.
  change (String ch t +:+ NLS +:+ rest) with (String ch (t +:+ NLS +:+ rest)).
  cbn [stream_lines]. apply negb_true_iff in Hch. by rewrite Hch, (IH Ht).
Qed.

Lemma stream_lines_stream (texts : list string) :
  Forall (λ l, one_line l = true) texts → stream_lines (stream texts) = texts.
Proof.
  induction 1 as [|t texts Ht _ IH]; [done|].
  cbn [stream]. by rewrite stream_lines_line, IH.
Qed.

End one_line_texts.

Section one_line_backend.

Implicit Types (s : Store) (h : Hash) (q : QueryOp).

Lemma store_one_line_hash_at (key : string) s :
  store_one_line s → map_Forall field_one_line (hash_at key s).
Proof.
  intros Hs. unfold hash_at. destruct (s !! key) as [h|] eqn:E; cbn.
  - exact (Hs _ _ E).
  - apply map_Forall_empty.
Qed.

Lemma store_one_line_counted (key : string) (n : Z) s :
  store_one_line s →
  store_one_line (<[key := <[QC_FIELD := PyStr.str n]> (hash_at key s)]> s).
Proof.
  intros Hs. apply map_Forall_insert_2; [|done].
  apply map_Forall_insert_2; [|by apply store_one_line_hash_at].
  split; [reflexivity|apply one_line_str].
Qed.

(** A query leaves the backend without newlines. *)
Lemma Query_store_one_line q (d : option string) (w : bool) s
    (r : result (list Rec)) (s' : Store) :
  Query q d w s = (r, s') → store_one_line s → store_one_line s'.
Proof.
  intros Hq Hs. pose proof (Query_effect q d w s) as H. rewrite Hq in H.
  assert (s' = s ∨ ∃ key, counted_once key s s') as [->|[key (n & _ & -> & _)]].
  { destruct r as [[|? ?]|]; auto. }
  - done.
  - by apply store_one_line_counted.
Qed.

Lemma Query_found_one_line q h (rv : list Rec) :
  Query_found q h = Ok rv →
  one_line (domain q) = true → one_line (text (record q)) = true →
  one_line (text (data q)) = true → map_Forall field_one_line h →
  Forall rec_one_line rv.
Proof.
  intros Hf Hd Hr Hdt Hh. unfold Query_found in Hf.
  destruct (truthy (record q) && truthy (data q))%bool.
  - destruct (h !! _) as [t|] eqn:E; injection Hf as <-; [|constructor].
    constructor; [|constructor]. destruct (Hh _ _ E) as [_ Ht]. by repeat split.
  - apply Forall_forall. intros r Hin.
    apply (Query_scan_elem _ _ _ Hf) in Hin
      as (e & v & rt & rd & He%elem_of_map_to_list & Hdec & _ & ->).
    destruct (Hh _ _ He) as [He1 Hv].
    destruct (one_line_find_sep _ _ _ _ Hdec He1) as [Hrt Hrd]. by repeat split.
Qed.

(** The records a query returns were found under some key. *)
Lemma Query_result_found q (d : option string) (w : bool) s
    (r : Rec) (rv : list Rec) (s' : Store) :
  Query q d w s = (Ok (r :: rv), s') →
  ∃ key : string, Query_found q (hash_at key s) = Ok (r :: rv).
Proof.
  destruct w.
  - unfold Query. rewrite Query_with_unfold. cbv zeta.
    set (key := REDIS_PREFIX +:+ py_or d (domain q)).
    destruct (Query_found q (hash_at key s)) as [[|r0 rv0]|e] eqn:E; [| |done].
    + intros Hw. pose proof (WildQuery_effect q (py_or d (domain q)) s) as H.
      rewrite Hw in H. destruct H as (dom' & Hf & _). by eexists.
    + destruct (MockRedis.hincrby key QC_FIELD 1 s) as [[]]; [|done].
      intros [= <- <- _]. by exists key.
  - rewrite Query_false. intros Hq.
    pose proof (Query_nowild_effect q d s) as H. cbv zeta in H. rewrite Hq in H.
    destruct H as [Hf _]. by eexists.
Qed.

Lemma Query_one_line q (d : option string) (w : bool) s (rv : list Rec) (s' : Store) :
  Query q d w s = (Ok rv, s') → store_one_line s →
  one_line (domain q) = true → one_line (text (record q)) = true →
  one_line (text (data q)) = true →
  Forall rec_one_line rv.
Proof.
  intros Hq Hs Hd Hr Hdt. destruct rv as [|r rv]; [constructor|].
  destruct (Query_result_found _ _ _ _ _ _ _ Hq) as [key Hf].
  eapply Query_found_one_line; [exact Hf|done..|by apply store_one_line_hash_at].
Qed.

Lemma Query_scan_raise_one_line q (l : list (string * string)) (e : Exn) :
  Query_scan q l = Raised e → one_line (exn_str e) = true.
Proof.
  revert e. induction l as [|[f v] l IH]; [done|]. intros e. simpl.
  destruct (PyStr.find_sep TAB f) as [[]|]; simpl.
  - destruct (Query_scan q l); [done|]. intros [= <-]. by eapply IH.
  - by intros [= <-].
Qed.

(** What a query raises has a text without a newline: the text of an
    unpacking error, or that of [int()], which quotes its argument with
    [repr]. *)
Lemma Query_raise_one_line q (d : option string) (w : bool) s (e : Exn) (s' : Store) :
  Query q d w s = (Raised e, s') → one_line (exn_str e) = true.
Proof.
  unfold Query. rewrite Query_with_unfold. cbv zeta.
  set (key := REDIS_PREFIX +:+ py_or d (domain q)).
  destruct (Query_found q (hash_at key s)) as [[|r0 rv0]|e0] eqn:E.
  - destruct w; [|done]. intros Hw.
    pose proof (WildQuery_effect q (py_or d (domain q)) s) as H. by rewrite Hw in H.
  - unfold MockRedis.hincrby.
    destruct (default ∅ (s !! key) !! QC_FIELD) as [v|]; [|done].
    destruct (PyStr.int v); [done|]. intros [= <- _]. cbn [exn_str].
    by rewrite one_line_app, one_line_repr.
  - intros [= <- _]. unfold Query_found in E.
    destruct (truthy (record q) && truthy (data q))%bool.
    + by destruct (_ !! _).
    + by eapply Query_scan_raise_one_line.
Qed.

End one_line_backend.

Section one_line_chatter.

Implicit Types (c : Chatter) (env : Env).

Lemma kl_ret {A} (a : A) (Q : A → Prop) : Q a → keeps_lines (ret a) Q.
Proof.
  intros HQ c r c' Hc [= <- <-]. split; [done|]. split; [|done].
  exists []. by rewrite app_nil_r.
Qed.

Lemma kl_raise {A} (e : Exn) (Q : A → Prop) :
  one_line (exn_str e) = true → keeps_lines (raise e : M Chatter A) Q.
Proof.
  intros He c r c' Hc [= <- <-]. split; [done|]. split; [|done].
  exists []. by rewrite app_nil_r.
Qed.

Lemma kl_get : keeps_lines get chatter_one_line.
Proof.
  intros c r c' Hc [= <- <-]. split; [done|]. split; [|done].
  exists []. by rewrite app_nil_r.
Qed.

Lemma kl_bind {A B} (m : M Chatter A) (k : A → M Chatter B) (Q : A → Prop) (Q' : B → Prop) :
  keeps_lines m Q → (∀ a, Q a → keeps_lines (k a) Q') → keeps_lines (bind m k) Q'.
Proof.
  intros Hm Hk c r c' Hc. unfold bind.
  destruct (m c) as [[a|e] c1] eqn:E; destruct (Hm _ _ _ Hc E) as (Hc1 & (m1 & Ho1 & Hm1) & HQ).
  - intros Hka. destruct (Hk a HQ _ _ _ Hc1 Hka) as (Hc' & (m2 & Ho2 & Hm2) & HQ').
    split; [done|]. split; [|done]. exists (m1 ++ m2)%list.
    split; [by rewrite Ho2, Ho1, app_assoc|by apply Forall_app].
  - intros [= <- <-]. split; [done|]. split; [|done]. by exists m1.
Qed.

Lemma kl_try {A} (m : M Chatter A) (h : Exn → M Chatter A) (Q : A → Prop) :
  keeps_lines m Q → (∀ e, one_line (exn_str e) = true → keeps_lines (h e) Q) →
  keeps_lines (try_except_Exception m h) Q.
Proof.
  intros Hm Hh c r c' Hc. unfold try_except_Exception.
  destruct (m c) as [[a|e] c1] eqn:E; destruct (Hm _ _ _ Hc E) as (Hc1 & (m1 & Ho1 & Hm1) & HQ).
  - intros [= <- <-]. split; [done|]. split; [|done]. by exists m1.
  - destruct (is_Exception e).
    + intros Hhe. destruct (Hh e HQ _ _ _ Hc1 Hhe) as (Hc' & (m2 & Ho2 & Hm2) & HQ').
      split; [done|]. split; [|done]. exists (m1 ++ m2)%list.
      split; [by rewrite Ho2, Ho1, app_assoc|by apply Forall_app].
    + intros [= <- <-]. split; [done|]. split; [|done]. by exists m1.
Qed.

Lemma kl_reply (line : string) :
  one_line line = true → keeps_lines (reply line) (λ _, True).
Proof.
  intros Hl c r c' Hc [= <- <-]. split; [done|]. split; [|done].
  exists [line]. split; [done|by constructor].
Qed.

Lemma kl_FlushLogBuffer : keeps_lines FlushLogBuffer (λ _, True).
Proof.
  intros c r c' Hc [= <- <-]. destruct Hc as (Hs & Hip & Hlog).
  split; [split; [exact Hs|split; [exact Hip|constructor]]|]. split; [|done].
  exists (map LOG_line (log_buffer c)). split; [done|by apply one_line_LOGs].
Qed.

Lemma kl_SendLog (message : string) :
  one_line message = true → keeps_lines (SendLog message) (λ _, True).
Proof.
  intros Hm c r c' Hc [= <- <-]. destruct Hc as (Hs & Hip & Hlog).
  split; [|split; [|done]].
  - split; [exact Hs|split; [exact Hip|]]. cbn. apply Forall_app.
    split; [done|by constructor].
  - exists []. cbn. by rewrite app_nil_r.
Qed.

Lemma kl_SetLocalIp_try (addr : option string) :
  one_line (text addr) = true → keeps_lines (SetLocalIp_try addr) (λ _, True).
Proof.
  intros Ha c r c' Hc. rewrite SetLocalIp_try_Ok. intros [= <- <-].
  split; [|split; [|done]].
  - destruct addr as [a|]; [|done]. cbn [SetLocalIp_try]. rewrite SetLocalIp_eq. cbn [snd].
    destruct (adoptable a); [|done]. destruct Hc as (Hs & Hip & Hlog).
    split; [exact Hs|split; [exact Ha|exact Hlog]].
  - exists []. rewrite app_nil_r.
    destruct addr as [a|]; [|done]. cbn [SetLocalIp_try]. rewrite SetLocalIp_eq. cbn [snd].
    by destruct (adoptable a).
Qed.

Lemma kl_Lookup_local_ip env (l : string) :
  env_one_line env → one_line l = true →
  keeps_lines (Lookup_local_ip env l) (λ _, True).
Proof.
  intros [Hhost _] Hl. unfold Lookup_local_ip.
  eapply kl_bind; [apply kl_get|]. intros c0 _. cbv beta.
  destruct (negb (truthy (local_ip c0))); [|by apply kl_ret].
  eapply kl_bind; [apply (kl_SetLocalIp_try (Some l) Hl)|]. intros _ _.
  eapply kl_bind; [apply kl_get|]. intros c1 _. cbv beta.
  destruct (negb (truthy (local_ip c1))); [by apply kl_SetLocalIp_try|by apply kl_ret].
Qed.

Lemma kl_SendRecord env (r : Rec) :
  rec_one_line r → keeps_lines (SendRecord env r) (λ _, True).
Proof.
  intros (Hd & Ht & Hl & Hdata). unfold SendRecord.
  destruct (PyStr.startswith (rec_data r) MAGIC_SELF_IP);
    [|by apply kl_reply, one_line_DATA].
  destruct (PyStr.contains ":" (rec_data r)) eqn:Hcolon.
  - intros c r0 c' Hc. apply find_sep_contains in Hcolon as [[x y] Hxy].
    unfold bind, lift_result. cbn [PyStr.split]. rewrite Hxy.
    destruct (PyStr.find_sep ":" y) as [[y1 y2]|]; cbn; intros [= <- <-];
      (split; [done|]; split; [|done]; exists []; by rewrite app_nil_r).
  - eapply kl_bind; [by apply (kl_ret tt (λ _, True))|]. intros _ _.
    eapply kl_bind; [apply kl_get|]. intros c0 (_ & Hip & _). cbv beta.
    destruct (negb _); [by apply kl_raise|by apply kl_reply, one_line_DATA].
Qed.

Lemma kl_Lookup_records env (records : list Rec) :
  Forall rec_one_line records → keeps_lines (Lookup_records env records) (λ _, True).
Proof.
  induction 1 as [|r rest Hr _ IH]; [by apply kl_ret|].
  cbn [Lookup_records]. eapply kl_bind; [|intros _ _; exact IH].
  unfold Lookup_record, SendMxOrSrv. destruct Hr as (Hd & Ht & Hl & Hdata).
  destruct (bool_decide _).
  - apply kl_reply, one_line_DATA; [done..|].
    apply one_line_join; [done|by apply one_line_SRV_SPLIT].
  - destruct (_ || _)%bool; [by apply kl_SendRecord|by apply kl_ret].
Qed.

Lemma kl_Query (q : QueryOp) :
  one_line (domain q) = true → one_line (text (record q)) = true →
  one_line (text (data q)) = true →
  keeps_lines (c <- get ;; on_redis (Query q None (wildcards c))) (Forall rec_one_line).
Proof.
  intros Hd Hr Hdt c r c' (Hs & Hip & Hlog). unfold bind, get, on_redis.
  destruct (Query q None (wildcards c) (redis c)) as [r0 s'] eqn:E.
  intros [= <- <-]. split; [|split].
  - split; [by eapply Query_store_one_line|done].
  - exists []. cbn. by rewrite app_nil_r.
  - destruct r0 as [rv|e].
    + by eapply Query_one_line.
    + by eapply Query_raise_one_line.
Qed.

Lemma kl_Lookup env (query : list string) :
  env_one_line env → Forall (λ f, one_line f = true) query →
  keeps_lines (Lookup env query) (λ _, True).
Proof.
  intros Henv Hq. unfold Lookup.
  destruct query as [|a0 [|a1 [|a2 [|a3 [|a4 [|a5 [|a6 [|a7 l]]]]]]]];
    try (apply kl_raise; cbn [exn_str];
         destruct (_ <? _)%nat; [by rewrite !one_line_app, one_line_str|done]).
  assert (one_line a0 = true ∧ one_line a1 = true ∧ one_line a3 = true
          ∧ one_line a6 = true) as (H0 & H1 & H3 & H6).
  { rewrite !Forall_cons in Hq. tauto. }
  eapply kl_bind; [by apply kl_Lookup_local_ip|]. intros _ _.
  destruct (String.eqb a0 "Q").
  - apply (kl_bind _ _ (Forall rec_one_line)).
    + destruct (negb (truthy (Some a1))) eqn:Ha1; [apply kl_ret; constructor|].
      assert (QueryOp_init (Some a1) None None
              = Ok (mkQueryOp (PyStr.lower a1) None None)) as Hi1.
      { unfold QueryOp_init. by rewrite Ha1. }
      assert (QueryOp_init (Some a1) (Some a3) None
              = Ok (mkQueryOp (PyStr.lower a1)
                      (if truthy (Some a3) then Some (PyStr.upper a3) else None) None))
        as Hi2.
      { unfold QueryOp_init. by rewrite Ha1. }
      destruct (String.eqb a3 "ANY").
      * rewrite Hi1. unfold bind at 1, lift_result at 1.
        apply kl_Query; [cbn [domain]; by rewrite one_line_lower|done..].
      * rewrite Hi2. unfold bind at 1, lift_result at 1.
        apply kl_Query; [cbn [domain]; by rewrite one_line_lower| |done].
        cbn [record]. destruct (truthy (Some a3)); [|done].
        change (text (Some (PyStr.upper a3))) with (PyStr.upper a3).
        by rewrite one_line_upper.
    + intros records Hrec. cbv beta.
      eapply kl_bind; [by apply kl_Lookup_records|]. intros _ _.
      unfold EndReply. eapply kl_bind; [apply kl_FlushLogBuffer|]. intros _ _.
      by apply kl_reply.
  - eapply kl_bind; [apply kl_SendLog; by rewrite !one_line_app, H0|]. intros _ _.
    eapply kl_bind; [apply kl_FlushLogBuffer|]. intros _ _. by apply kl_reply.
Qed.

Lemma kl_Run_request env (line : string) :
  env_one_line env → one_line line = true →
  keeps_lines (Run_request env line) (λ _, True).
Proof.
  intros Henv Hline. unfold Run_request. apply kl_try.
  - destruct (length _ =? 7)%nat.
    + apply kl_Lookup; [done|]. by apply one_line_split.
    + eapply kl_bind; [apply kl_FlushLogBuffer|]. intros _ _.
      eapply kl_bind; [|intros _ _; by apply kl_reply].
      apply kl_reply, one_line_LOG. by rewrite one_line_app, one_line_repr_list.
  - intros e He. eapply kl_bind; [apply kl_FlushLogBuffer|]. intros _ _.
    eapply kl_bind; [|intros _ _; by apply kl_reply].
    apply kl_reply, one_line_LOG. by rewrite one_line_app, He.
Qed.

(** X12.  The reply to one request line, whatever the line: the body of
    the loop does not raise, and what it hands to [reply] is a (possibly
    empty) run of texts that begin with DATA or LOG and a tab, closed by
    exactly one text END or FAIL; the log buffer is empty afterwards.
    When the request line, the field names and values of the backend, the
    local addresses and the buffered log messages hold no newline, these
    texts are exactly the lines the request puts on the output stream: DATA
    and LOG lines closed by exactly one terminator line; and the chatter is
    again without newlines. *)
Theorem X12_request_reply_shape env (line : string) c :
  ∃ (c' : Chatter) (written : list string),
    Run_request env line c = (Ok tt, c')
    ∧ outfile c' = (outfile c ++ written)%list
    ∧ one_reply written
    ∧ log_buffer c' = []
    ∧ (env_one_line env → one_line line = true → chatter_one_line c →
       stream_lines (stream written) = written ∧ chatter_one_line c').
Proof.
  destruct (Run_request_shape env line c) as (c' & body & t & Hrun & Ho & Hb & Ht & Hl).
  exists c', (body ++ [t])%list. split; [done|]. split; [done|].
  split; [by exists body, t|]. split; [done|].
  intros Henv Hline Hc.
  destruct (kl_Run_request env line Henv Hline _ _ _ Hc Hrun) as (Hc' & (more & Ho' & Hm) & _).
  split; [|done]. apply stream_lines_stream.
  rewrite Ho in Ho'. by apply app_inv_head in Ho' as ->.
Qed.

Lemma X12_request_reply_shape_witness :
  ∃ (c' : Chatter) (written : list string),
    Run_request probe_env
      (PyStr.strip (request ["Q"; "a.com"; "IN"; "ANY"; "-1"; "1.2.3.4"; "5.6.7.8"]))
      (PdnsChatter_init counted_store false) = (Ok tt, c')
    ∧ outfile c' = (outfile (PdnsChatter_init counted_store false) ++ written)%list
    ∧ one_reply written
    ∧ log_buffer c' = []
    ∧ stream_lines (stream written) = written ∧ chatter_one_line c'.
Proof.
  destruct (X12_request_reply_shape probe_env
              (PyStr.strip (request ["Q"; "a.com"; "IN"; "ANY"; "-1"; "1.2.3.4"; "5.6.7.8"]))
              (PdnsChatter_init counted_store false))
    as (c' & written & Hrun & Ho & Hrep & Hl & Hlines).
  exists c', written. split; [done|]. split; [done|]. split; [done|]. split; [done|].
  apply Hlines.
  - apply (bool_decide_unpack _). vm_compute. exact I.
  - vm_compute. reflexivity.
  - apply (bool_decide_unpack _). vm_compute. exact I.
Defined.

(** Without that condition the texts are not the lines: a record whose
    data holds a newline followed by END is written by one [reply], and the
    stream of the request shows two END lines. *)
Example newline_in_data_forges_a_terminator :
  let c' := (Run_request probe_env
               (PyStr.strip (request ["Q"; "a.com"; "IN"; "ANY"; "-1"; "1.2.3.4"; "5.6.7.8"]))
               (PdnsChatter_init forged_store false)).2 in
  List.filter is_terminator (outfile c') = ["END"]
  ∧ List.filter is_terminator (stream_lines (stream (outfile c'))) = ["END"; "END"].
Proof. vm_compute. split; reflexivity. Qed.

(** Over a whole input without newlines the loop writes only texts without
    newlines, one terminator among them per line read. *)
Lemma Run_loop_one_line env (infile : list string) c :
  Forall (λ line, String.length line ≠ 0%nat ∧ one_line (PyStr.strip line) = true) infile →
  env_one_line env → chatter_one_line c →
  ∃ written : list string,
    outfile (Run_loop env infile c).2 = (outfile c ++ written)%list
    ∧ Forall (λ l, one_line l = true) written
    ∧ length (List.filter is_terminator written) = length infile.
Proof.
  intros Hall Henv. revert c. induction Hall as [|line rest [Hline Hone] _ IH]; intros c Hc.
  - exists []. cbn. by rewrite app_nil_r.
  - cbn [Run_loop readline]. apply Nat.eqb_neq in Hline. rewrite Hline.
    destruct (Run_request_shape env (PyStr.strip line) c)
      as (c' & body & t & Hrun & Ho & Hb & Ht & _).
    destruct (kl_Run_request env _ Henv Hone _ _ _ Hc Hrun) as (Hc' & (more & Ho' & Hm) & _).
    rewrite Hrun. destruct (IH c' Hc') as (written & Hout & Hw & Hcount).
    assert (more = (body ++ [t])%list) as ->.
    { rewrite Ho in Ho'. by apply app_inv_head in Ho'. }
    exists ((body ++ [t]) ++ written)%list. split; [|split].
    + by rewrite Hout, Ho, <- !app_assoc.
    + by apply Forall_app.
    + rewrite !List.filter_app, !length_app, (count_body body Hb), Hcount.
      by destruct Ht as [-> | ->].
Qed.

(** X24.  One terminator line per request.  Over input lines none of which
    is empty (a file gives the empty text only at its end) or holds a
    newline before its end, with a backend, local addresses and buffered
    log messages that hold no newline, what the request loop writes is, line
    by line, what it handed to [reply], and the stream holds exactly as many
    terminator lines, END or FAIL, as the loop has read lines: every
    request is answered, and answered once. *)
Theorem X24_one_terminator_per_request env (infile : list string) c :
  Forall (λ line, String.length line ≠ 0%nat ∧ one_line (PyStr.strip line) = true) infile →
  env_one_line env → chatter_one_line c →
  ∃ written : list string,
    outfile (Run_loop env infile c).2 = (outfile c ++ written)%list
    ∧ stream_lines (stream written) = written
    ∧ length (List.filter is_terminator (stream_lines (stream written))) = length infile.
Proof.
  intros Hall Henv Hc.
  destruct (Run_loop_one_line env infile c Hall Henv Hc) as (written & Ho & Hw & Hcount).
  exists written. split; [done|]. rewrite (stream_lines_stream written Hw). by split.
Qed.

Lemma X24_one_terminator_per_request_witness :
  ∃ written : list string,
    outfile (Run_loop probe_env
               [request ["Q"; "x"];
                request ["Q"; "self.example.com"; "IN"; "A"; "-1"; "1.2.3.4"; "5.6.7.8"];
                request ["AXFR"; "a.com"; "IN"; "A"; "-1"; "1.2.3.4"; "5.6.7.8"]]
               self_chatter).2
    = (outfile self_chatter ++ written)%list
    ∧ stream_lines (stream written) = written
    ∧ length (List.filter is_terminator (stream_lines (stream written))) = 3%nat.
Proof.
  apply (X24_one_terminator_per_request probe_env
           [request ["Q"; "x"];
            request ["Q"; "self.example.com"; "IN"; "A"; "-1"; "1.2.3.4"; "5.6.7.8"];
            request ["AXFR"; "a.com"; "IN"; "A"; "-1"; "1.2.3.4"; "5.6.7.8"]]
           self_chatter).
  - repeat constructor; vm_compute; (discriminate || reflexivity).
  - apply (bool_decide_unpack _). vm_compute. exact I.
  - apply (bool_decide_unpack _). vm_compute. exact I.
Defined.

End one_line_chatter.
